(** * Etcha Movers: ingestion, price reconciliation and ranking

    A shallow embedding of the core of the Etcha Movers application
    (lib/filters.ts, lib/api/{kalshi,polymarket,manifold}.ts,
    lib/services/priceCalculator.ts, lib/services/dataRefresh.ts,
    models/{Market,HistoricalPrice}.ts and app/api/markets/route.ts),
    followed by the properties established about it.

    Conventions of the embedding:
    - a JavaScript [number] is an exact rational ([Q]): the numbers of
      the decoded responses and of the stored documents are finite.
      The results of [parseFloat] and of the adapters' price
      computations, which can be [NaN] or an infinity, are [double]s;
    - a [Date] is its time value, an integer count of milliseconds
      ([Z]); a count beyond +-8.64e15 stands for the time value [NaN]
      of an Invalid Date, which the store refuses;
    - a string is a [string] of 8-bit characters; case conversion acts
      on the letters A-Z / a-z;
    - [undefined] / [null] / a missing document field are [None],
      except where the code tells [undefined] from [null];
    - a collection of the document store is the list of its documents
      in insertion order;
    - a rejected promise is an explicit [Rejected] outcome. *)

From Stdlib Require Import ZArith QArith Qround Qabs List Bool String Ascii Lia Lqa.
From Stdlib Require Import Permutation Sorted.
Import ListNotations.

Local Open Scope string_scope.
Local Open Scope list_scope.
Local Open Scope bool_scope.
Local Open Scope Z_scope.

Set Implicit Arguments.

(* ===================================================================== *)
(** * Part I: the embedding                                               *)
(* ===================================================================== *)

(** ** JavaScript primitives *)

Module JS.

Definition number := Q.
Definition Date := Z.

(** [Math.round]: nearest integer, ties towards +infinity. *)
Definition Math_round (x : number) : Z := Qfloor (x + (1 # 2))%Q.

(** [Math.abs]. *)
Definition Math_abs (x : number) : number := Qabs x.

(** A number that need not be finite. *)
Inductive double : Type :=
| NaN
| Infinity (negative : bool)
| Finite (q : number).

(** The magnitude from which a result is rounded to an infinity:
    [Number.MAX_VALUE] plus half the gap to the next power of two. *)
Definition OVERFLOW : number := inject_Z (2 ^ 1024 - 2 ^ 970).

(** The value of an arithmetic result whose exact value is [q]. *)
Definition to_double (q : number) : double :=
  if Qle_bool OVERFLOW (Qabs q) then Infinity (negb (Qle_bool 0 q))
  else Finite q.

(** [Math.round(x * 100)] *)
Definition round_percent (x : double) : double :=
  match x with
  | NaN => NaN
  | Infinity negative => Infinity negative
  | Finite q =>
      match to_double (q * 100)%Q with
      | Finite y => Finite (inject_Z (Math_round y))
      | d => d
      end
  end.

(** The greatest time value of a [Date]; beyond it the time value is
    [NaN]. *)
Definition MAX_TIME_VALUE : Z := 8640000000000000.

Definition valid_date (d : Date) : bool :=
  (- MAX_TIME_VALUE <=? d) && (d <=? MAX_TIME_VALUE).

(** An absent date, or a valid one. *)
Definition valid_or_absent (d : option Date) : bool :=
  match d with
  | Some t => valid_date t
  | None => true
  end.

(** [x || 0] on an optional number: absent values and zero give 0. *)
Definition or_zero (x : option number) : number :=
  match x with
  | Some q => if Qeq_bool q 0 then 0%Q else q
  | None => 0%Q
  end.

(** [x || ''] on an optional string. *)
Definition or_empty (x : option string) : string :=
  match x with
  | Some s => s
  | None => ""
  end.

(** [s || undefined]: the empty string is falsy. *)
Definition or_undefined (s : string) : option string :=
  match s with
  | "" => None
  | _ => Some s
  end.

(** Truthiness of an optional string. *)
Definition truthy (x : option string) : bool :=
  match x with
  | Some (String _ _) => true
  | _ => false
  end.

(** The outcome of awaiting a promise. *)
Inductive Outcome (A : Type) : Type :=
| Resolved (a : A)
| Rejected.
Arguments Rejected {A}.

(** [promise.catch(() => fallback)]. *)
Definition catch {A : Type} (p : Outcome A) (fallback : A) : A :=
  match p with
  | Resolved a => a
  | Rejected => fallback
  end.

(** [array.slice(i, i + n)]. *)
Definition slice {A : Type} (i n : nat) (l : list A) : list A :=
  firstn n (skipn i l).

(** Letters, digits and case conversion on 8-bit characters. *)
Definition code (c : ascii) : N := N_of_ascii c.
Definition between (lo hi : N) (c : ascii) : bool :=
  (N.leb lo (code c) && N.leb (code c) hi)%bool.
Definition is_upper : ascii -> bool := between 65 90.
Definition is_lower : ascii -> bool := between 97 122.
Definition is_digit : ascii -> bool := between 48 57.
Definition is_letter (c : ascii) : bool := (is_upper c || is_lower c)%bool.
(** [\w] *)
Definition is_word (c : ascii) : bool :=
  (is_letter c || is_digit c || Ascii.eqb c "_")%bool.
(** [\s] *)
Definition is_space (c : ascii) : bool :=
  (Ascii.eqb c " " || between 9 13 c)%bool.

Definition lower_char (c : ascii) : ascii :=
  if is_upper c then ascii_of_N (code c + 32) else c.
Definition upper_char (c : ascii) : ascii :=
  if is_lower c then ascii_of_N (code c - 32) else c.

Fixpoint map_string (f : ascii -> ascii) (s : string) : string :=
  match s with
  | EmptyString => EmptyString
  | String c s' => String (f c) (map_string f s')
  end.

Definition toLowerCase : string -> string := map_string lower_char.
Definition toUpperCase : string -> string := map_string upper_char.

(** [hay.includes(needle)] *)
Fixpoint includes (hay needle : string) : bool :=
  if String.prefix needle hay then true
  else match hay with
       | EmptyString => false
       | String _ hay' => includes hay' needle
       end.

End JS.
Import JS.

(** ** Stable sorting, as [Array.prototype.sort] and the store's [sort]

    [before x y] holds when the comparator does not order [y] strictly
    before [x]; elements that compare equal keep their relative order. *)

Fixpoint insert_sorted {A : Type} (before : A -> A -> bool) (x : A) (l : list A)
  : list A :=
  match l with
  | [] => [x]
  | y :: l' => if before x y then x :: l else y :: insert_sorted before x l'
  end.

Fixpoint stable_sort {A : Type} (before : A -> A -> bool) (l : list A) : list A :=
  match l with
  | [] => []
  | x :: l' => insert_sorted before x (stable_sort before l')
  end.

(** ** Regular expressions

    The fragment of the RegExp language the filters use, with a
    backtracking matcher written in continuation-passing style.  The
    continuation receives the character before the current position
    (for [\b]) and the rest of the input. *)

Module RegExp.

Inductive re : Type :=
| Eps
| Cls (p : ascii -> bool)
| Seq (a b : re)
| Alt (a b : re)
| Star (a : re)
| WordB.

Definition opt_word (c : option ascii) : bool :=
  match c with
  | Some x => is_word x
  | None => false
  end.

Fixpoint run (r : re) (prev : option ascii) (s : list ascii)
  (k : option ascii -> list ascii -> bool) {struct r} : bool :=
  match r with
  | Eps => k prev s
  | Cls p =>
      match s with
      | c :: s' => if p c then k (Some c) s' else false
      | [] => false
      end
  | Seq a b => run a prev s (fun prev' s' => run b prev' s' k)
  | Alt a b => if run a prev s k then true else run b prev s k
  | Star a =>
      (fix loop (n : nat) (prev : option ascii) (s : list ascii) : bool :=
         if k prev s then true
         else match n with
              | O => false
              | S n' =>
                  run a prev s
                    (fun prev' s' =>
                       if Nat.ltb (List.length s') (List.length s)
                       then loop n' prev' s'
                       else false)
              end) (List.length s) prev s
  | WordB =>
      if xorb (opt_word prev) (opt_word (hd_error s)) then k prev s else false
  end.

(** A match starting at some position of the input. *)
Fixpoint search (r : re) (prev : option ascii) (s : list ascii) : bool :=
  if run r prev s (fun _ _ => true) then true
  else match s with
       | [] => false
       | c :: s' => search r (Some c) s'
       end.

(** [regex.test(text)] *)
Definition test (r : re) (text : string) : bool :=
  search r None (list_ascii_of_string text).

(** Pattern constructors; every pattern of the filters carries the [i]
    flag, so literals and letter ranges match either case. *)
Definition chr_i (c : ascii) : re :=
  Cls (fun x => Ascii.eqb (lower_char x) (lower_char c)).
Definition chr (c : ascii) : re := Cls (Ascii.eqb c).
Fixpoint lit_i (s : string) : re :=
  match s with
  | EmptyString => Eps
  | String c s' => Seq (chr_i c) (lit_i s')
  end.
Definition letter_i : re := Cls is_letter.
Definition digit : re := Cls is_digit.
Definition space : re := Cls is_space.
Definition plus (a : re) : re := Seq a (Star a).
Definition opt (a : re) : re := Alt a Eps.
Fixpoint seqs (l : list re) : re :=
  match l with
  | [] => Eps
  | a :: l' => Seq a (seqs l')
  end.
Fixpoint alts (l : list re) : re :=
  match l with
  | [] => Cls (fun _ => false)
  | [a] => a
  | a :: l' => Alt a (alts l')
  end.

End RegExp.

(** ** lib/filters.ts *)

Module Filters.
Import RegExp.

Definition SPORTS_KEYWORDS : list string :=
  [ "NBA"; "NFL"; "MLB"; "NHL"; "FIFA"; "soccer"; "football"; "basketball";
    "baseball"; "hockey"; "tennis"; "golf"; "boxing"; "UFC"; "MMA"; "cricket";
    "rugby"; "Olympics"; "Super Bowl"; "World Series"; "Stanley Cup";
    "points scored"; "touchdowns"; "home runs"; "goals scored"; "assists";
    "rebounds"; "Australian Open"; "French Open"; "Wimbledon";
    "US Open tennis"; "Grand Slam"; "aces at the"; "March Madness";
    "World Cup"; "Premier League"; "La Liga"; "Serie A"; "Bundesliga";
    "Champions League" ].

Definition name_i : re := Seq letter_i (plus letter_i).
Definition number_i : re := seqs [plus digit; opt (chr "."); Star digit].

Definition SPORTS_PROP_PATTERNS : list re :=
  [ (* /yes\s+[A-Z][a-z]+\s+[A-Z][a-z]+:\s*\d+\+/i *)
    seqs [lit_i "yes"; plus space; name_i; plus space; name_i; chr ":";
          Star space; plus digit; chr "+"];
    (* /\d+\+,\s*yes\s+[A-Z]/i *)
    seqs [plus digit; chr "+"; chr ","; Star space; lit_i "yes"; plus space;
          letter_i];
    (* /Over\s+\d+\.?\d*\s+points/i *)
    seqs [lit_i "Over"; plus space; number_i; plus space; lit_i "points"];
    (* /Under\s+\d+\.?\d*\s+points/i *)
    seqs [lit_i "Under"; plus space; number_i; plus space; lit_i "points"] ].

Definition NBA_TEAM_INDICATORS : list string :=
  [ "Los Angeles L"; "Los Angeles C"; "Golden State"; "New England";
    "San Antonio"; "New Orleans"; "Oklahoma City" ].

(** [\$[\d,]+] *)
Definition dollars : re :=
  Seq (chr "$") (plus (Cls (fun c => (is_digit c || Ascii.eqb c ",")%bool))).
Definition btc : re := Alt (lit_i "BTC") (lit_i "Bitcoin").
Definition eth : re := Alt (lit_i "ETH") (lit_i "Ethereum").
Definition verb5 : re :=
  alts [lit_i "above"; lit_i "below"; lit_i "reach"; lit_i "hit"; lit_i "at"].
Definition verb3 : re := alts [lit_i "above"; lit_i "below"; lit_i "reach"].

Definition PRICE_THRESHOLD_PATTERNS : list re :=
  [ (* /\b(BTC|Bitcoin)\s+(above|below|reach|hit|at)\s+\$[\d,]+/i *)
    seqs [WordB; btc; plus space; verb5; plus space; dollars];
    (* /\bWill\s+(ETH|Ethereum)\s+reach\s+\$[\d,]+/i *)
    seqs [WordB; lit_i "Will"; plus space; eth; plus space; lit_i "reach";
          plus space; dollars];
    (* /\bWill\s+(BTC|Bitcoin)\s+reach\s+\$[\d,]+/i *)
    seqs [WordB; lit_i "Will"; plus space; btc; plus space; lit_i "reach";
          plus space; dollars];
    (* /\b(ETH|Ethereum)\s+(above|below|reach|hit|at)\s+\$[\d,]+/i *)
    seqs [WordB; eth; plus space; verb5; plus space; dollars];
    (* /\bprice\s+(above|below|reach)\s+\$[\d,]+/i *)
    seqs [WordB; lit_i "price"; plus space; verb3; plus space; dollars] ].

Definition ALLOWED_TOPICS : list string :=
  [ "politics"; "election"; "elections"; "regulation"; "technology"; "AI";
    "artificial intelligence"; "companies"; "company" ].

(** [new RegExp(`\\b${keyword}\\b`, 'i')]; the keywords that reach it
    consist of letters only. *)
Definition word_regex (keyword : string) : re :=
  seqs [WordB; lit_i keyword; WordB].

Definition containsSportsKeyword (text : string) : bool :=
  let lowerText := toLowerCase text in
  existsb
    (fun keyword =>
       if String.eqb keyword (toUpperCase keyword)
       then test (word_regex keyword) text
       else includes lowerText (toLowerCase keyword))
    SPORTS_KEYWORDS.

Definition matchesSportsPropPattern (text : string) : bool :=
  existsb (fun pattern => test pattern text) SPORTS_PROP_PATTERNS.

Definition containsNBATeamIndicator (text : string) : bool :=
  existsb (fun indicator => includes text indicator) NBA_TEAM_INDICATORS.

Definition matchesPriceThresholdPattern (text : string) : bool :=
  existsb (fun pattern => test pattern text) PRICE_THRESHOLD_PATTERNS.

Definition isAllowedTopic (text : string) : bool :=
  let lowerText := toLowerCase text in
  existsb (fun topic => includes lowerText (toLowerCase topic)) ALLOWED_TOPICS.

(** The text the classifier looks at:
    [`${title} ${description} ${category || ''}`]. *)
Definition combinedText (title description : string) (category : option string)
  : string :=
  (title ++ " " ++ description ++ " " ++ or_empty category)%string.

Definition shouldExcludeMarket (title description : string)
  (category : option string) : bool :=
  let combinedText := combinedText title description category in
  if isAllowedTopic combinedText then false
  else if containsSportsKeyword combinedText then true
  else if matchesSportsPropPattern combinedText then true
  else if containsNBATeamIndicator combinedText then true
  else if matchesPriceThresholdPattern combinedText then true
  else false.

End Filters.

(** ** The three sources *)

Inductive Source : Type := kalshi | polymarket | manifold.

Definition Source_eqb (a b : Source) : bool :=
  match a, b with
  | kalshi, kalshi | polymarket, polymarket | manifold, manifold => true
  | _, _ => false
  end.

(** ** Retrying requests and paginated responses (shared by the adapters)

    One attempt of [fetch(url, options)] either throws a network-level
    fault or yields a response with a status and a decoded body.  The
    back-off delay between attempts is not represented. *)

Module Http.

Inductive Attempt (B : Type) : Type :=
| NetworkError
| Response (status : Z) (body : B).
Arguments NetworkError {B}.

Definition MAX_RETRIES : nat := 3.

(** [response.ok] *)
Definition ok (status : Z) : bool := (200 <=? status) && (status <=? 299).

(** [fetchWithRetry]: the attempts of one request are [tries 0],
    [tries 1], ...; a 429 or 5xx response and a thrown fault both lead
    to the next attempt, and the call throws once the attempts are used
    up. *)
Fixpoint fetchWithRetry_from {B : Type} (remaining : nat) (attempt : nat)
  (tries : nat -> Attempt B) : Outcome (Z * B) :=
  match remaining with
  | O => Rejected
  | S remaining' =>
      match tries attempt with
      | Response status body =>
          if (status =? 429) || (500 <=? status)
          then fetchWithRetry_from remaining' (S attempt) tries
          else Resolved (status, body)
      | NetworkError => fetchWithRetry_from remaining' (S attempt) tries
      end
  end.

Definition fetchWithRetry {B : Type} (tries : nat -> Attempt B)
  : Outcome (Z * B) :=
  fetchWithRetry_from MAX_RETRIES 0 tries.

(** The remote service, as seen by a pagination loop: the attempts of
    the n-th request the loop issues. *)
Definition Api (B : Type) : Type := nat -> nat -> Attempt B.

(** What a pagination loop returns: the accumulated records and whether
    the safety-limit warning was logged. *)
Record Fetched (A : Type) : Type := mkFetched {
  items : list A;
  limitWarning : bool
}.

End Http.
Import Http.

(** ** lib/api/kalshi.ts *)

Module Kalshi.

(** The fields of a raw market the adapter reads.  The time strings are
    carried decoded: [None] for an absent or empty string, otherwise the
    time value of [new Date(...)], which is that of an Invalid Date
    when the string does not parse. *)
Record KalshiMarket : Type := mkKalshiMarket {
  ticker : string;
  event_ticker : string;
  title : string;
  created_time : option Date;
  expiration_time : option Date;
  last_price : option number;
  rules_primary : option string;
  rules_secondary : option string;
  category : option string
}.

Record KalshiMarketsResponse : Type := mkKalshiMarketsResponse {
  markets : list KalshiMarket;
  cursor : string
}.

Record NormalizedMarket : Type := mkNormalizedMarket {
  marketId : string;
  source : Source;
  marketName : string;
  eventName : string;
  marketUrl : string;
  eventUrl : option string;
  description : option string;
  creationDate : option Date;
  resolutionDate : option Date;
  currentPrice : double;
  n_category : option string
}.

(** [fetchAllKalshiMarkets]; [None] when [fuel] iterations did not reach
    the end of the loop. *)
Fixpoint fetchAllKalshiMarkets_loop (fuel : nat) (api : Api KalshiMarketsResponse)
  (request : nat) (allMarkets : list KalshiMarket)
  : option (Outcome (Fetched KalshiMarket)) :=
  match fuel with
  | O => None
  | S fuel' =>
      match fetchWithRetry (api request) with
      | Rejected => Some Rejected
      | Resolved (status, data) =>
          if negb (ok status) then Some Rejected
          else
            let allMarkets := allMarkets ++ markets data in
            let cursor := or_undefined (cursor data) in
            if 10000 <=? Z.of_nat (List.length allMarkets)
            then Some (Resolved (mkFetched allMarkets true))
            else match cursor with
                 | Some _ =>
                     fetchAllKalshiMarkets_loop fuel' api (S request) allMarkets
                 | None => Some (Resolved (mkFetched allMarkets false))
                 end
      end
  end.

Definition fetchAllKalshiMarkets (fuel : nat) (api : Api KalshiMarketsResponse)
  : option (Outcome (Fetched KalshiMarket)) :=
  fetchAllKalshiMarkets_loop fuel api 0 [].

Definition normalizePrice (lastPrice : option number) : double :=
  match lastPrice with
  | None => Finite 50%Q
  | Some p => Finite p
  end.

Definition buildMarketUrl (ticker : string) : string :=
  ("https://kalshi.com/markets/" ++ ticker)%string.

Definition buildEventUrl (eventTicker : string) : string :=
  ("https://kalshi.com/events/" ++ eventTicker)%string.

(** The ticker pre-filter of [fetchKalshiMarkets]. *)
Definition sportsTicker (t : string) : bool :=
  let ticker := toUpperCase t in
  includes ticker "SPORT" || includes ticker "NBA" || includes ticker "NFL"
  || includes ticker "MLB" || includes ticker "NHL" || includes ticker "SOCCER"
  || includes ticker "TENNIS" || includes ticker "GOLF".

(** One iteration of the normalising loop of [fetchKalshiMarkets]:
    [None] when the market is skipped. *)
Definition normalize (market : KalshiMarket) : option NormalizedMarket :=
  let description :=
    if truthy (rules_primary market) then or_empty (rules_primary market)
    else if truthy (rules_secondary market) then or_empty (rules_secondary market)
    else "" in
  let category := or_empty (category market) in
  if sportsTicker (ticker market) then None
  else if Filters.shouldExcludeMarket (title market) description (Some category)
  then None
  else Some {|
    marketId := ticker market;
    source := kalshi;
    marketName := title market;
    eventName := event_ticker market;
    marketUrl := buildMarketUrl (ticker market);
    eventUrl := Some (buildEventUrl (event_ticker market));
    description := or_undefined description;
    creationDate := created_time market;
    resolutionDate := expiration_time market;
    currentPrice := normalizePrice (last_price market);
    n_category := or_undefined category
  |}.

Fixpoint filter_map {A B : Type} (f : A -> option B) (l : list A) : list B :=
  match l with
  | [] => []
  | x :: l' =>
      match f x with
      | Some y => y :: filter_map f l'
      | None => filter_map f l'
      end
  end.

(** [fetchKalshiMarkets], given the settled outcome [fetched] of
    [await fetchAllKalshiMarkets()]. *)
Definition fetchKalshiMarkets (fetched : Outcome (Fetched KalshiMarket))
  : Outcome (list NormalizedMarket) :=
  match fetched with
  | Rejected => Rejected
  | Resolved f => Resolved (filter_map normalize (items f))
  end.

End Kalshi.

(** ** lib/api/polymarket.ts *)

Module Polymarket.
Import Kalshi.

(** The fields of a raw market the adapter reads.  The time strings
    [createdAt] and [endDate] are carried decoded, as for Kalshi. *)
Record PolymarketMarket : Type := mkPolymarketMarket {
  conditionId : string;
  question : string;
  m_description : option string;
  m_category : option string;
  outcomes : list string;
  outcomePrices : list string;
  createdAt : option Date;
  endDate : option Date;
  active : bool;
  closed : bool;
  enableOrderBook : bool
}.

Record PolymarketEvent : Type := mkPolymarketEvent {
  slug : string;
  e_title : string;
  e_description : option string;
  e_category : option string;
  e_markets : list PolymarketMarket
}.

Definition limit : nat := 100.

(** [fetchAllPolymarketEvents]; [None] when [fuel] iterations did not
    reach the end of the loop. *)
Fixpoint fetchAllPolymarketEvents_loop (fuel : nat)
  (api : Api (list PolymarketEvent)) (request : nat)
  (allEvents : list PolymarketEvent)
  : option (Outcome (Fetched PolymarketEvent)) :=
  match fuel with
  | O => None
  | S fuel' =>
      match fetchWithRetry (api request) with
      | Rejected => Some Rejected
      | Resolved (status, events) =>
          if negb (ok status) then Some Rejected
          else
            match events with
            | [] => Some (Resolved (mkFetched allEvents false))
            | _ :: _ =>
                let allEvents := allEvents ++ events in
                if 5000 <=? Z.of_nat (List.length allEvents)
                then Some (Resolved (mkFetched allEvents true))
                else fetchAllPolymarketEvents_loop fuel' api (S request) allEvents
            end
      end
  end.

Definition fetchAllPolymarketEvents (fuel : nat)
  (api : Api (list PolymarketEvent))
  : option (Outcome (Fetched PolymarketEvent)) :=
  fetchAllPolymarketEvents_loop fuel api 0 [].

Definition buildMarketUrl (slug : string) : string :=
  ("https://polymarket.com/event/" ++ slug)%string.

Definition buildEventUrl (slug : string) : string :=
  ("https://polymarket.com/event/" ++ slug)%string.

(** [parseFloat]: leading white space, an optional sign, then either
    [Infinity] or digits with an optional fraction and an optional
    exponent; what follows is ignored.  A text without such a prefix
    gives [NaN]; a decimal beyond the largest number gives an
    infinity. *)
Fixpoint skip_space (s : list ascii) : list ascii :=
  match s with
  | c :: s' => if is_space c then skip_space s' else s
  | [] => []
  end.

(** Reads a run of digits: its value after [acc], its length, the rest. *)
Fixpoint read_digits (s : list ascii) (acc : Z) (n : nat)
  : Z * nat * list ascii :=
  match s with
  | c :: s' =>
      if is_digit c
      then read_digits s' (10 * acc + (Z.of_N (code c) - 48)) (S n)
      else (acc, n, s)
  | [] => (acc, n, [])
  end.

Definition read_sign (s : list ascii) : bool * list ascii :=
  match s with
  | c :: s' =>
      if Ascii.eqb c "-" then (true, s')
      else if Ascii.eqb c "+" then (false, s')
      else (false, s)
  | [] => (false, [])
  end.

Definition read_exponent (s : list ascii) : Z :=
  match s with
  | c :: s' =>
      if Ascii.eqb (lower_char c) "e"
      then let '(neg, s'') := read_sign s' in
           let '(e, n, _) := read_digits s'' 0 O in
           match n with
           | O => 0
           | S _ => if neg then - e else e
           end
      else 0
  | [] => 0
  end.

Definition pow10 (e : Z) : Q :=
  if 0 <=? e then inject_Z (10 ^ e) else (1 # Z.to_pos (10 ^ (- e)))%Q.

Definition parseFloat (str : string) : double :=
  let '(neg, s) := read_sign (skip_space (list_ascii_of_string str)) in
  if String.prefix "Infinity" (string_of_list_ascii s) then Infinity neg
  else
    let '(int, ni, s) := read_digits s 0 O in
    let '(num, nf, s) :=
      match s with
      | c :: s' => if Ascii.eqb c "." then read_digits s' int O else (int, O, s)
      | [] => (int, O, [])
      end in
    match ni, nf with
    | O, O => NaN
    | _, _ =>
        let mantissa := (num # Z.to_pos (10 ^ Z.of_nat nf))%Q in
        let v := (mantissa * pow10 (read_exponent s))%Q in
        match to_double v with
        | Infinity _ => Infinity neg
        | _ => Finite (if neg then (- v)%Q else v)
        end
    end.

(** [if (!priceStr) return 50; price = parseFloat(priceStr);
    if (isNaN(price)) return 50; return Math.round(price * 100)] *)
Definition parseOutcomePrice (priceStr : option string) : double :=
  if negb (truthy priceStr) then Finite 50%Q
  else
    match parseFloat (or_empty priceStr) with
    | NaN => Finite 50%Q
    | price => round_percent price
    end.

(** [array.findIndex] *)
Fixpoint findIndex {A : Type} (p : A -> bool) (l : list A) : option nat :=
  match l with
  | [] => None
  | x :: l' => if p x then Some O else option_map S (findIndex p l')
  end.

Definition getYesPrice (market : PolymarketMarket) : double :=
  let yesIndex :=
    findIndex (fun o => String.eqb (toLowerCase o) "yes") (outcomes market) in
  let yesPrice :=
    match yesIndex with
    | Some i => nth_error (outcomePrices market) i
    | None => None
    end in
  if truthy yesPrice then parseOutcomePrice yesPrice
  else
    match outcomePrices market with
    | first :: _ => parseOutcomePrice (Some first)
    | [] => Finite 50%Q
    end.

(** One iteration of the inner normalising loop of
    [fetchPolymarketMarkets]: [None] when the market is skipped. *)
Definition normalize (event : PolymarketEvent) (market : PolymarketMarket)
  : option NormalizedMarket :=
  if negb (active market) || closed market || negb (enableOrderBook market)
  then None
  else
    let description :=
      if truthy (m_description market) then or_empty (m_description market)
      else if truthy (e_description event) then or_empty (e_description event)
      else "" in
    let category :=
      if truthy (m_category market) then or_empty (m_category market)
      else if truthy (e_category event) then or_empty (e_category event)
      else "" in
    if Filters.shouldExcludeMarket (question market) description (Some category)
    then None
    else Some {|
      marketId := conditionId market;
      source := polymarket;
      marketName := question market;
      eventName := e_title event;
      marketUrl := buildMarketUrl (slug event);
      eventUrl := Some (buildEventUrl (slug event));
      description := or_undefined description;
      creationDate := createdAt market;
      resolutionDate := endDate market;
      currentPrice := getYesPrice market;
      n_category := or_undefined category
    |}.

(** [fetchPolymarketMarkets], given the settled outcome [fetched] of
    [await fetchAllPolymarketEvents()]. *)
Definition fetchPolymarketMarkets (fetched : Outcome (Fetched PolymarketEvent))
  : Outcome (list NormalizedMarket) :=
  match fetched with
  | Rejected => Rejected
  | Resolved f =>
      Resolved
        (flat_map (fun event => filter_map (normalize event) (e_markets event))
           (items f))
  end.

End Polymarket.

(** ** lib/api/manifold.ts *)

Module Manifold.
Import Kalshi.

Inductive OutcomeType : Type :=
| BINARY | PSEUDO_NUMERIC | FREE_RESPONSE | MULTIPLE_CHOICE | NUMERIC | CERT
| QUADRATIC_FUNDING | STONK | BOUNTIED_QUESTION | POLL.

Definition isBinary (t : OutcomeType) : bool :=
  match t with
  | BINARY => true
  | _ => false
  end.

(** [description?: string | object] *)
Inductive Description : Type :=
| DescriptionString (s : string)
| DescriptionObject.

(** [probability?: number]: the key can be missing ([undefined]) and
    the decoded value can be [null]; the filter of the pagination loop
    tells the two apart. *)
Inductive Probability : Type :=
| ProbabilityUndefined
| ProbabilityNull
| ProbabilityOf (p : number).

(** [probability !== undefined] *)
Definition isDefined (p : Probability) : bool :=
  match p with
  | ProbabilityUndefined => false
  | _ => true
  end.

Record ManifoldMarket : Type := mkManifoldMarket {
  id : string;
  createdTime : Z;
  closeTime : option Z;
  question : string;
  url : string;
  outcomeType : OutcomeType;
  probability : Probability;
  isResolved : bool;
  groupSlugs : option (list string);
  textDescription : option string;
  m_description : option Description
}.

Record ManifoldGroup : Type := mkManifoldGroup {
  g_slug : string;
  g_name : string
}.

Definition limit : nat := 500.

(** [fetchAllManifoldMarkets]; [None] when [fuel] iterations did not
    reach the end of the loop. *)
Fixpoint fetchAllManifoldMarkets_loop (fuel : nat)
  (api : Api (list ManifoldMarket)) (request : nat)
  (allMarkets : list ManifoldMarket)
  : option (Outcome (Fetched ManifoldMarket)) :=
  match fuel with
  | O => None
  | S fuel' =>
      match fetchWithRetry (api request) with
      | Rejected => Some Rejected
      | Resolved (status, markets) =>
          if negb (ok status) then Some Rejected
          else
            match markets with
            | [] => Some (Resolved (mkFetched allMarkets false))
            | _ :: _ =>
                let activeMarkets :=
                  filter
                    (fun m =>
                       negb (isResolved m) && isBinary (outcomeType m)
                       && isDefined (probability m))
                    markets in
                let allMarkets := allMarkets ++ activeMarkets in
                if 10000 <=? Z.of_nat (List.length allMarkets)
                then Some (Resolved (mkFetched allMarkets true))
                else if (List.length markets <? limit)%nat
                then Some (Resolved (mkFetched allMarkets false))
                else fetchAllManifoldMarkets_loop fuel' api (S request) allMarkets
            end
      end
  end.

Definition fetchAllManifoldMarkets (fuel : nat)
  (api : Api (list ManifoldMarket))
  : option (Outcome (Fetched ManifoldMarket)) :=
  fetchAllManifoldMarkets_loop fuel api 0 [].

(** The [Map] that [fetchGroupDetails] resolves to, as the list of its
    [set] calls; lookup returns the latest entry for a slug. *)
Definition GroupMap : Type := list (string * ManifoldGroup).

Definition groupMap_get (groupMap : GroupMap) (slug : string)
  : option ManifoldGroup :=
  option_map snd (find (fun e => String.eqb (fst e) slug) (rev groupMap)).

(** [[...new Set(groupSlugs)]] *)
Fixpoint unique (l : list string) (seen : list string) : list string :=
  match l with
  | [] => []
  | x :: l' =>
      if existsb (String.eqb x) seen then unique l' seen
      else x :: unique l' (x :: seen)
  end.

(** [fetchGroupDetails]: [groupApi slug] gives the attempts of the
    request for one group; a request that throws or is not [ok]
    contributes nothing. *)
Definition fetchGroupDetails (groupApi : string -> nat -> Attempt ManifoldGroup)
  (groupSlugs : list string) : GroupMap :=
  flat_map
    (fun slug =>
       match fetchWithRetry (groupApi slug) with
       | Resolved (status, group) =>
           if ok status then [(g_slug group, group)] else []
       | Rejected => []
       end)
    (unique groupSlugs []).

(** [if (probability === undefined || probability === null) return 50;
    return Math.round(probability * 100)] *)
Definition normalizePrice (probability : Probability) : double :=
  match probability with
  | ProbabilityUndefined | ProbabilityNull => Finite 50%Q
  | ProbabilityOf p => round_percent (Finite p)
  end.

Definition getDescriptionText (market : ManifoldMarket) : string :=
  if truthy (textDescription market) then or_empty (textDescription market)
  else
    match m_description market with
    | Some (DescriptionString s) => s
    | _ => ""
    end.

Definition getPrimaryGroupName (market : ManifoldMarket) (groupMap : GroupMap)
  : string :=
  match groupSlugs market with
  | None | Some [] => "General"
  | Some (first :: rest) =>
      match
        find (fun slug =>
                match groupMap_get groupMap slug with
                | Some _ => true
                | None => false
                end)
          (first :: rest)
      with
      | Some slug =>
          match groupMap_get groupMap slug with
          | Some group => g_name group
          | None => first
          end
      | None => first
      end
  end.

(** [x ? new Date(x) : undefined] for a millisecond count; a count
    beyond the range of time values gives an Invalid Date. *)
Definition date_of_ms (x : option Z) : option Date :=
  match x with
  | Some t => if t =? 0 then None else Some t
  | None => None
  end.

(** One iteration of the normalising loop of [fetchManifoldMarkets]:
    [None] when the market is skipped. *)
Definition normalize (groupMap : GroupMap) (market : ManifoldMarket)
  : option NormalizedMarket :=
  let description := getDescriptionText market in
  let groupName := getPrimaryGroupName market groupMap in
  if Filters.shouldExcludeMarket (question market) description (Some groupName)
  then None
  else Some {|
    marketId := id market;
    source := manifold;
    marketName := question market;
    eventName := groupName;
    marketUrl := url market;
    eventUrl := None;
    description := or_undefined description;
    creationDate := date_of_ms (Some (createdTime market));
    resolutionDate := date_of_ms (closeTime market);
    currentPrice := normalizePrice (probability market);
    n_category := or_undefined groupName
  |}.

(** [fetchManifoldMarkets], given the settled outcome [fetched] of
    [await fetchAllManifoldMarkets()] and the group endpoint. *)
Definition fetchManifoldMarkets (fetched : Outcome (Fetched ManifoldMarket))
  (groupApi : string -> nat -> Attempt ManifoldGroup)
  : Outcome (list NormalizedMarket) :=
  match fetched with
  | Rejected => Rejected
  | Resolved f =>
      let markets := items f in
      let allGroupSlugs :=
        flat_map (fun market =>
                    match groupSlugs market with
                    | Some slugs => slugs
                    | None => []
                    end) markets in
      let groupMap := fetchGroupDetails groupApi allGroupSlugs in
      Resolved (filter_map (normalize groupMap) markets)
  end.

End Manifold.
(** ** models/HistoricalPrice.ts *)

Module HistoricalPrice.

Record IHistoricalPrice : Type := mkIHistoricalPrice {
  marketId : string;
  source : Source;
  price : number;
  timestamp : Date
}.

(** The filter [{ marketId, source, timestamp: { $gte, $lte } }]. *)
Record Filter : Type := mkFilter {
  f_marketId : string;
  f_source : Source;
  f_gte : Date;
  f_lte : Date
}.

Definition matches (f : Filter) (h : IHistoricalPrice) : bool :=
  String.eqb (marketId h) (f_marketId f)
  && Source_eqb (source h) (f_source f)
  && (f_gte f <=? timestamp h) && (timestamp h <=? f_lte f).

(** [.sort({ timestamp: -1 })] *)
Definition newer_first (a b : IHistoricalPrice) : bool :=
  timestamp b <=? timestamp a.

(** [findOne(filter).sort({ timestamp: -1 })] *)
Definition findOne_newest (f : Filter) (coll : list IHistoricalPrice)
  : option IHistoricalPrice :=
  hd_error (stable_sort newer_first (filter (matches f) coll)).

(** The validation of a document before it is inserted: the required
    [marketId] is not the empty string.  (The other required paths hold
    a source of the enumeration, a number and a date.) *)
Definition valid (h : IHistoricalPrice) : bool :=
  negb (String.eqb (marketId h) "").

(** [insertMany(docs, { ordered: false })]: the documents that fail
    validation are left out, the others are inserted. *)
Definition insertMany (docs coll : list IHistoricalPrice)
  : list IHistoricalPrice :=
  coll ++ filter valid docs.

End HistoricalPrice.

(** ** models/Market.ts *)

Module Market.

Record IMarket : Type := mkIMarket {
  marketId : string;
  source : Source;
  marketName : string;
  eventName : string;
  marketUrl : string;
  eventUrl : option string;
  description : option string;
  creationDate : option Date;
  resolutionDate : option Date;
  currentPrice : number;
  price1DayAgo : option number;
  price1WeekAgo : option number;
  price1MonthAgo : option number;
  priceChange1Day : option number;
  priceChange1Week : option number;
  priceChange1Month : option number;
  category : option string;
  isExcluded : bool;
  excludedBy : option string;
  excludedAt : option Date;
  lastUpdated : Date
}.

(** The [$set] document of a refresh: exactly the keys the orchestrator
    lists in [marketDoc]. *)
Record MarketDoc : Type := mkMarketDoc {
  d_marketId : string;
  d_source : Source;
  d_marketName : string;
  d_eventName : string;
  d_marketUrl : string;
  d_eventUrl : option string;
  d_description : option string;
  d_creationDate : option Date;
  d_resolutionDate : option Date;
  d_currentPrice : number;
  d_category : option string;
  d_lastUpdated : Date
}.

(** A key of the [$set] document whose value is [undefined] is removed
    from the update: the stored field stays as it is. *)
Definition set_opt {A : Type} (new old : option A) : option A :=
  match new with
  | Some _ => new
  | None => old
  end.

(** [{ $set: doc }] applied to a stored document. *)
Definition apply_set (doc : MarketDoc) (m : IMarket) : IMarket :=
  {| marketId := d_marketId doc;
     source := d_source doc;
     marketName := d_marketName doc;
     eventName := d_eventName doc;
     marketUrl := d_marketUrl doc;
     eventUrl := set_opt (d_eventUrl doc) (eventUrl m);
     description := set_opt (d_description doc) (description m);
     creationDate := set_opt (d_creationDate doc) (creationDate m);
     resolutionDate := set_opt (d_resolutionDate doc) (resolutionDate m);
     currentPrice := d_currentPrice doc;
     price1DayAgo := price1DayAgo m;
     price1WeekAgo := price1WeekAgo m;
     price1MonthAgo := price1MonthAgo m;
     priceChange1Day := priceChange1Day m;
     priceChange1Week := priceChange1Week m;
     priceChange1Month := priceChange1Month m;
     category := set_opt (d_category doc) (category m);
     isExcluded := isExcluded m;
     excludedBy := excludedBy m;
     excludedAt := excludedAt m;
     lastUpdated := d_lastUpdated doc |}.

(** The document an upsert inserts: the filter's key, the [$set] fields
    and the schema defaults ([isExcluded: false]); the remaining paths
    are absent. *)
Definition inserted (id : string) (src : Source) (doc : MarketDoc) : IMarket :=
  apply_set doc
    {| marketId := id;
       source := src;
       marketName := "";
       eventName := "";
       marketUrl := "";
       eventUrl := None;
       description := None;
       creationDate := None;
       resolutionDate := None;
       currentPrice := 0%Q;
       price1DayAgo := None;
       price1WeekAgo := None;
       price1MonthAgo := None;
       priceChange1Day := None;
       priceChange1Week := None;
       priceChange1Month := None;
       category := None;
       isExcluded := false;
       excludedBy := None;
       excludedAt := None;
       lastUpdated := d_lastUpdated doc |}.

(** Whether setting an optional key leaves the stored field as it is:
    an [undefined] value sets nothing. *)
Definition opt_noop {A : Type} (eqb : A -> A -> bool) (new old : option A)
  : bool :=
  match new, old with
  | None, _ => true
  | Some a, Some b => eqb a b
  | Some _, None => false
  end.

(** Whether [$set: doc] leaves the stored document as it is (it then
    does not count as modified). *)
Definition set_is_noop (doc : MarketDoc) (m : IMarket) : bool :=
  String.eqb (d_marketId doc) (marketId m)
  && Source_eqb (d_source doc) (source m)
  && String.eqb (d_marketName doc) (marketName m)
  && String.eqb (d_eventName doc) (eventName m)
  && String.eqb (d_marketUrl doc) (marketUrl m)
  && opt_noop String.eqb (d_eventUrl doc) (eventUrl m)
  && opt_noop String.eqb (d_description doc) (description m)
  && opt_noop Z.eqb (d_creationDate doc) (creationDate m)
  && opt_noop Z.eqb (d_resolutionDate doc) (resolutionDate m)
  && Qeq_bool (d_currentPrice doc) (currentPrice m)
  && opt_noop String.eqb (d_category doc) (category m)
  && (d_lastUpdated doc =? lastUpdated m).

(** The filter [{ marketId, source }] of an [updateOne]. *)
Definition has_key (id : string) (src : Source) (m : IMarket) : bool :=
  String.eqb (marketId m) id && Source_eqb (source m) src.

(** One [updateOne] operation of a bulk write. *)
Record UpdateOne : Type := mkUpdateOne {
  filter_marketId : string;
  filter_source : Source;
  update_set : MarketDoc;
  upsert : bool
}.

Record BulkWriteResult : Type := mkBulkWriteResult {
  modifiedCount : nat;
  upsertedCount : nat
}.

(** Updates the first document with the key, if there is one: the new
    collection and whether the document changed. *)
Fixpoint update_first (id : string) (src : Source) (doc : MarketDoc)
  (coll : list IMarket) : option (list IMarket * bool) :=
  match coll with
  | [] => None
  | m :: coll' =>
      if has_key id src m
      then Some (apply_set doc m :: coll', negb (set_is_noop doc m))
      else
        match update_first id src doc coll' with
        | Some (coll'', changed) => Some (m :: coll'', changed)
        | None => None
        end
  end.

Definition updateOne (op : UpdateOne) (st : list IMarket * BulkWriteResult)
  : list IMarket * BulkWriteResult :=
  let '(coll, r) := st in
  match update_first (filter_marketId op) (filter_source op) (update_set op) coll with
  | Some (coll', changed) =>
      (coll',
       mkBulkWriteResult
         (modifiedCount r + if changed then 1 else 0) (upsertedCount r))
  | None =>
      if upsert op
      then (coll ++ [inserted (filter_marketId op) (filter_source op) (update_set op)],
            mkBulkWriteResult (modifiedCount r) (upsertedCount r + 1))
      else (coll, r)
  end.

(** Casting the [$set] document to the schema: a [Date] path refuses
    an Invalid Date.  ([lastUpdated] is the reading of the clock.) *)
Definition castable (doc : MarketDoc) : bool :=
  valid_or_absent (d_creationDate doc) && valid_or_absent (d_resolutionDate doc).

(** [bulkWrite(ops, { ordered: false })]: the operations that cannot be
    cast are left out, without an error being thrown; the others are
    applied, here in the order of the array. *)
Definition bulkWrite (ops : list UpdateOne) (coll : list IMarket)
  : list IMarket * BulkWriteResult :=
  fold_left (fun st op => updateOne op st)
    (filter (fun op => castable (update_set op)) ops)
    (coll, mkBulkWriteResult 0 0).

(** [find(filter)] *)
Definition find (p : IMarket -> bool) (coll : list IMarket) : list IMarket :=
  filter p coll.

End Market.

(** ** lib/services/priceCalculator.ts *)

Module PriceCalculator.

Definition ONE_DAY_MS : Z := 24 * 60 * 60 * 1000.
Definition ONE_WEEK_MS : Z := 7 * ONE_DAY_MS.
Definition ONE_MONTH_MS : Z := 30 * ONE_DAY_MS.
Definition TIME_TOLERANCE_MS : Z := 4 * 60 * 60 * 1000.

Record MarketWithPrices : Type := mkMarketWithPrices {
  marketId : string;
  source : Source;
  currentPrice : number;
  creationDate : option Date
}.

Record PriceChanges : Type := mkPriceChanges {
  price1DayAgo : option number;
  price1WeekAgo : option number;
  price1MonthAgo : option number;
  priceChange1Day : option Z;
  priceChange1Week : option Z;
  priceChange1Month : option Z
}.

(** A computation that reads the historical-price collection; it yields
    its value together with the queries it issued, in order. *)
Definition Reads (A : Type) : Type :=
  list HistoricalPrice.IHistoricalPrice -> A * list HistoricalPrice.Filter.

Definition ret {A : Type} (a : A) : Reads A := fun _ => (a, []).

Definition bind {A B : Type} (m : Reads A) (f : A -> Reads B) : Reads B :=
  fun coll =>
    let '(a, q1) := m coll in
    let '(b, q2) := f a coll in
    (b, q1 ++ q2).

Definition findOne_newest (f : HistoricalPrice.Filter)
  : Reads (option HistoricalPrice.IHistoricalPrice) :=
  fun coll => (HistoricalPrice.findOne_newest f coll, [f]).

Notation "x <- m ;; k" := (bind m (fun x => k))
  (at level 61, m at next level, right associativity).

Definition findHistoricalPrice (marketId : string) (source : Source)
  (targetTimestamp : Date) (tolerance : Z) : Reads (option number) :=
  let minTime := targetTimestamp - tolerance in
  let maxTime := targetTimestamp + tolerance in
  historicalPrice <-
    findOne_newest (HistoricalPrice.mkFilter marketId source minTime maxTime) ;;
  ret (option_map HistoricalPrice.price historicalPrice).

Definition marketExistedAt (market : MarketWithPrices) (targetTimestamp : Date)
  : bool :=
  match creationDate market with
  | None => true
  | Some created => created <=? targetTimestamp
  end.

Definition calculatePriceChange (currentPrice : number)
  (priorPrice : option number) : option Z :=
  match priorPrice with
  | None => None
  | Some prior => Some (Math_round (currentPrice - prior)%Q)
  end.

(** [if (marketExistedAt(market, t)) p = await findHistoricalPrice(...)],
    with [p] initialised to [null]. *)
Definition priorPriceAt (market : MarketWithPrices) (target : Date)
  : Reads (option number) :=
  if marketExistedAt market target
  then findHistoricalPrice (marketId market) (source market) target
         TIME_TOLERANCE_MS
  else ret None.

Definition calculatePriceChangesForMarket (market : MarketWithPrices)
  (now : Date) : Reads PriceChanges :=
  let oneDayAgo := now - ONE_DAY_MS in
  let oneWeekAgo := now - ONE_WEEK_MS in
  let oneMonthAgo := now - ONE_MONTH_MS in
  price1DayAgo <- priorPriceAt market oneDayAgo ;;
  price1WeekAgo <- priorPriceAt market oneWeekAgo ;;
  price1MonthAgo <- priorPriceAt market oneMonthAgo ;;
  ret {| price1DayAgo := price1DayAgo;
         price1WeekAgo := price1WeekAgo;
         price1MonthAgo := price1MonthAgo;
         priceChange1Day :=
           calculatePriceChange (currentPrice market) price1DayAgo;
         priceChange1Week :=
           calculatePriceChange (currentPrice market) price1WeekAgo;
         priceChange1Month :=
           calculatePriceChange (currentPrice market) price1MonthAgo |}.

(** The three lookback periods, for statements that range over them. *)
Inductive Lookback : Type := OneDay | OneWeek | OneMonth.

Definition lookback_ms (p : Lookback) : Z :=
  match p with
  | OneDay => ONE_DAY_MS
  | OneWeek => ONE_WEEK_MS
  | OneMonth => ONE_MONTH_MS
  end.

Definition priorPrice (p : Lookback) (c : PriceChanges) : option number :=
  match p with
  | OneDay => price1DayAgo c
  | OneWeek => price1WeekAgo c
  | OneMonth => price1MonthAgo c
  end.

Definition priceChange (p : Lookback) (c : PriceChanges) : option Z :=
  match p with
  | OneDay => priceChange1Day c
  | OneWeek => priceChange1Week c
  | OneMonth => priceChange1Month c
  end.

(** The query a lookup at [target] issues for [market]. *)
Definition lookup_filter (market : MarketWithPrices) (target : Date)
  : HistoricalPrice.Filter :=
  HistoricalPrice.mkFilter (marketId market) (source market)
    (target - TIME_TOLERANCE_MS) (target + TIME_TOLERANCE_MS).

End PriceCalculator.

(** ** lib/services/dataRefresh.ts *)

Module DataRefresh.
Import Kalshi.

Record RefreshResult : Type := mkRefreshResult {
  r_source : Source;
  marketsUpdated : nat;
  marketsAdded : nat;
  errors : nat
}.

Record RefreshSummary : Type := mkRefreshSummary {
  s_kalshi : RefreshResult;
  s_polymarket : RefreshResult;
  s_manifold : RefreshResult;
  totalMarketsUpdated : nat;
  totalMarketsAdded : nat;
  totalErrors : nat;
  s_timestamp : Date
}.

(** The persistent store: the two collections. *)
Record Store : Type := mkStore {
  marketColl : list Market.IMarket;
  historyColl : list HistoricalPrice.IHistoricalPrice
}.

(** Which store operations of one batch fail.  An unordered
    [insertMany] or [bulkWrite] that fails may have written part of
    what it was given: [Some written] is a failure after the documents,
    respectively the operations, whose position in the array satisfies
    [written] were written; [None] is success. *)
Record Faults : Type := mkFaults {
  find_throws : bool;
  insertMany_rejects : option (nat -> bool);
  bulkWrite_throws : option (nat -> bool)
}.

Definition no_faults : Faults := mkFaults false None None.

(** The elements of [l] whose position, counted from [i], satisfies
    [written]. *)
Fixpoint select_from {A : Type} (i : nat) (written : nat -> bool) (l : list A)
  : list A :=
  match l with
  | [] => []
  | x :: l' =>
      if written i then x :: select_from (S i) written l'
      else select_from (S i) written l'
  end.

Definition select {A : Type} (written : nat -> bool) (l : list A) : list A :=
  select_from 0 written l.

Definition BATCH_SIZE : nat := 500.

(** The successive [markets.slice(i, i + size)] of the batch loop. *)
Fixpoint batches_fuel {A : Type} (fuel size : nat) (l : list A) : list (list A) :=
  match fuel with
  | O => []
  | S fuel' =>
      match l with
      | [] => []
      | _ :: _ => firstn size l :: batches_fuel fuel' size (skipn size l)
      end
  end.

Definition batches {A : Type} (size : nat) (l : list A) : list (list A) :=
  batches_fuel (List.length l) size l.

(** [existingMap.get(id)] for
    [existingMap = new Map(existingMarkets.map(m => [m.marketId, m]))]:
    a later entry replaces an earlier one with the same id. *)
Definition existingMap_get (existingMarkets : list Market.IMarket) (id : string)
  : option Market.IMarket :=
  List.find (fun m => String.eqb (Market.marketId m) id) (rev existingMarkets).

(** The stored documents hold finite prices.  A non-finite price,
    which the code writes as it is, has no counterpart in them and is
    recorded as 0; what is stated about written prices is stated for
    finite ones. *)
Definition stored_price (price : double) : number :=
  match price with
  | Finite q => q
  | _ => 0%Q
  end.

Definition marketDoc (market : NormalizedMarket) (now : Date) : Market.MarketDoc :=
  {| Market.d_marketId := marketId market;
     Market.d_source := source market;
     Market.d_marketName := marketName market;
     Market.d_eventName := eventName market;
     Market.d_marketUrl := marketUrl market;
     Market.d_eventUrl := eventUrl market;
     Market.d_description := description market;
     Market.d_creationDate := creationDate market;
     Market.d_resolutionDate := resolutionDate market;
     Market.d_currentPrice := stored_price (currentPrice market);
     Market.d_category := n_category market;
     Market.d_lastUpdated := now |}.

Definition existingMarkets (batch : list NormalizedMarket) (src : Source)
  (coll : list Market.IMarket) : list Market.IMarket :=
  let marketIds := map marketId batch in
  Market.find
    (fun m =>
       existsb (String.eqb (Market.marketId m)) marketIds
       && Source_eqb (Market.source m) src)
    coll.

(** The snapshots the inner loop collects for a batch. *)
Definition historicalSnapshots (batch : list NormalizedMarket)
  (existing : list Market.IMarket) (now : Date)
  : list HistoricalPrice.IHistoricalPrice :=
  flat_map
    (fun market =>
       match existingMap_get existing (marketId market) with
       | Some e =>
           [ {| HistoricalPrice.marketId := Market.marketId e;
                HistoricalPrice.source := Market.source e;
                HistoricalPrice.price := Market.currentPrice e;
                HistoricalPrice.timestamp := now |} ]
       | None => []
       end)
    batch.

(** The upserts the inner loop collects for a batch. *)
Definition bulkOps (batch : list NormalizedMarket) (now : Date)
  : list Market.UpdateOne :=
  map
    (fun market =>
       {| Market.filter_marketId := marketId market;
          Market.filter_source := source market;
          Market.update_set := marketDoc market now;
          Market.upsert := true |})
    batch.

Definition add_errors (n : nat) (r : RefreshResult) : RefreshResult :=
  mkRefreshResult (r_source r) (marketsUpdated r) (marketsAdded r) (errors r + n).

(** One iteration of the batch loop of [processMarkets], [try] and
    [catch] included. *)
Definition processBatch (src : Source) (now : Date) (f : Faults)
  (batch : list NormalizedMarket) (st : Store * RefreshResult)
  : Store * RefreshResult :=
  let '(db, result) := st in
  if find_throws f then (db, add_errors (List.length batch) result)
  else
    let existing := existingMarkets batch src (marketColl db) in
    let snapshots := historicalSnapshots batch existing now in
    let ops := bulkOps batch now in
    let history :=
      match snapshots with
      | [] => historyColl db
      | _ :: _ =>
          match insertMany_rejects f with
          | Some written =>
              HistoricalPrice.insertMany (select written snapshots)
                (historyColl db)
          | None => HistoricalPrice.insertMany snapshots (historyColl db)
          end
      end in
    match ops with
    | [] => (mkStore (marketColl db) history, result)
    | _ :: _ =>
        match bulkWrite_throws f with
        | Some written =>
            (mkStore (fst (Market.bulkWrite (select written ops) (marketColl db)))
               history,
             add_errors (List.length batch) result)
        | None =>
            let '(coll, bulkResult) := Market.bulkWrite ops (marketColl db) in
            (mkStore coll history,
             mkRefreshResult (r_source result)
               (marketsUpdated result + Market.modifiedCount bulkResult)
               (marketsAdded result + Market.upsertedCount bulkResult)
               (errors result))
        end
    end.

Fixpoint processBatches (src : Source) (now : Date) (faults : nat -> Faults)
  (i : nat) (bs : list (list NormalizedMarket)) (st : Store * RefreshResult)
  : Store * RefreshResult :=
  match bs with
  | [] => st
  | batch :: bs' =>
      processBatches src now faults (S i) bs'
        (processBatch src now (faults i) batch st)
  end.

(** [processMarkets]; [faults i] tells which store operations of the
    i-th batch fail. *)
Definition processMarkets (markets : list NormalizedMarket) (src : Source)
  (now : Date) (faults : nat -> Faults) (db : Store) : Store * RefreshResult :=
  let result := mkRefreshResult src 0 0 0 in
  match markets with
  | [] => (db, result)
  | _ :: _ =>
      processBatches src now faults 0 (batches BATCH_SIZE markets) (db, result)
  end.

(** What a refresh meets outside the program: the outcome of
    [dbConnect()], the settled outcome of each adapter's pagination, the
    Manifold group endpoint, and the store faults per source and batch. *)
Record Env : Type := mkEnv {
  dbConnect : Outcome unit;
  kalshiFetched : Outcome (Fetched KalshiMarket);
  polymarketFetched : Outcome (Fetched Polymarket.PolymarketEvent);
  manifoldFetched : Outcome (Fetched Manifold.ManifoldMarket);
  manifoldGroupApi : string -> nat -> Attempt Manifold.ManifoldGroup;
  faults : Source -> nat -> Faults
}.

Definition kalshiMarkets (env : Env) : list NormalizedMarket :=
  catch (fetchKalshiMarkets (kalshiFetched env)) [].

Definition polymarketMarkets (env : Env) : list NormalizedMarket :=
  catch (Polymarket.fetchPolymarketMarkets (polymarketFetched env)) [].

Definition manifoldMarkets (env : Env) : list NormalizedMarket :=
  catch (Manifold.fetchManifoldMarkets (manifoldFetched env) (manifoldGroupApi env)) [].

(** [refreshAllMarkets], started at instant [now] on store [db]: the
    settled outcome of the call and the store it leaves.  The three
    [processMarkets] calls run under [Promise.all] and act on disjoint
    keys; their store operations may interleave, and taking the
    sources one after the other, as is done here, is one of the
    possible runs. *)
Definition refreshAllMarkets (env : Env) (now : Date) (db : Store)
  : Outcome RefreshSummary * Store :=
  match dbConnect env with
  | Rejected => (Rejected, db)
  | Resolved _ =>
      let '(db, kalshiResult) :=
        processMarkets (kalshiMarkets env) kalshi now (faults env kalshi) db in
      let '(db, polymarketResult) :=
        processMarkets (polymarketMarkets env) polymarket now
          (faults env polymarket) db in
      let '(db, manifoldResult) :=
        processMarkets (manifoldMarkets env) manifold now
          (faults env manifold) db in
      (Resolved
         {| s_kalshi := kalshiResult;
            s_polymarket := polymarketResult;
            s_manifold := manifoldResult;
            totalMarketsUpdated :=
              marketsUpdated kalshiResult + marketsUpdated polymarketResult
              + marketsUpdated manifoldResult;
            totalMarketsAdded :=
              marketsAdded kalshiResult + marketsAdded polymarketResult
              + marketsAdded manifoldResult;
            totalErrors :=
              errors kalshiResult + errors polymarketResult
              + errors manifoldResult;
            s_timestamp := now |},
       db)
  end.

End DataRefresh.

(** ** app/api/markets/route.ts *)

Module MarketsRoute.
Import Market.

Inductive Period : Type := P1d | P1w | P1m.

(** [periodParam === '1w' || periodParam === '1m' ? periodParam : '1d'] *)
Definition parsePeriod (periodParam : option string) : Period :=
  match periodParam with
  | Some "1w" => P1w
  | Some "1m" => P1m
  | _ => P1d
  end.

(** [m[getPriceChangeField(period)]] *)
Definition getPriceChangeField (period : Period) (m : IMarket) : option number :=
  match period with
  | P1d => priceChange1Day m
  | P1w => priceChange1Week m
  | P1m => priceChange1Month m
  end.

(** [m[getPriorPriceField(period)]] *)
Definition getPriorPriceField (period : Period) (m : IMarket) : option number :=
  match period with
  | P1d => price1DayAgo m
  | P1w => price1WeekAgo m
  | P1m => price1MonthAgo m
  end.

(** [{ $ne: null }] *)
Definition ne_null {A : Type} (x : option A) : bool :=
  match x with
  | Some _ => true
  | None => false
  end.

(** The first query of the handler. *)
Definition query (period : Period) (m : IMarket) : bool :=
  negb (isExcluded m)
  && ne_null (getPriceChangeField period m)
  && ne_null (getPriorPriceField period m).

(** [Math.abs(m[priceChangeField] as number || 0)] *)
Definition absChange (period : Period) (m : IMarket) : number :=
  Math_abs (or_zero (getPriceChangeField period m)).

(** The comparator [(a, b) => bChange - aChange] does not move [b]
    before [a]. *)
Definition byChange (period : Period) (a b : IMarket) : bool :=
  Qle_bool (absChange period b) (absChange period a).

(** [.sort({ lastUpdated: -1 })] *)
Definition recent_first (a b : IMarket) : bool :=
  lastUpdated b <=? lastUpdated a.

Record Body : Type := mkBody {
  markets : list IMarket;
  period : Period;
  total : nat;
  fallbackMode : bool
}.

(** The handler [GET] on a reachable store holding [coll].  The store
    leaves the order of documents with equal sort keys open, as does
    [find] without a sort; the stable sort of the collection order,
    taken here, is one of the possible answers. *)
Definition GET (periodParam : option string) (coll : list IMarket) : Body :=
  let period := parsePeriod periodParam in
  let markets := find (query period) coll in
  let '(fallbackMode, markets) :=
    match markets with
    | [] =>
        (true,
         firstn 20
           (stable_sort recent_first (find (fun m => negb (isExcluded m)) coll)))
    | _ :: _ => (false, markets)
    end in
  let sortedMarkets :=
    if fallbackMode then markets else stable_sort (byChange period) markets in
  let top20 := firstn 20 sortedMarkets in
  mkBody top20 period (List.length top20) fallbackMode.

End MarketsRoute.

(** ** Vocabulary for the properties of price normalisation *)

Module NormalizationSpec.

(** A raw record of one of the three sources, with what its adapter
    normalises it against (the enclosing event, the fetched groups). *)
Inductive RawRecord : Type :=
| FromKalshi (market : Kalshi.KalshiMarket)
| FromPolymarket (event : Polymarket.PolymarketEvent)
    (market : Polymarket.PolymarketMarket)
| FromManifold (groupMap : Manifold.GroupMap) (market : Manifold.ManifoldMarket).

(** The adapter's normalisation of a record; [None] when the record is
    filtered out. *)
Definition normalizeRecord (r : RawRecord) : option Kalshi.NormalizedMarket :=
  match r with
  | FromKalshi market => Kalshi.normalize market
  | FromPolymarket event market => Polymarket.normalize event market
  | FromManifold groupMap market => Manifold.normalize groupMap market
  end.

(** The price string [getYesPrice] reads: the "Yes" outcome's when it is
    present and non-empty, else the first listed one. *)
Definition chosenPrice (market : Polymarket.PolymarketMarket) : option string :=
  let yesPrice :=
    match
      Polymarket.findIndex (fun o => String.eqb (toLowerCase o) "yes")
        (Polymarket.outcomes market)
    with
    | Some i => nth_error (Polymarket.outcomePrices market) i
    | None => None
    end in
  if truthy yesPrice then yesPrice else hd_error (Polymarket.outcomePrices market).

(** The price the source reports, in the source's own unit: cents for
    Kalshi, a decimal fraction for Polymarket and Manifold; [NaN] when
    the record carries no usable price (Kalshi last price absent;
    Polymarket price string absent, empty or not the text of a number;
    Manifold probability absent or [null]). *)
Definition sourcePrice (r : RawRecord) : double :=
  match r with
  | FromKalshi market =>
      match Kalshi.last_price market with
      | Some p => Finite p
      | None => NaN
      end
  | FromPolymarket _ market =>
      match chosenPrice market with
      | Some s => if truthy (Some s) then Polymarket.parseFloat s else NaN
      | None => NaN
      end
  | FromManifold _ market =>
      match Manifold.probability market with
      | Manifold.ProbabilityOf p => Finite p
      | _ => NaN
      end
  end.

(** The top of the source's price scale. *)
Definition fullScale (r : RawRecord) : number :=
  match r with
  | FromKalshi _ => 100%Q
  | _ => 1%Q
  end.

End NormalizationSpec.

(** ** Vocabulary for the properties of the price-change engine *)

Module PriceCalculatorSpec.
Import PriceCalculator.

(** [h] is a snapshot of [market] at most the tolerance away from
    [target]. *)
Definition in_window (market : MarketWithPrices) (target : Date)
  (h : HistoricalPrice.IHistoricalPrice) : Prop :=
  HistoricalPrice.marketId h = marketId market
  /\ HistoricalPrice.source h = source market
  /\ Z.abs (HistoricalPrice.timestamp h - target) <= TIME_TOLERANCE_MS.

(** [r] is the price of a most recent snapshot of the window, or absent
    when the window holds no snapshot. *)
Definition newest_in_window (market : MarketWithPrices) (target : Date)
  (coll : list HistoricalPrice.IHistoricalPrice) (r : option number) : Prop :=
  match r with
  | Some p =>
      exists h, In h coll /\ in_window market target h
                /\ HistoricalPrice.price h = p
                /\ forall h', In h' coll -> in_window market target h' ->
                              HistoricalPrice.timestamp h' <= HistoricalPrice.timestamp h
  | None => forall h, In h coll -> ~ in_window market target h
  end.

End PriceCalculatorSpec.

(** ** Vocabulary for the properties of the ranking *)

Module RankingSpec.
Import Market MarketsRoute.

(** The [period] parameter that requests a period. *)
Definition period_param (period : Period) : string :=
  match period with
  | P1d => "1d"
  | P1w => "1w"
  | P1m => "1m"
  end.

(** The price change and the prior price of a stored market for a
    period. *)
Definition price_change (period : Period) (m : IMarket) : option number :=
  match period with
  | P1d => priceChange1Day m
  | P1w => priceChange1Week m
  | P1m => priceChange1Month m
  end.

Definition prior_price (period : Period) (m : IMarket) : option number :=
  match period with
  | P1d => price1DayAgo m
  | P1w => price1WeekAgo m
  | P1m => price1MonthAgo m
  end.

(** A market takes part in the ranking of a period. *)
Definition eligible (period : Period) (m : IMarket) : Prop :=
  isExcluded m = false
  /\ price_change period m <> None
  /\ prior_price period m <> None.

(** The same, as a test, and the eligible markets of a collection. *)
Definition is_eligible (period : Period) (m : IMarket) : bool :=
  negb (isExcluded m)
  && match price_change period m, prior_price period m with
     | Some _, Some _ => true
     | _, _ => false
     end.

Definition eligible_markets (period : Period) (coll : list IMarket)
  : list IMarket :=
  filter (is_eligible period) coll.

(** The markets of a collection that are not excluded. *)
Definition listed_markets (coll : list IMarket) : list IMarket :=
  filter (fun m => negb (isExcluded m)) coll.

(** The size of a market's move over a period: the absolute value of
    its price change. *)
Definition magnitude (period : Period) (m : IMarket) : number :=
  match price_change period m with
  | Some change => Qabs change
  | None => 0%Q
  end.

Definition larger_move (period : Period) (a b : IMarket) : Prop :=
  (magnitude period b <= magnitude period a)%Q.

Definition more_recent (a b : IMarket) : Prop :=
  lastUpdated b <= lastUpdated a.

(** [result] is a choice of the [n] first of [candidates] under the
    order [R]: it has [n] elements (all of them when there are fewer),
    is in order, and what it leaves out comes after each of its
    elements. *)
Definition top_of {A : Type} (R : A -> A -> Prop) (n : nat)
  (candidates result : list A) : Prop :=
  List.length result = Nat.min n (List.length candidates)
  /\ StronglySorted R result
  /\ exists rest, Permutation (result ++ rest) candidates
                  /\ forall a b, In a result -> In b rest -> R a b.

End RankingSpec.

(** ** Vocabulary for the properties of a refresh *)

Module RefreshSpec.
Import Market DataRefresh.

(** The unique key of the Market collection. *)
Definition Key : Type := (string * Source)%type.

Definition key_eqb (a b : Key) : bool :=
  String.eqb (fst a) (fst b) && Source_eqb (snd a) (snd b).

Definition key_of (m : Kalshi.NormalizedMarket) : Key :=
  (Kalshi.marketId m, Kalshi.source m).

Definition row_key (m : IMarket) : Key := (marketId m, source m).

Definition snapshot_key (h : HistoricalPrice.IHistoricalPrice) : Key :=
  (HistoricalPrice.marketId h, HistoricalPrice.source h).

(** The documents of a collection with a given key, and the one a
    refresh reads as the existing market (the only one under the unique
    index). *)
Definition rows (coll : list IMarket) (k : Key) : list IMarket :=
  filter (has_key (fst k) (snd k)) coll.

Definition stored (coll : list IMarket) (k : Key) : option IMarket :=
  hd_error (rev (rows coll k)).

(** The snapshots of a market among [l]. *)
Definition snapshots_for (k : Key) (l : list HistoricalPrice.IHistoricalPrice)
  : list HistoricalPrice.IHistoricalPrice :=
  filter (fun h => key_eqb (snapshot_key h) k) l.

(** The snapshot of a stored document, stamped [now]. *)
Definition snapshot (now : Date) (e : IMarket) : HistoricalPrice.IHistoricalPrice :=
  {| HistoricalPrice.marketId := marketId e;
     HistoricalPrice.source := source e;
     HistoricalPrice.price := currentPrice e;
     HistoricalPrice.timestamp := now |}.

(** The fields a refresh is not to touch: prior prices, price changes
    and the exclusion fields. *)
Definition derived (m : IMarket) :=
  (price1DayAgo m, price1WeekAgo m, price1MonthAgo m,
   priceChange1Day m, priceChange1Week m, priceChange1Month m,
   isExcluded m, excludedBy m, excludedAt m).

Definition preserved (m m' : IMarket) : Prop :=
  row_key m' = row_key m /\ derived m' = derived m.

(** A document as an upsert creates it. *)
Definition fresh (m : IMarket) : Prop :=
  derived m = (None, None, None, None, None, None, false, None, None).

(** [coll'] holds the documents of [coll], each in its place with its
    key and untouched fields, followed by newly created documents. *)
Definition extends (coll coll' : list IMarket) : Prop :=
  exists updated added,
    coll' = updated ++ added
    /\ Forall2 preserved coll updated
    /\ Forall fresh added.

(** An operation of a refresh: the [$set] document repeats the key of
    the filter. *)
Definition keyed (op : UpdateOne) : Prop :=
  d_marketId (update_set op) = filter_marketId op
  /\ d_source (update_set op) = filter_source op.

(** The snapshots a refresh records of the document it finds, if any:
    one, unless the identifier is empty and the snapshot fails
    validation. *)
Definition snaps (now : Date) (o : option IMarket)
  : list HistoricalPrice.IHistoricalPrice :=
  match o with
  | Some e => filter HistoricalPrice.valid [snapshot now e]
  | None => []
  end.

(** The dates of a market are valid: its upsert can be cast. *)
Definition valid_dates (m : Kalshi.NormalizedMarket) : bool :=
  valid_or_absent (Kalshi.creationDate m)
  && valid_or_absent (Kalshi.resolutionDate m).

Definition among (k : Key) (l : list Kalshi.NormalizedMarket) : bool :=
  existsb (key_eqb k) (map key_of l).

(** The markets of [l] whose upsert reaches the store. *)
Definition writable (l : list Kalshi.NormalizedMarket)
  : list Kalshi.NormalizedMarket :=
  filter valid_dates l.

(** The operations of a batch that reach the store under the faults
    [f], before casting. *)
Definition applied (f : Faults) (ops : list UpdateOne) : list UpdateOne :=
  if find_throws f then []
  else
    match bulkWrite_throws f with
    | Some written => select written ops
    | None => ops
    end.

(** The snapshots of a batch that reach the store under the faults
    [f], before validation. *)
Definition recorded (f : Faults)
  (snapshots : list HistoricalPrice.IHistoricalPrice)
  : list HistoricalPrice.IHistoricalPrice :=
  if find_throws f then []
  else
    match insertMany_rejects f with
    | Some written => select written snapshots
    | None => snapshots
    end.

(** The number of markets of [l] with the key [k]. *)
Definition occurrences (k : Key) (l : list Kalshi.NormalizedMarket) : nat :=
  List.length (filter (fun m => key_eqb (key_of m) k) l).

(** The effect on the store of processing the markets [l] at instant
    [now] when the store operations succeed: the snapshot of every
    processed market that was stored, nothing for the others; the
    documents of the keys without a writable market as they were; a
    document for every processed market whose dates are valid. *)
Record processes (now : Date) (l : list Kalshi.NormalizedMarket)
  (db db' : Store) : Prop := mkProcesses {
  p_history :
    exists appended,
      historyColl db' = historyColl db ++ appended
      /\ forall k, snapshots_for k appended =
                   if among k l then snaps now (stored (marketColl db) k) else [];
  p_frame :
    forall k, among k (writable l) = false ->
              rows (marketColl db') k = rows (marketColl db) k;
  p_extends : extends (marketColl db) (marketColl db');
  p_created :
    forall m, In m l -> valid_dates m = true ->
              rows (marketColl db') (key_of m) <> []
}.

(** The markets a refresh processes, and a refresh whose store
    operations all succeed. *)
Definition processed (env : Env) : list Kalshi.NormalizedMarket :=
  kalshiMarkets env ++ polymarketMarkets env ++ manifoldMarkets env.

Definition fault_free_batches (faults : nat -> Faults) : Prop :=
  forall i, faults i = no_faults.

Definition fault_free (env : Env) : Prop :=
  dbConnect env = Resolved tt /\ forall s, fault_free_batches (faults env s).

(** The markets a source yielded and its part of the summary. *)
Definition yielded (env : Env) (src : Source) : list Kalshi.NormalizedMarket :=
  match src with
  | kalshi => kalshiMarkets env
  | polymarket => polymarketMarkets env
  | manifold => manifoldMarkets env
  end.

Definition result_of (summary : RefreshSummary) (src : Source) : RefreshResult :=
  match src with
  | kalshi => s_kalshi summary
  | polymarket => s_polymarket summary
  | manifold => s_manifold summary
  end.

(** What a bulk write, and a source's processing, report as written. *)
Definition counted (r : BulkWriteResult) : nat :=
  (modifiedCount r + upsertedCount r)%nat.

Definition written (r : RefreshResult) : nat :=
  (marketsUpdated r + marketsAdded r)%nat.

(** The same surroundings with another outcome of the Polymarket
    fetch. *)
Definition with_polymarket (env : Env)
  (fetched : Outcome (Fetched Polymarket.PolymarketEvent)) : Env :=
  mkEnv (dbConnect env) (kalshiFetched env) fetched (manifoldFetched env)
    (manifoldGroupApi env) (faults env).

(** The summary assembled from the three results. *)
Definition summary_of (now : Date) (k p m : RefreshResult) : RefreshSummary :=
  {| s_kalshi := k;
     s_polymarket := p;
     s_manifold := m;
     totalMarketsUpdated :=
       (marketsUpdated k + marketsUpdated p + marketsUpdated m)%nat;
     totalMarketsAdded := (marketsAdded k + marketsAdded p + marketsAdded m)%nat;
     totalErrors := (errors k + errors p + errors m)%nat;
     s_timestamp := now |}.

(** The summary of a refresh that processed nothing. *)
Definition zero_summary (now : Date) : RefreshSummary :=
  mkRefreshSummary (mkRefreshResult kalshi 0 0 0)
    (mkRefreshResult polymarket 0 0 0) (mkRefreshResult manifold 0 0 0)
    0 0 0 now.

(** Every stored document was last updated before [now]. *)
Definition older_than (now : Date) (db : Store) : Prop :=
  Forall (fun e => lastUpdated e < now) (marketColl db).

(** The result of awaiting, when the promise resolved. *)
Definition resolved {A : Type} (o : Outcome A) : option A :=
  match o with
  | Resolved a => Some a
  | Rejected => None
  end.

End RefreshSpec.

(** ** Sample data *)

Module Samples.

Definition hour : Z := 60 * 60 * 1000.

(** A reference instant: 40 days after the epoch. *)
Definition now0 : Date := 40 * PriceCalculator.ONE_DAY_MS.

Definition market70 : PriceCalculator.MarketWithPrices :=
  PriceCalculator.mkMarketWithPrices "M-1" kalshi 70%Q None.

(** A snapshot of 38 taken one hour before the one-day mark. *)
Definition history38 : list HistoricalPrice.IHistoricalPrice :=
  [ HistoricalPrice.mkIHistoricalPrice "M-1" kalshi 38%Q
      (now0 - PriceCalculator.ONE_DAY_MS - hour) ].

(** Two snapshots in the window of the one-day mark: 10 a minute before
    the mark, 20 three hours after it. *)
Definition history_two : list HistoricalPrice.IHistoricalPrice :=
  [ HistoricalPrice.mkIHistoricalPrice "M-1" kalshi 10%Q
      (now0 - PriceCalculator.ONE_DAY_MS - 60000);
    HistoricalPrice.mkIHistoricalPrice "M-1" kalshi 20%Q
      (now0 - PriceCalculator.ONE_DAY_MS + 3 * hour) ].

(** A market created two days before the reference instant, and a
    history with a snapshot at the one-week and at the one-month mark. *)
Definition market_young : PriceCalculator.MarketWithPrices :=
  PriceCalculator.mkMarketWithPrices "M-1" kalshi 70%Q
    (Some (now0 - 2 * PriceCalculator.ONE_DAY_MS)).

Definition history_old : list HistoricalPrice.IHistoricalPrice :=
  [ HistoricalPrice.mkIHistoricalPrice "M-1" kalshi 55%Q
      (now0 - PriceCalculator.ONE_WEEK_MS);
    HistoricalPrice.mkIHistoricalPrice "M-1" kalshi 60%Q
      (now0 - PriceCalculator.ONE_MONTH_MS) ].

(** Raw records whose price lies above the source's scale. *)
Definition kalshi150 : Kalshi.KalshiMarket :=
  Kalshi.mkKalshiMarket "KXRATE-26" "KXRATE" "Will the rate rise?" None None
    (Some 150%Q) None None None.

Definition polymarket150 : Polymarket.PolymarketMarket :=
  Polymarket.mkPolymarketMarket "0xabc" "Will the rate rise?" None None
    ["Yes"; "No"] ["1.5"; "0.5"] None None true false true.

Definition event0 : Polymarket.PolymarketEvent :=
  Polymarket.mkPolymarketEvent "rates" "Rates" None None [polymarket150].

(** A Polymarket market whose "Yes" price reads [Infinity]. *)
Definition polymarket_infinity : Polymarket.PolymarketMarket :=
  Polymarket.mkPolymarketMarket "0xabc" "Will the rate rise?" None None
    ["Yes"; "No"] ["Infinity"; "0.5"] None None true false true.

Definition event_infinity : Polymarket.PolymarketEvent :=
  Polymarket.mkPolymarketEvent "rates" "Rates" None None [polymarket_infinity].

Definition manifold150 : Manifold.ManifoldMarket :=
  Manifold.mkManifoldMarket "mf1" 1 None "Will the rate rise?"
    "https://manifold.markets/u/rate" Manifold.BINARY
    (Manifold.ProbabilityOf 1.5%Q) false None
    None None.

(** A Kalshi record within the scale, and what it normalises to. *)
Definition kalshi42 : Kalshi.KalshiMarket :=
  Kalshi.mkKalshiMarket "KXRATE-26" "KXRATE" "Will the rate rise?" None None
    (Some 42%Q) None None None.

Definition normalized42 : Kalshi.NormalizedMarket :=
  Kalshi.mkNormalizedMarket "KXRATE-26" kalshi "Will the rate rise?" "KXRATE"
    "https://kalshi.com/markets/KXRATE-26"
    (Some "https://kalshi.com/events/KXRATE") None None None (Finite 42%Q) None.

(** A service that answers every Kalshi request with an empty page and
    a further cursor. *)
Definition kalshi_empty_pages : Api Kalshi.KalshiMarketsResponse :=
  fun _ _ => Response 200 (Kalshi.mkKalshiMarketsResponse [] "next").

(** A resolved Manifold market, and a service that answers every
    request with a full page of such markets. *)
Definition manifold_resolved : Manifold.ManifoldMarket :=
  Manifold.mkManifoldMarket "old" 1 None "Did it happen?"
    "https://manifold.markets/u/old" Manifold.BINARY
    (Manifold.ProbabilityOf 1%Q) true None
    None None.

Definition manifold_resolved_pages : Api (list Manifold.ManifoldMarket) :=
  fun _ _ => Response 200 (repeat manifold_resolved Manifold.limit).

(** *** Refreshes *)

Definition polymarket65 : Polymarket.PolymarketMarket :=
  Polymarket.mkPolymarketMarket "0xabc" "Will the rate rise?" None None
    ["Yes"; "No"] ["0.65"; "0.35"] None None true false true.

Definition event65 : Polymarket.PolymarketEvent :=
  Polymarket.mkPolymarketEvent "rates" "Rates" None None [polymarket65].

Definition manifold66 : Manifold.ManifoldMarket :=
  Manifold.mkManifoldMarket "mf1" 1 None "Will the rate rise?"
    "https://manifold.markets/u/rate" Manifold.BINARY
    (Manifold.ProbabilityOf 0.655%Q) false None
    None None.

Definition no_groups : string -> nat -> Attempt Manifold.ManifoldGroup :=
  fun _ _ => NetworkError.

(** A store that holds the Kalshi market at 40, updated a day before
    the reference instant, and no history. *)
Definition row40 : Market.IMarket :=
  Market.mkIMarket "KXRATE-26" kalshi "Will the rate rise?" "KXRATE"
    "https://kalshi.com/markets/KXRATE-26"
    (Some "https://kalshi.com/events/KXRATE") None None None 40%Q
    None None None None None None None false None None
    (now0 - PriceCalculator.ONE_DAY_MS).

Definition store40 : DataRefresh.Store := DataRefresh.mkStore [row40] [].

Definition empty_store : DataRefresh.Store := DataRefresh.mkStore [] [].

Definition all_succeed : Source -> nat -> DataRefresh.Faults :=
  fun _ _ => DataRefresh.no_faults.

(** Kalshi yields the stored market, Polymarket a market not seen
    before, Manifold nothing. *)
Definition env_two : DataRefresh.Env :=
  DataRefresh.mkEnv (Resolved tt)
    (Resolved (mkFetched [kalshi42] false))
    (Resolved (mkFetched [event65] false))
    (Resolved (mkFetched [] false))
    no_groups all_succeed.

(** Kalshi yields the stored market twice. *)
Definition env_twice : DataRefresh.Env :=
  DataRefresh.mkEnv (Resolved tt)
    (Resolved (mkFetched [kalshi42; kalshi42] false))
    (Resolved (mkFetched [] false))
    (Resolved (mkFetched [] false))
    no_groups all_succeed.

(** Kalshi yields a market, 499 copies of another one, and the first
    market again: 501 records, the last one in a second batch. *)
Definition kalshi_other : Kalshi.KalshiMarket :=
  Kalshi.mkKalshiMarket "KXOTHER" "KXO" "Will it rain?" None None (Some 10%Q)
    None None None.

Definition env_second_batch : DataRefresh.Env :=
  DataRefresh.mkEnv (Resolved tt)
    (Resolved
       (mkFetched (kalshi42 :: repeat kalshi_other 499 ++ [kalshi42]) false))
    (Resolved (mkFetched [] false))
    (Resolved (mkFetched [] false))
    no_groups all_succeed.

(** Kalshi yields the stored market; Manifold yields a market not seen
    before whose close time lies one millisecond beyond the range of
    dates. *)
Definition manifold_late : Manifold.ManifoldMarket :=
  Manifold.mkManifoldMarket "mf2" 1 (Some 8640000000000001)
    "Will the rate rise?" "https://manifold.markets/u/late" Manifold.BINARY
    (Manifold.ProbabilityOf 0.5%Q) false None None None.

Definition env_late : DataRefresh.Env :=
  DataRefresh.mkEnv (Resolved tt)
    (Resolved (mkFetched [kalshi42] false))
    (Resolved (mkFetched [] false))
    (Resolved (mkFetched [manifold_late] false))
    no_groups all_succeed.

(** A Kalshi market whose ticker is the empty string, and a store that
    holds it. *)
Definition kalshi_blank : Kalshi.KalshiMarket :=
  Kalshi.mkKalshiMarket "" "KXO" "Will it rain?" None None (Some 10%Q)
    None None None.

Definition row_blank : Market.IMarket :=
  Market.mkIMarket "" kalshi "Will it rain?" "KXO"
    "https://kalshi.com/markets/" (Some "https://kalshi.com/events/KXO")
    None None None 40%Q None None None None None None None false None None
    (now0 - PriceCalculator.ONE_DAY_MS).

Definition store_blank : DataRefresh.Store := DataRefresh.mkStore [row_blank] [].

Definition env_blank : DataRefresh.Env :=
  DataRefresh.mkEnv (Resolved tt)
    (Resolved (mkFetched [kalshi_blank] false))
    (Resolved (mkFetched [] false))
    (Resolved (mkFetched [] false))
    no_groups all_succeed.

(** The Polymarket fetch throws; Kalshi and Manifold yield a market
    each. *)
Definition env_polymarket_down : DataRefresh.Env :=
  DataRefresh.mkEnv (Resolved tt)
    (Resolved (mkFetched [kalshi42] false))
    Rejected
    (Resolved (mkFetched [manifold66] false))
    no_groups all_succeed.

(** The Polymarket fetch throws; Kalshi yields a market and Manifold
    only the market whose close time is out of range. *)
Definition env_polymarket_down_late : DataRefresh.Env :=
  DataRefresh.mkEnv (Resolved tt)
    (Resolved (mkFetched [kalshi42] false))
    Rejected
    (Resolved (mkFetched [manifold_late] false))
    no_groups all_succeed.

(** The same, with the store connection failing. *)
Definition env_no_connection : DataRefresh.Env :=
  DataRefresh.mkEnv Rejected
    (Resolved (mkFetched [kalshi42] false))
    Rejected
    (Resolved (mkFetched [manifold66] false))
    no_groups all_succeed.

(** The same, with every [find] of the store throwing. *)
Definition find_fails : Source -> nat -> DataRefresh.Faults :=
  fun _ _ => DataRefresh.mkFaults true None None.

Definition env_polymarket_down_find_fails : DataRefresh.Env :=
  DataRefresh.mkEnv (Resolved tt)
    (Resolved (mkFetched [kalshi42] false))
    Rejected
    (Resolved (mkFetched [manifold66] false))
    no_groups find_fails.

Definition env_two_find_fails : DataRefresh.Env :=
  DataRefresh.mkEnv (Resolved tt)
    (Resolved (mkFetched [kalshi42] false))
    (Resolved (mkFetched [event65] false))
    (Resolved (mkFetched [] false))
    no_groups find_fails.

(** Every [bulkWrite] throws after the upsert of the first market of
    its batch was carried out. *)
Definition bulkWrite_fails : Source -> nat -> DataRefresh.Faults :=
  fun _ _ => DataRefresh.mkFaults false None (Some (fun i => Nat.eqb i 0)).

Definition env_two_bulkWrite_fails : DataRefresh.Env :=
  DataRefresh.mkEnv (Resolved tt)
    (Resolved (mkFetched [kalshi42] false))
    (Resolved (mkFetched [event65] false))
    (Resolved (mkFetched [] false))
    no_groups bulkWrite_fails.

(** A store that already holds the Kalshi market exactly as a refresh
    at the reference instant writes it. *)
Definition row42_now : Market.IMarket :=
  Market.mkIMarket "KXRATE-26" kalshi "Will the rate rise?" "KXRATE"
    "https://kalshi.com/markets/KXRATE-26"
    (Some "https://kalshi.com/events/KXRATE") None None None 42%Q
    None None None None None None None false None None now0.

Definition store42_now : DataRefresh.Store := DataRefresh.mkStore [row42_now] [].

(** Every fetch throws. *)
Definition env_all_down : DataRefresh.Env :=
  DataRefresh.mkEnv (Resolved tt) Rejected Rejected Rejected no_groups
    all_succeed.

End Samples.

From Stdlib Require Import Qminmax.

(** ** Back-off delays (lib/api/kalshi.ts, polymarket.ts, manifold.ts)

    The three adapters carry the same [calculateBackoffDelay] and the
    same sleeps in [fetchWithRetry].  [Math.random()] is a parameter
    [random], a number with [0 <= random < 1]. *)

Module Backoff.


(** [Math.pow(2, attempt)] *)
Definition pow2 (attempt : nat) : number := inject_Z (2 ^ Z.of_nat attempt).




(** An attempt after which [fetchWithRetry] tries again: a thrown fault,
    a 429 or a 5xx response. *)
Definition retried {B : Type} (a : Attempt B) : bool :=
  match a with
  | NetworkError => true
  | Response status _ => (status =? 429) || (500 <=? status)
  end.


End Backoff.

(** ** Vocabulary for the properties of pagination *)

Module PaginationSpec.

(** The n-th request of a loop got a page: [fetchWithRetry] resolved
    with an [ok] status. *)
Definition page {B : Type} (api : Api B) (request : nat) : option B :=
  match fetchWithRetry (api request) with
  | Resolved (status, body) => if ok status then Some body else None
  | Rejected => None
  end.

(** The markets of the n-th Kalshi page (none when the request
    failed). *)
Definition kalshi_page_markets (api : Api Kalshi.KalshiMarketsResponse)
  (request : nat) : list Kalshi.KalshiMarket :=
  match page api request with
  | Some data => Kalshi.markets data
  | None => []
  end.

(** The records of the n-th page of a service that answers with
    arrays (none when the request failed). *)
Definition page_items {A : Type} (api : Api (list A)) (request : nat) : list A :=
  match page api request with
  | Some records => records
  | None => []
  end.

(** The markets [fetchAllManifoldMarkets] keeps: unresolved, binary,
    and with a [probability] key (whose value may be [null]). *)
Definition manifold_active (m : Manifold.ManifoldMarket) : bool :=
  negb (Manifold.isResolved m) && Manifold.isBinary (Manifold.outcomeType m)
  && match Manifold.probability m with
     | Manifold.ProbabilityUndefined => false
     | _ => true
     end.

End PaginationSpec.

(** ** Further sample data *)

Module MoreSamples.

(** A Kalshi service whose every page carries one market and no
    cursor. *)
Definition kalshi_single_page : Api Kalshi.KalshiMarketsResponse :=
  fun _ _ => Response 200 (Kalshi.mkKalshiMarketsResponse [Samples.kalshi42] "").

(** A Manifold service whose every page is full of active binary
    markets. *)
Definition manifold_full_pages : Api (list Manifold.ManifoldMarket) :=
  fun _ _ => Response 200 (repeat Samples.manifold66 Manifold.limit).

(** A Kalshi market on an allowed topic, with a description and a
    category that mention sports; and the same market later, renamed
    and without description and category. *)
Definition kalshi_ai : Kalshi.KalshiMarket :=
  Kalshi.mkKalshiMarket "KXODDS" "KXO" "AI odds" None None (Some 42%Q)
    (Some "NBA finals") None (Some "Sports").

Definition kalshi_odds : Kalshi.KalshiMarket :=
  Kalshi.mkKalshiMarket "KXODDS" "KXO" "Odds" None None (Some 42%Q)
    None None None.

Definition env_ai : DataRefresh.Env :=
  DataRefresh.mkEnv (Resolved tt)
    (Resolved (mkFetched [kalshi_ai] false))
    (Resolved (mkFetched [] false))
    (Resolved (mkFetched [] false))
    Samples.no_groups Samples.all_succeed.

Definition env_odds : DataRefresh.Env :=
  DataRefresh.mkEnv (Resolved tt)
    (Resolved (mkFetched [kalshi_odds] false))
    (Resolved (mkFetched [] false))
    (Resolved (mkFetched [] false))
    Samples.no_groups Samples.all_succeed.

End MoreSamples.

(** ** Vocabulary for the properties of the adapters *)

Module AdapterSpec.
Import Kalshi.

(** The classifier applied to a normalised market's own name,
    description and category. *)
Definition excluded (m : NormalizedMarket) : bool :=
  Filters.shouldExcludeMarket (marketName m) (or_empty (description m))
    (n_category m).

(** The raw records a pagination resolved to; none when it threw. *)
Definition fetched_items {A : Type} (o : Outcome (Fetched A)) : list A :=
  match o with
  | Resolved f => items f
  | Rejected => []
  end.

(** The identifiers of the raw records of a refresh, per source. *)
Definition kalshi_ids (env : DataRefresh.Env) : list string :=
  map ticker (fetched_items (DataRefresh.kalshiFetched env)).

Definition polymarket_ids (env : DataRefresh.Env) : list string :=
  map Polymarket.conditionId
    (flat_map Polymarket.e_markets
       (fetched_items (DataRefresh.polymarketFetched env))).

Definition manifold_ids (env : DataRefresh.Env) : list string :=
  map Manifold.id (fetched_items (DataRefresh.manifoldFetched env)).

End AdapterSpec.

(** ** lib/services/priceCalculator.ts: [calculatePriceChanges]

    The markets are taken ten at a time; the markets of a batch are
    computed under [Promise.all], which resolves to their results in
    the order of the batch.  The lookups of a batch interleave, so only
    the values are kept here, as a function of the history read. *)

Module PriceCalculatorBatch.
Import PriceCalculator.

(** [{ ...market, ...priceChanges }] *)
Record MarketWithPriceChanges : Type := mkMarketWithPriceChanges {
  mc_market : MarketWithPrices;
  mc_changes : PriceChanges
}.

Definition BATCH_SIZE : nat := 10.

Definition withPriceChanges (now : Date)
  (coll : list HistoricalPrice.IHistoricalPrice) (market : MarketWithPrices)
  : MarketWithPriceChanges :=
  mkMarketWithPriceChanges market
    (fst (calculatePriceChangesForMarket market now coll)).

Definition calculatePriceChanges (markets : list MarketWithPrices) (now : Date)
  (coll : list HistoricalPrice.IHistoricalPrice) : list MarketWithPriceChanges :=
  fold_left
    (fun results batch => results ++ map (withPriceChanges now coll) batch)
    (DataRefresh.batches BATCH_SIZE markets) [].

(** A snapshot one of the lookups of [market] at [now] can return: it
    has the market's identifier and source and lies within the tolerance
    of a lookback instant at which the market existed. *)
Definition read_by (market : MarketWithPrices) (now : Date)
  (h : HistoricalPrice.IHistoricalPrice) : bool :=
  existsb
    (fun p =>
       marketExistedAt market (now - lookback_ms p)
       && HistoricalPrice.matches (lookup_filter market (now - lookback_ms p)) h)
    [OneDay; OneWeek; OneMonth].

End PriceCalculatorBatch.

(** ** Vocabulary for further properties of a refresh *)

Module RefreshMoreSpec.
Import Market DataRefresh RefreshSpec.

(** The document an upsert leaves under its key, given the document it
    finds. *)
Definition upserted (op : UpdateOne) (old : option IMarket) : IMarket :=
  match old with
  | Some e => apply_set (update_set op) e
  | None => inserted (filter_marketId op) (filter_source op) (update_set op)
  end.

(** An optional field after a write: the value the market carries,
    else the value stored before (none when there was no document). *)
Definition written_field {A : Type} (new : option A) (old : option IMarket)
  (field : IMarket -> option A) : option A :=
  match new with
  | Some _ => new
  | None =>
      match old with
      | Some e => field e
      | None => None
      end
  end.

(** [row] is what writing the market [m] at [now] makes of the document
    [old] found under its key: the required fields and the optional
    fields the market carries are the market's, the price when it is
    finite; the optional fields the market lacks and the fields a
    refresh does not set are those of [old]. *)
Definition written_as (m : Kalshi.NormalizedMarket) (now : Date)
  (old : option IMarket) (row : IMarket) : Prop :=
  marketId row = Kalshi.marketId m
  /\ source row = Kalshi.source m
  /\ marketName row = Kalshi.marketName m
  /\ eventName row = Kalshi.eventName m
  /\ marketUrl row = Kalshi.marketUrl m
  /\ (forall price, Kalshi.currentPrice m = Finite price -> currentPrice row = price)
  /\ lastUpdated row = now
  /\ eventUrl row = written_field (Kalshi.eventUrl m) old eventUrl
  /\ description row = written_field (Kalshi.description m) old description
  /\ creationDate row = written_field (Kalshi.creationDate m) old creationDate
  /\ resolutionDate row = written_field (Kalshi.resolutionDate m) old resolutionDate
  /\ category row = written_field (Kalshi.n_category m) old category
  /\ derived row
     = match old with
       | Some e => derived e
       | None => (None, None, None, None, None, None, false, None, None)
       end.

(** The first document of a collection with a given key: the one an
    [updateOne] with that key acts on. *)
Definition first_row (coll : list IMarket) (k : Key) : option IMarket :=
  hd_error (rows coll k).

(** The counts of a result taken together. *)
Definition accounted (r : RefreshResult) : nat :=
  (marketsUpdated r + marketsAdded r + errors r)%nat.

(** The store after a sequence of refreshes, each with its surroundings
    and the instant at which it starts. *)
Definition refreshes (runs : list (Env * Date)) (db : Store) : Store :=
  fold_left (fun db run => snd (refreshAllMarkets (fst run) (snd run) db)) runs db.


End RefreshMoreSpec.

(** ** app/api/refresh/route.ts and the scheduled refresh function *)

Module RefreshRoute.
Import DataRefresh.

Inductive Json : Type :=
| Counts (marketsUpdated marketsAdded errors : nat) (timestamp : Date)
    (kalshi polymarket manifold : RefreshResult)
| Failure (error : string).

Record Response : Type := mkResponse {
  status : Z;
  body : Json
}.

(** The handler [POST]: the response and the store it leaves. *)
Definition POST (env : Env) (now : Date) (db : Store) : Response * Store :=
  match refreshAllMarkets env now db with
  | (Resolved summary, db') =>
      (mkResponse 200
         (Counts (totalMarketsUpdated summary) (totalMarketsAdded summary)
            (totalErrors summary) (s_timestamp summary) (s_kalshi summary)
            (s_polymarket summary) (s_manifold summary)),
       db')
  | (Rejected, db') =>
      (mkResponse 500 (Failure "Failed to refresh market data"), db')
  end.

(** The scheduled function: the status of its response, the [success]
    flag and the summary of its body, and the store it leaves. *)
Record Scheduled : Type := mkScheduled {
  sc_status : Z;
  success : bool;
  sc_summary : option RefreshSummary
}.

Definition handler (env : Env) (now : Date) (db : Store) : Scheduled * Store :=
  match refreshAllMarkets env now db with
  | (Resolved summary, db') => (mkScheduled 200 true (Some summary), db')
  | (Rejected, db') => (mkScheduled 500 false None, db')
  end.

End RefreshRoute.

(** ** Vocabulary for the faults of a refresh *)

Module FaultSpec.
Import Market DataRefresh RefreshSpec.

(** The same surroundings with other store faults. *)
Definition with_faults (env : Env) (f : Source -> nat -> Faults) : Env :=
  mkEnv (dbConnect env) (kalshiFetched env) (polymarketFetched env)
    (manifoldFetched env) (manifoldGroupApi env) f.

(** The faults of [env] with every snapshot insert succeeding. *)
Definition snapshots_succeed (env : Env) : Source -> nat -> Faults :=
  fun s i =>
    mkFaults (find_throws (faults env s i)) None (bulkWrite_throws (faults env s i)).

(** A batch whose [try] block throws: its [find] or its [bulkWrite]
    fails. *)
Definition batch_throws (f : Faults) : bool :=
  find_throws f
  || match bulkWrite_throws f with
     | Some _ => true
     | None => false
     end.

(** A processed market has no document yet. *)
Definition is_new (coll : list IMarket) (m : Kalshi.NormalizedMarket) : bool :=
  match rows coll (key_of m) with
  | [] => true
  | _ :: _ => false
  end.

(** A processed market of which a snapshot is recorded: it has a
    document and its identifier is not empty. *)
Definition snapshotted (coll : list IMarket) (m : Kalshi.NormalizedMarket)
  : bool :=
  negb (is_new coll m) && negb (String.eqb (Kalshi.marketId m) "").

(** What processing [l] at [now] does to the store and the counts when
    the store operations succeed, the keys of [l] are distinct and the
    documents of [l] are older than [now]. *)
Definition counts (now : Date) (l : list Kalshi.NormalizedMarket)
  (st st' : Store * RefreshResult) : Prop :=
  (forall k, among k (writable l) = false ->
             rows (marketColl (fst st')) k = rows (marketColl (fst st)) k)
  /\ (NoDup (map key_of l) ->
      (forall m, In m l ->
         Forall (fun e => lastUpdated e <> now)
           (rows (marketColl (fst st)) (key_of m))) ->
      marketsAdded (snd st')
      = (marketsAdded (snd st)
         + List.length (filter (is_new (marketColl (fst st))) (writable l)))%nat
      /\ marketsUpdated (snd st')
         = (marketsUpdated (snd st)
            + List.length
                (filter (fun m => negb (is_new (marketColl (fst st)) m))
                   (writable l)))%nat
      /\ errors (snd st') = errors (snd st)
      /\ List.length (historyColl (fst st'))
         = (List.length (historyColl (fst st))
            + List.length (filter (snapshotted (marketColl (fst st))) l))%nat).

End FaultSpec.

(** ** Vocabulary for the letter case of the filters *)

Module CaseSpec.
Import RegExp.

(** The character classes of a pattern do not tell a character from its
    image under [g]. *)
Fixpoint case_blind (g : ascii -> ascii) (r : re) : Prop :=
  match r with
  | Eps => True
  | Cls p => forall c, p (g c) = p c
  | Seq a b => case_blind g a /\ case_blind g b
  | Alt a b => case_blind g a /\ case_blind g b
  | Star a => case_blind g a
  | WordB => True
  end.

(** A test on texts that gives the same answer on a text, on its upper
    case and on its lower case. *)
Definition case_insensitive (f : string -> bool) : Prop :=
  forall text, f (toUpperCase text) = f text /\ f (toLowerCase text) = f text.

End CaseSpec.

(** ** Vocabulary for the content of the store *)

Module StoreSpec.
Import Market.

(** The classifier applied to a stored document's own name, description
    and category. *)
Definition stored_excluded (row : IMarket) : bool :=
  Filters.shouldExcludeMarket (marketName row) (or_empty (description row))
    (category row).

(** A market that carries a description and a category: writing it
    replaces all that the classifier reads of the document. *)
Definition described (m : Kalshi.NormalizedMarket) : bool :=
  match Kalshi.description m, Kalshi.n_category m with
  | Some _, Some _ => true
  | _, _ => false
  end.

(** An operation that writes a described market that passes the
    filter. *)
Definition writes_passing (op : UpdateOne) : Prop :=
  exists m now,
    update_set op = DataRefresh.marketDoc m now
    /\ AdapterSpec.excluded m = false /\ described m = true.

(** Every market processed by the refreshes [runs] carries a
    description and a category. *)
Definition all_described (runs : list (DataRefresh.Env * Date)) : Prop :=
  Forall
    (fun run => Forall (fun m => described m = true) (RefreshSpec.processed (fst run)))
    runs.

End StoreSpec.

(* ===================================================================== *)
(** * Part II: properties                                                 *)
(* ===================================================================== *)

Unset Implicit Arguments.

(** ** Facts about stable sorting *)

Section StableSortFacts.
Variable A : Type.
Variable before : A -> A -> bool.

Lemma insert_sorted_perm x l : Permutation (x :: l) (insert_sorted before x l).
Proof.
  induction l as [|y l IH]; simpl; [reflexivity|].
  destruct (before x y); [reflexivity|].
  rewrite perm_swap. now apply perm_skip.
Qed.

Lemma stable_sort_perm l : Permutation l (stable_sort before l).
Proof.
  induction l as [|x l IH]; simpl; [constructor|].
  rewrite <- insert_sorted_perm. now apply perm_skip.
Qed.

Lemma stable_sort_In x l : In x (stable_sort before l) <-> In x l.
Proof.
  split; intro H.
  - eapply Permutation_in; [symmetry; apply stable_sort_perm | exact H].
  - eapply Permutation_in; [apply stable_sort_perm | exact H].
Qed.

Lemma stable_sort_length l :
  List.length (stable_sort before l) = List.length l.
Proof. symmetry. apply Permutation_length, stable_sort_perm. Qed.

Hypothesis before_total : forall x y, before x y = true \/ before y x = true.
Hypothesis before_trans :
  forall x y z, before x y = true -> before y z = true -> before x z = true.

Lemma insert_sorted_sorted x l :
  StronglySorted (fun a b => before a b = true) l ->
  StronglySorted (fun a b => before a b = true) (insert_sorted before x l).
Proof.
  induction 1 as [|y l Hs IH Hy]; simpl.
  - repeat constructor.
  - destruct (before x y) eqn:E.
    + constructor; [constructor; assumption|].
      constructor; [exact E|].
      rewrite Forall_forall in *. intros z Hz.
      eapply before_trans; [exact E | now apply Hy].
    + constructor; [exact IH|].
      rewrite Forall_forall in *. intros z Hz.
      apply (Permutation_in _ (Permutation_sym (insert_sorted_perm x l))) in Hz.
      destruct Hz as [<- | Hz]; [|now apply Hy].
      destruct (before_total x y) as [C | C]; congruence.
Qed.

Lemma stable_sort_sorted l :
  StronglySorted (fun a b => before a b = true) (stable_sort before l).
Proof.
  induction l as [|x l IH]; simpl; [constructor|].
  now apply insert_sorted_sorted.
Qed.

(** The head of the sorted list comes before every element. *)
Lemma stable_sort_head h l :
  hd_error (stable_sort before l) = Some h ->
  In h l /\ forall x, In x l -> before h x = true.
Proof.
  intro H. pose proof (stable_sort_sorted l) as Hs.
  destruct (stable_sort before l) as [|y t] eqn:E; [discriminate|].
  injection H as ->.
  assert (Hin : forall x, In x l <-> In x (h :: t)).
  { intro x. rewrite <- E. symmetry. apply stable_sort_In. }
  split; [apply Hin; now left|].
  intros x Hx. apply Hin in Hx. destruct Hx as [<- | Hx].
  - destruct (before_total h h); assumption.
  - inversion Hs as [|? ? _ Hall]; subst.
    rewrite Forall_forall in Hall. now apply Hall.
Qed.

End StableSortFacts.

Lemma stable_sort_none {A : Type} (before : A -> A -> bool) l :
  hd_error (stable_sort before l) = None -> l = [].
Proof.
  intro H. apply length_zero_iff_nil.
  rewrite <- (stable_sort_length _ before).
  destruct (stable_sort before l); [reflexivity | discriminate].
Qed.

(** A prefix of a sorted list is sorted. *)
Lemma StronglySorted_firstn {A : Type} (R : A -> A -> Prop) n l :
  StronglySorted R l -> StronglySorted R (firstn n l).
Proof.
  revert l. induction n as [|n IH]; intros l H; simpl; [constructor|].
  destruct l as [|x l]; [constructor|].
  inversion H as [|? ? Hs Hx]; subst.
  constructor; [now apply IH|].
  rewrite Forall_forall in *. intros y Hy.
  apply Hx. rewrite <- (firstn_skipn n l). apply in_or_app. now left.
Qed.

(** In a sorted list every element of a prefix precedes every element of
    the remainder. *)
Lemma StronglySorted_prefix_rest {A : Type} (R : A -> A -> Prop) n l x y :
  StronglySorted R l -> In x (firstn n l) -> In y (skipn n l) -> R x y.
Proof.
  revert l. induction n as [|n IH]; intros l H Hx Hy; simpl in *; [contradiction|].
  destruct l as [|z l]; [contradiction|].
  inversion H as [|? ? Hs Hz]; subst.
  destruct Hx as [<- | Hx].
  - rewrite Forall_forall in Hz. apply Hz.
    rewrite <- (firstn_skipn n l). apply in_or_app. now right.
  - now apply (IH l).
Qed.

(** ** Facts about [Math.round] *)

Lemma Math_round_pos x : 0 < Math_round x -> (0 < x)%Q.
Proof.
  unfold Math_round. intro H.
  pose proof (Qfloor_le (x + (1 # 2))) as Hle.
  assert (H1 : (inject_Z 1 <= inject_Z (Qfloor (x + (1 # 2))))%Q).
  { rewrite <- Zle_Qle. lia. }
  unfold inject_Z in H1 at 1. lra.
Qed.

Lemma Math_round_neg x : Math_round x < 0 -> (x < 0)%Q.
Proof.
  unfold Math_round. intro H.
  pose proof (Qlt_floor (x + (1 # 2))) as Hlt.
  assert (H1 : (inject_Z (Qfloor (x + (1 # 2)) + 1) <= inject_Z 0)%Q).
  { rewrite <- Zle_Qle. lia. }
  unfold inject_Z in H1 at 2. lra.
Qed.

(** ** The price-change engine *)

Module PriceCalculatorFacts.
Import PriceCalculator PriceCalculatorSpec.

Lemma priorPriceAt_run market target coll :
  priorPriceAt market target coll =
  if marketExistedAt market target
  then (option_map HistoricalPrice.price
          (HistoricalPrice.findOne_newest (lookup_filter market target) coll),
        [lookup_filter market target])
  else (None, []).
Proof.
  unfold priorPriceAt, findHistoricalPrice, bind, ret, findOne_newest, lookup_filter.
  destruct (marketExistedAt market target); reflexivity.
Qed.

Lemma calculatePriceChangesForMarket_run market now coll :
  calculatePriceChangesForMarket market now coll =
  let d := priorPriceAt market (now - ONE_DAY_MS) coll in
  let w := priorPriceAt market (now - ONE_WEEK_MS) coll in
  let m := priorPriceAt market (now - ONE_MONTH_MS) coll in
  ({| price1DayAgo := fst d;
      price1WeekAgo := fst w;
      price1MonthAgo := fst m;
      priceChange1Day := calculatePriceChange (currentPrice market) (fst d);
      priceChange1Week := calculatePriceChange (currentPrice market) (fst w);
      priceChange1Month := calculatePriceChange (currentPrice market) (fst m) |},
   snd d ++ snd w ++ snd m).
Proof.
  unfold calculatePriceChangesForMarket, bind, ret.
  destruct (priorPriceAt market (now - ONE_DAY_MS) coll) as [d qd].
  destruct (priorPriceAt market (now - ONE_WEEK_MS) coll) as [w qw].
  destruct (priorPriceAt market (now - ONE_MONTH_MS) coll) as [m qm].
  simpl. now rewrite app_nil_r.
Qed.

Lemma priorPrice_run market now coll p :
  priorPrice p (fst (calculatePriceChangesForMarket market now coll)) =
  fst (priorPriceAt market (now - lookback_ms p) coll).
Proof. rewrite calculatePriceChangesForMarket_run. now destruct p. Qed.

Lemma priceChange_run market now coll p :
  let c := fst (calculatePriceChangesForMarket market now coll) in
  priceChange p c = calculatePriceChange (currentPrice market) (priorPrice p c).
Proof. rewrite calculatePriceChangesForMarket_run. now destruct p. Qed.



Lemma matches_in_window market target h :
  HistoricalPrice.matches (lookup_filter market target) h = true <->
  in_window market target h.
Proof.
  unfold HistoricalPrice.matches, lookup_filter, in_window. simpl.
  rewrite !andb_true_iff, String.eqb_eq, !Z.leb_le.
  split.
  - intros [[[H1 H2] H3] H4]. destruct (HistoricalPrice.source h), (source market);
      try discriminate; repeat split; auto; lia.
  - intros [H1 [H2 H3]]. rewrite H2. repeat split; auto; try lia.
    now destruct (source market).
Qed.

Lemma newer_first_total a b :
  HistoricalPrice.newer_first a b = true \/ HistoricalPrice.newer_first b a = true.
Proof. unfold HistoricalPrice.newer_first. rewrite !Z.leb_le. lia. Qed.

Lemma newer_first_trans a b c :
  HistoricalPrice.newer_first a b = true ->
  HistoricalPrice.newer_first b c = true ->
  HistoricalPrice.newer_first a c = true.
Proof. unfold HistoricalPrice.newer_first. rewrite !Z.leb_le. lia. Qed.

(** What [findOne(...).sort({ timestamp: -1 })] returns. *)
Lemma findOne_newest_window market target coll :
  newest_in_window market target coll
    (option_map HistoricalPrice.price
       (HistoricalPrice.findOne_newest (lookup_filter market target) coll)).
Proof.
  unfold HistoricalPrice.findOne_newest.
  destruct (hd_error _) as [h|] eqn:E; simpl.
  - apply (stable_sort_head _ _ newer_first_total newer_first_trans) in E.
    destruct E as [Hin Hmax]. apply filter_In in Hin. destruct Hin as [Hin Hm].
    exists h. split; [exact Hin|]. split; [now apply matches_in_window|].
    split; [reflexivity|].
    intros h' Hin' Hw'.
    assert (H : HistoricalPrice.newer_first h h' = true).
    { apply Hmax. apply filter_In. split; [assumption|].
      now apply matches_in_window. }
    unfold HistoricalPrice.newer_first in H. now apply Z.leb_le.
  - apply stable_sort_none in E. intros h Hin Hw.
    apply matches_in_window in Hw.
    assert (H : In h (filter (HistoricalPrice.matches (lookup_filter market target)) coll))
      by (apply filter_In; now split).
    rewrite E in H. contradiction.
Qed.

(** C9: for every market and period the engine's price change is
    [Math.round(currentPrice - priorPrice)] when the prior price is
    present and absent otherwise; a positive change means the price went
    up and a negative one that it went down; a current price of 70 with
    a price of 38 one day ago gives a one-day change of 32. *)
Theorem price_change_is_rounded_difference :
  forall (market : MarketWithPrices) (now : Date)
         (coll : list HistoricalPrice.IHistoricalPrice) (p : Lookback),
    let c := fst (calculatePriceChangesForMarket market now coll) in
    priceChange p c =
      match priorPrice p c with
      | Some prior => Some (Math_round (currentPrice market - prior)%Q)
      | None => None
      end
    /\ match priorPrice p c, priceChange p c with
       | Some prior, Some change =>
           match change ?= 0 with
           | Gt => (prior < currentPrice market)%Q
           | Lt => (currentPrice market < prior)%Q
           | Eq => True
           end
       | _, _ => True
       end
    /\ calculatePriceChange 70%Q (Some 38%Q) = Some 32
    /\ (let c0 := fst (calculatePriceChangesForMarket Samples.market70
                         Samples.now0 Samples.history38) in
        price1DayAgo c0 = Some 38%Q /\ priceChange1Day c0 = Some 32).
Proof.
  intros market now coll p c.
  pose proof (priceChange_run market now coll p) as Hc. cbv zeta in Hc.
  fold c in Hc. unfold calculatePriceChange in Hc.
  split; [exact Hc|]. split.
  - rewrite Hc. destruct (priorPrice p c) as [prior|]; [|exact I].
    destruct (Z.compare_spec (Math_round (currentPrice market - prior)%Q) 0) as [E|E|E].
    + exact I.
    + apply Math_round_neg in E. lra.
    + apply Math_round_pos in E. lra.
  - split; [reflexivity|]. split; vm_compute; reflexivity.
Qed.

(** C10: in the engine's output, for each of the three periods, the
    price change is absent exactly when the prior price is absent. *)
Theorem price_change_null_iff_prior_null :
  forall (market : MarketWithPrices) (now : Date)
         (coll : list HistoricalPrice.IHistoricalPrice) (p : Lookback),
    let c := fst (calculatePriceChangesForMarket market now coll) in
    priceChange p c = None <-> priorPrice p c = None.
Proof.
  intros market now coll p c.
  pose proof (priceChange_run market now coll p) as Hc. cbv zeta in Hc.
  fold c in Hc. rewrite Hc. unfold calculatePriceChange.
  destruct (priorPrice p c); split; intro H; congruence.
Qed.

(** A market created two days ago has no one-week and no one-month
    prior price, whatever the history holds, and only the one-day lookup
    is issued. *)
Lemma young_market_skips_old_lookups :
  let run := calculatePriceChangesForMarket Samples.market_young Samples.now0
               Samples.history_old in
  price1WeekAgo (fst run) = None
  /\ price1MonthAgo (fst run) = None
  /\ snd run = [lookup_filter Samples.market_young (Samples.now0 - ONE_DAY_MS)].
Proof. repeat split; vm_compute; reflexivity. Qed.

(** Two snapshots lie in the window of the one-day mark, 10 taken a
    minute before the mark and 20 taken three hours after it: the
    engine reports 20, the price of the more recent of the two. *)
Lemma most_recent_snapshot_of_window_is_reported :
  price1DayAgo
    (fst (calculatePriceChangesForMarket Samples.market70 Samples.now0
            Samples.history_two)) = Some 20%Q.
Proof. vm_compute. reflexivity. Qed.


End PriceCalculatorFacts.

(** ** The category filter *)

Module FiltersFacts.
Import Filters.

Lemma isAllowedTopic_intro text topic :
  In topic ALLOWED_TOPICS ->
  includes (toLowerCase text) (toLowerCase topic) = true ->
  isAllowedTopic text = true.
Proof.
  intros Hin Hinc. unfold isAllowedTopic. apply existsb_exists.
  exists topic. now split.
Qed.

(** C5: whenever the combined text contains an allow-listed topic,
    compared without regard to case, the market is not excluded,
    whatever the sports keywords, prop-bet patterns, team indicators
    and price-threshold patterns make of the text. *)
Theorem allowed_topic_is_never_excluded :
  forall (title description : string) (category : option string) (topic : string),
    In topic ALLOWED_TOPICS ->
    includes (toLowerCase (combinedText title description category))
      (toLowerCase topic) = true ->
    shouldExcludeMarket title description category = false.
Proof.
  intros title description category topic Hin Hinc.
  unfold shouldExcludeMarket.
  now rewrite (isAllowedTopic_intro _ _ Hin Hinc).
Qed.

(** An allowed topic next to a sports keyword, a prop-bet pattern, a
    team indicator and a price-threshold pattern. *)
Lemma allowed_topic_is_never_excluded_witness :
  let title := "NBA: Over 229.5 points, Golden State, BTC above $100,000" in
  let text := combinedText title "Election night special" None in
  (containsSportsKeyword text = true
   /\ matchesSportsPropPattern text = true
   /\ containsNBATeamIndicator text = true
   /\ matchesPriceThresholdPattern text = true)
  /\ shouldExcludeMarket title "Election night special" None = false.
Proof.
  split.
  - repeat split; vm_compute; reflexivity.
  - apply (allowed_topic_is_never_excluded _ _ _ "election").
    + simpl. tauto.
    + vm_compute. reflexivity.
Defined.

(** The expectation of lib/filters.test.ts for "UFC 300 Main Event" is
    not met: "Main" contains the allow-listed "AI". *)
Lemma ufc_main_event_is_allowed :
  shouldExcludeMarket "UFC 300 Main Event" "Mixed martial arts" (Some "") = false.
Proof. vm_compute. reflexivity. Qed.

End FiltersFacts.

(** ** Price normalisation *)

Module NormalizationFacts.
Import Kalshi NormalizationSpec.

Lemma Math_round_percent_range (p : number) :
  (0 <= p <= 1)%Q ->
  (0 <= inject_Z (Math_round (p * 100)) <= 100)%Q.
Proof.
  intros [H0 H1]. unfold Math_round.
  assert (Hlo : Qfloor (1 # 2) <= Qfloor (p * 100 + (1 # 2))).
  { apply Qfloor_resp_le. lra. }
  assert (Hhi : Qfloor (p * 100 + (1 # 2)) <= Qfloor (201 # 2)).
  { apply Qfloor_resp_le. lra. }
  change (Qfloor (1 # 2)) with 0 in Hlo.
  change (Qfloor (201 # 2)) with 100 in Hhi.
  split.
  - change 0%Q with (inject_Z 0). rewrite <- Zle_Qle. exact Hlo.
  - change 100%Q with (inject_Z 100). rewrite <- Zle_Qle. exact Hhi.
Qed.

(** A value of magnitude at most 100 does not overflow. *)
Lemma to_double_small (q : number) :
  (0 <= q <= 100)%Q -> to_double q = Finite q.
Proof.
  intros [H0 H1]. unfold to_double.
  destruct (Qle_bool OVERFLOW (Qabs q)) eqn:E; [|reflexivity].
  exfalso. apply Qle_bool_iff in E. rewrite Qabs_pos in E by exact H0.
  assert (Hbig : (100 < OVERFLOW)%Q) by (vm_compute; reflexivity).
  lra.
Qed.

Lemma round_percent_range (p : number) :
  (0 <= p <= 1)%Q ->
  exists price,
    round_percent (Finite p) = Finite price /\ (0 <= price <= 100)%Q.
Proof.
  intro H. exists (inject_Z (Math_round (p * 100)%Q)).
  split; [|now apply Math_round_percent_range].
  unfold round_percent. rewrite to_double_small; [reflexivity|].
  destruct H. split; lra.
Qed.

Lemma getYesPrice_chosen market :
  Polymarket.getYesPrice market = Polymarket.parseOutcomePrice (chosenPrice market).
Proof.
  unfold Polymarket.getYesPrice, chosenPrice.
  destruct (truthy _); [reflexivity|].
  destruct (Polymarket.outcomePrices market); reflexivity.
Qed.

(** The price of a normalised record is its adapter's price function
    applied to the raw record. *)
Lemma normalizeRecord_price r nm :
  normalizeRecord r = Some nm ->
  currentPrice nm =
  match r with
  | FromKalshi market => Kalshi.normalizePrice (last_price market)
  | FromPolymarket _ market => Polymarket.parseOutcomePrice (chosenPrice market)
  | FromManifold _ market => Manifold.normalizePrice (Manifold.probability market)
  end.
Proof.
  destruct r as [market | event market | groupMap market]; simpl.
  - unfold Kalshi.normalize.
    destruct (sportsTicker _); [discriminate|].
    destruct (Filters.shouldExcludeMarket _ _ _); [discriminate|].
    intro H. injection H as <-. reflexivity.
  - unfold Polymarket.normalize.
    destruct (_ || _); [discriminate|].
    destruct (Filters.shouldExcludeMarket _ _ _); [discriminate|].
    intro H. injection H as <-. simpl. apply getYesPrice_chosen.
  - unfold Manifold.normalize.
    destruct (Filters.shouldExcludeMarket _ _ _); [discriminate|].
    intro H. injection H as <-. reflexivity.
Qed.

(** C6, as the specification words it, fails: no adapter clamps.  A
    Kalshi last price of 150, a Polymarket "Yes" price of "1.5" and a
    Manifold probability of 1.5 are each normalised to 150; and the
    Polymarket price string "Infinity", which [parseFloat] reads as a
    number, is normalised to an infinite price. *)
Lemma price_above_scale_is_not_clamped :
  map currentPrice
    (catch (fetchKalshiMarkets
              (Resolved (mkFetched [Samples.kalshi150] false))) [])
  = [Finite 150%Q]
  /\ map currentPrice
       (catch (Polymarket.fetchPolymarketMarkets
                 (Resolved (mkFetched [Samples.event0] false))) [])
     = [Finite 150%Q]
  /\ map currentPrice
       (catch (Manifold.fetchManifoldMarkets
                 (Resolved (mkFetched [Samples.manifold150] false))
                 (fun _ _ => NetworkError)) [])
     = [Finite 150%Q]
  /\ map currentPrice
       (catch (Polymarket.fetchPolymarketMarkets
                 (Resolved (mkFetched [Samples.event_infinity] false))) [])
     = [Infinity false].
Proof. repeat split; vm_compute; reflexivity. Qed.

(** C6, amended: for every raw record that is normalised, according to
    the price its source reports (the Kalshi last price; the number
    [parseFloat] reads from the Polymarket price string that is used,
    the "Yes" outcome's or else the first one; the Manifold
    probability): a finite price on the source's scale (0 to 100 cents
    for Kalshi, 0 to 1 for Polymarket and Manifold) gives a finite
    normalised price between 0 and 100; no usable price (Kalshi last
    price absent; Polymarket string absent, empty or not the text of a
    number; Manifold probability absent or null) gives 50; an infinite
    price, which only a Polymarket string can denote, gives that
    infinity. *)
Theorem normalized_price_in_range :
  forall (r : RawRecord) (nm : NormalizedMarket),
    normalizeRecord r = Some nm ->
    match sourcePrice r with
    | Finite p =>
        (0 <= p <= fullScale r)%Q ->
        exists price,
          currentPrice nm = Finite price /\ (0 <= price <= 100)%Q
    | NaN => currentPrice nm = Finite 50%Q
    | Infinity negative => currentPrice nm = Infinity negative
    end.
Proof.
  intros r nm Hn. rewrite (normalizeRecord_price r nm Hn).
  destruct r as [market | event market | groupMap market]; simpl.
  - unfold Kalshi.normalizePrice.
    destruct (last_price market) as [p|]; [|reflexivity].
    intro H. now exists p.
  - unfold Polymarket.parseOutcomePrice.
    destruct (chosenPrice market) as [s|]; simpl; [|reflexivity].
    destruct s as [|c s]; simpl; [reflexivity|].
    destruct (Polymarket.parseFloat (String c s)) as [|negative|p];
      [reflexivity | reflexivity |].
    apply round_percent_range.
  - unfold Manifold.normalizePrice.
    destruct (Manifold.probability market) as [| |p];
      [reflexivity | reflexivity |].
    apply round_percent_range.
Qed.

(** The Kalshi record at 42 cents: within the scale, normalised to 42. *)
Lemma normalized_price_in_range_witness :
  exists price,
    currentPrice Samples.normalized42 = Finite price /\ (0 <= price <= 100)%Q.
Proof.
  apply (normalized_price_in_range (FromKalshi Samples.kalshi42)
           Samples.normalized42 eq_refl).
  split; unfold Qle; simpl; lia.
Defined.

End NormalizationFacts.

(** ** Pagination *)

Module PaginationFacts.

(** The Polymarket loop ends within 5000 requests, whatever the service
    answers: a request that does not end it adds at least one event. *)
Lemma polymarket_loop_ends api :
  forall fuel request allEvents,
    (0 < fuel)%nat ->
    5000 <= Z.of_nat fuel + Z.of_nat (List.length allEvents) ->
    Polymarket.fetchAllPolymarketEvents_loop fuel api request allEvents <> None.
Proof.
  induction fuel as [|fuel IH]; intros request allEvents Hpos Hsum; [lia|].
  simpl.
  destruct (fetchWithRetry (api request)) as [[status events]|]; [|discriminate].
  destruct (negb (ok status)); [discriminate|].
  destruct events as [|e events]; [discriminate|].
  destruct (5000 <=? _) eqn:E; [discriminate|].
  apply Z.leb_gt in E. rewrite length_app in E. simpl in E.
  apply IH.
  - lia.
  - rewrite length_app. simpl. lia.
Qed.

Lemma polymarket_pagination_terminates api :
  exists outcome, Polymarket.fetchAllPolymarketEvents 5000 api = Some outcome.
Proof.
  unfold Polymarket.fetchAllPolymarketEvents.
  destruct (Polymarket.fetchAllPolymarketEvents_loop 5000 api 0 []) as [o|] eqn:E.
  - now exists o.
  - exfalso. revert E. apply polymarket_loop_ends; simpl; lia.
Qed.

(** When the loop returns, the warning was logged exactly when the
    limit was reached. *)
Lemma polymarket_warning_iff_limit api :
  forall fuel request allEvents f,
    Z.of_nat (List.length allEvents) < 5000 ->
    Polymarket.fetchAllPolymarketEvents_loop fuel api request allEvents
    = Some (Resolved f) ->
    (limitWarning f = true <-> 5000 <= Z.of_nat (List.length (items f))).
Proof.
  induction fuel as [|fuel IH]; intros request allEvents f Hlt H; simpl in H;
    [discriminate|].
  destruct (fetchWithRetry (api request)) as [[status events]|]; [|discriminate].
  destruct (negb (ok status)); [discriminate|].
  destruct events as [|e events].
  - injection H as <-. simpl. split; [discriminate | lia].
  - destruct (5000 <=? _) eqn:E.
    + injection H as <-. simpl. apply Z.leb_le in E. now split.
    + apply Z.leb_gt in E. now apply (IH (S request) _ f E).
Qed.

(** The Kalshi loop ends within 10000 requests when every page carries
    at least one market. *)
Lemma kalshi_loop_ends api :
  (forall request status data,
      fetchWithRetry (api request) = Resolved (status, data) ->
      Kalshi.markets data <> []) ->
  forall fuel request allMarkets,
    (0 < fuel)%nat ->
    10000 <= Z.of_nat fuel + Z.of_nat (List.length allMarkets) ->
    Kalshi.fetchAllKalshiMarkets_loop fuel api request allMarkets <> None.
Proof.
  intro Hpages.
  induction fuel as [|fuel IH]; intros request allMarkets Hpos Hsum; [lia|].
  simpl.
  destruct (fetchWithRetry (api request)) as [[status data]|] eqn:F; [|discriminate].
  destruct (negb (ok status)); [discriminate|].
  destruct (10000 <=? _) eqn:E; [discriminate|].
  destruct (or_undefined (Kalshi.cursor data)); [|discriminate].
  apply Z.leb_gt in E. rewrite length_app in E.
  specialize (Hpages request status data F).
  destruct (Kalshi.markets data) as [|m ms] eqn:M; [contradiction|].
  apply IH.
  - simpl in E. lia.
  - rewrite length_app. simpl. lia.
Qed.

Lemma kalshi_empty_pages_step fuel request :
  Kalshi.fetchAllKalshiMarkets_loop (S fuel) Samples.kalshi_empty_pages request []
  = Kalshi.fetchAllKalshiMarkets_loop fuel Samples.kalshi_empty_pages (S request) [].
Proof. reflexivity. Qed.

Lemma manifold_resolved_pages_step fuel request :
  Manifold.fetchAllManifoldMarkets_loop (S fuel) Samples.manifold_resolved_pages
    request []
  = Manifold.fetchAllManifoldMarkets_loop fuel Samples.manifold_resolved_pages
      (S request) [].
Proof. vm_compute. reflexivity. Qed.

(** C8 on the code: the safety limit counts accumulated records, so it
    is never reached by a Kalshi service that keeps answering with an
    empty page and a cursor, nor by a Manifold service whose full pages
    hold no active binary market; on these the loops do not end, however
    many iterations they are given. *)
Theorem pagination_limit_misses_stalled_streams :
  forall fuel : nat,
    Kalshi.fetchAllKalshiMarkets fuel Samples.kalshi_empty_pages = None
    /\ Manifold.fetchAllManifoldMarkets fuel Samples.manifold_resolved_pages = None.
Proof.
  intro fuel. split.
  - unfold Kalshi.fetchAllKalshiMarkets. generalize 0%nat.
    induction fuel as [|fuel IH]; intro request; [reflexivity|].
    rewrite kalshi_empty_pages_step. apply IH.
  - unfold Manifold.fetchAllManifoldMarkets. generalize 0%nat.
    induction fuel as [|fuel IH]; intro request; [reflexivity|].
    rewrite manifold_resolved_pages_step. apply IH.
Qed.

End PaginationFacts.

(** ** The ranking *)

Module RankingFacts.
Import Market MarketsRoute RankingSpec.

Lemma StronglySorted_impl {A : Type} (R R' : A -> A -> Prop) l :
  (forall a b, R a b -> R' a b) -> StronglySorted R l -> StronglySorted R' l.
Proof.
  intros HR. induction 1 as [|x l Hs IH Hx]; constructor; [exact IH|].
  eapply Forall_impl; [|exact Hx]. intros; now apply HR.
Qed.

(** The first [n] elements of the stably sorted candidates are a top-n
    choice. *)
Lemma top_of_sorted {A : Type} (before : A -> A -> bool) (R : A -> A -> Prop) n l :
  (forall x y, before x y = true \/ before y x = true) ->
  (forall x y z, before x y = true -> before y z = true -> before x z = true) ->
  (forall x y, before x y = true -> R x y) ->
  top_of R n l (firstn n (stable_sort before l)).
Proof.
  intros Htot Htr HR.
  pose proof (stable_sort_sorted _ _ Htot Htr l) as Hs.
  apply (StronglySorted_impl _ R _ HR) in Hs.
  split; [|split].
  - now rewrite length_firstn, stable_sort_length.
  - now apply StronglySorted_firstn.
  - exists (skipn n (stable_sort before l)). split.
    + rewrite firstn_skipn. symmetry. apply stable_sort_perm.
    + intros a b Ha Hb. eapply StronglySorted_prefix_rest; eassumption.
Qed.

Lemma byChange_total period x y :
  byChange period x y = true \/ byChange period y x = true.
Proof.
  unfold byChange. rewrite !Qle_bool_iff.
  destruct (Qlt_le_dec (absChange period x) (absChange period y)) as [H|H].
  - right. now apply Qlt_le_weak.
  - now left.
Qed.

Lemma byChange_trans period x y z :
  byChange period x y = true -> byChange period y z = true ->
  byChange period x z = true.
Proof.
  unfold byChange. rewrite !Qle_bool_iff. intros H1 H2.
  eapply Qle_trans; eassumption.
Qed.

Lemma recent_first_total x y :
  recent_first x y = true \/ recent_first y x = true.
Proof. unfold recent_first. rewrite !Z.leb_le. lia. Qed.

Lemma recent_first_trans x y z :
  recent_first x y = true -> recent_first y z = true -> recent_first x z = true.
Proof. unfold recent_first. rewrite !Z.leb_le. lia. Qed.

Lemma query_eligible period m : query period m = true <-> eligible period m.
Proof.
  unfold query, eligible, ne_null. rewrite !andb_true_iff, negb_true_iff.
  destruct period; cbn [getPriceChangeField getPriorPriceField price_change prior_price];
    match goal with
    | |- context [ne_null] => idtac
    | |- (_ /\ (match ?a with _ => _ end) = true) /\ (match ?b with _ => _ end) = true <-> _ =>
        destruct a, b; intuition congruence
    end.
Qed.

Lemma query_is_eligible period m : query period m = is_eligible period m.
Proof.
  unfold query, is_eligible, ne_null.
  destruct period; cbn [getPriceChangeField getPriorPriceField price_change prior_price];
    rewrite <- andb_assoc; f_equal;
    match goal with
    | |- (match ?a with _ => _ end) && (match ?b with _ => _ end) = _ =>
        destruct a, b; reflexivity
    end.
Qed.

(** The comparator's key is the size of the move. *)
Lemma absChange_magnitude period m : (absChange period m == magnitude period m)%Q.
Proof.
  unfold absChange, magnitude, Math_abs, or_zero.
  assert (H : forall x : option number,
             (Qabs match x with
                   | Some q => if Qeq_bool q 0 then 0 else q
                   | None => 0
                   end
              == match x with
                 | Some change => Qabs change
                 | None => 0
                 end)%Q).
  { intros [q|]; [|reflexivity].
    destruct (Qeq_bool q 0) eqn:E; [|reflexivity].
    apply Qeq_bool_iff in E. rewrite E. reflexivity. }
  destruct period; apply H.
Qed.

Lemma firstn_subset {A : Type} (P : A -> Prop) n l :
  Forall P l -> Forall P (firstn n l).
Proof.
  rewrite !Forall_forall. intros H x Hx. apply H.
  rewrite <- (firstn_skipn n l). apply in_or_app. now left.
Qed.

Lemma parsePeriod_param period : parsePeriod (Some (period_param period)) = period.
Proof. destruct period; reflexivity. Qed.

(** C3: for every stored set of markets and every period, requested by
    its parameter ("1d", "1w", "1m"), the answer is for that period and
    holds at most 20 markets, all of them stored and none excluded.  The
    markets the handler queries are the eligible ones: not excluded,
    with the price change and the prior price of the period both
    present.  When some market is eligible the answer is not flagged as
    fallback, holds eligible markets only, and is a top 20 of the
    eligible markets by absolute price change of the period, largest
    first.  When no market is eligible the answer is flagged as fallback
    and is a top 20 of the markets that are not excluded, most recently
    updated first. *)
Theorem top_movers_ranking :
  forall (p : Period) (coll : list IMarket),
    let r := GET (Some (period_param p)) coll in
    period r = p
    /\ (List.length (markets r) <= 20)%nat
    /\ Forall (fun m => In m coll /\ isExcluded m = false) (markets r)
    /\ (forall m, query p m = true <-> eligible p m)
    /\ match eligible_markets p coll with
       | [] =>
           fallbackMode r = true
           /\ top_of more_recent 20 (listed_markets coll) (markets r)
       | _ :: _ =>
           fallbackMode r = false
           /\ Forall (eligible p) (markets r)
           /\ top_of (larger_move p) 20 (eligible_markets p coll) (markets r)
       end.
Proof.
  intros p coll r.
  assert (Hrecent : forall a b, recent_first a b = true -> more_recent a b).
  { intros a b H. now apply Z.leb_le. }
  assert (Hmove : forall a b, byChange p a b = true -> larger_move p a b).
  { intros a b H. apply Qle_bool_iff in H. unfold larger_move.
    now rewrite <- !absChange_magnitude. }
  assert (Hq : filter (query p) coll = eligible_markets p coll).
  { apply filter_ext. intro m. apply query_is_eligible. }
  assert (Hr : r = match eligible_markets p coll with
                   | [] =>
                       mkBody
                         (firstn 20 (stable_sort recent_first (listed_markets coll)))
                         p
                         (List.length
                            (firstn 20 (stable_sort recent_first
                                          (listed_markets coll))))
                         true
                   | _ :: _ =>
                       mkBody
                         (firstn 20 (stable_sort (byChange p)
                                       (eligible_markets p coll)))
                         p
                         (List.length
                            (firstn 20 (stable_sort (byChange p)
                                          (eligible_markets p coll))))
                         false
                   end).
  { unfold r, GET, find. rewrite parsePeriod_param, Hq.
    destruct (eligible_markets p coll) eqn:E; [|reflexivity].
    cbv zeta iota beta. rewrite firstn_firstn. reflexivity. }
  assert (Hel : forall m, In m (eligible_markets p coll) ->
                          In m coll /\ eligible p m).
  { intros m Hm. rewrite <- Hq in Hm. apply filter_In in Hm.
    destruct Hm as [Hin Hm]. split; [exact Hin | now apply query_eligible]. }
  split; [|split; [|split; [|split; [apply query_eligible|]]]].
  - rewrite Hr. now destruct (eligible_markets p coll).
  - rewrite Hr. destruct (eligible_markets p coll); cbn [markets];
      rewrite length_firstn; apply Nat.le_min_l.
  - rewrite Hr. destruct (eligible_markets p coll) eqn:E; cbn [markets];
      apply firstn_subset, Forall_forall; intros m Hm;
      apply stable_sort_In in Hm.
    + apply filter_In in Hm. destruct Hm as [Hin Hex].
      split; [exact Hin|]. now apply negb_true_iff.
    + apply Hel in Hm. destruct Hm as [Hin Hm].
      split; [exact Hin | apply Hm].
  - rewrite Hr. destruct (eligible_markets p coll) eqn:E;
      cbn [markets fallbackMode].
    + split; [reflexivity|].
      apply top_of_sorted;
        [apply recent_first_total | apply recent_first_trans | exact Hrecent].
    + split; [reflexivity|]. split.
      * apply firstn_subset, Forall_forall. intros m Hm.
        apply stable_sort_In in Hm. now apply Hel.
      * apply top_of_sorted;
          [apply byChange_total | apply byChange_trans | exact Hmove].
Qed.

End RankingFacts.

(** ** The refresh: what it leaves untouched *)

Module RefreshFrame.
Import Market DataRefresh RefreshSpec.

Lemma key_eqb_eq a b : key_eqb a b = true <-> a = b.
Proof.
  destruct a as [i s], b as [j t]. unfold key_eqb. simpl.
  rewrite andb_true_iff, String.eqb_eq. split.
  - intros [-> H]. destruct s, t; simpl in H; congruence.
  - intro H. injection H as -> ->. split; [reflexivity | now destruct t].
Qed.

Lemma key_eqb_refl a : key_eqb a a = true.
Proof. now apply key_eqb_eq. Qed.

Lemma has_key_row_key id src m :
  has_key id src m = true <-> row_key m = (id, src).
Proof. apply (key_eqb_eq (row_key m) (id, src)). Qed.

Lemma preserved_refl m : preserved m m.
Proof. now split. Qed.

Lemma preserved_trans a b c : preserved a b -> preserved b c -> preserved a c.
Proof. intros [H1 H2] [H3 H4]. split; congruence. Qed.

Lemma preserved_fresh a b : fresh a -> preserved a b -> fresh b.
Proof. unfold fresh. intros H [_ H2]. congruence. Qed.

Lemma Forall2_preserved_refl l : Forall2 preserved l l.
Proof. induction l; constructor; auto using preserved_refl. Qed.

Lemma extends_refl coll : extends coll coll.
Proof.
  exists coll, []. rewrite app_nil_r.
  split; [reflexivity|]. split; [apply Forall2_preserved_refl | constructor].
Qed.

Lemma Forall2_preserved_trans l1 :
  forall l2 l3, Forall2 preserved l1 l2 -> Forall2 preserved l2 l3 ->
                Forall2 preserved l1 l3.
Proof.
  induction l1 as [|a l1 IH]; intros l2 l3 H12 H23.
  - inversion H12; subst. inversion H23; subst. constructor.
  - inversion H12 as [|? b ? l2' Hab H12']; subst.
    inversion H23 as [|? c ? l3' Hbc H23']; subst.
    constructor; [eapply preserved_trans; eassumption | eapply IH; eassumption].
Qed.

Lemma Forall2_preserved_fresh l1 :
  forall l2, Forall fresh l1 -> Forall2 preserved l1 l2 -> Forall fresh l2.
Proof.
  induction l1 as [|a l1 IH]; intros l2 Hf H12.
  - inversion H12; subst. constructor.
  - inversion H12 as [|? b ? l2' Hab H12']; subst.
    inversion Hf; subst.
    constructor; [eapply preserved_fresh; eassumption | now apply IH].
Qed.

Lemma extends_trans a b c : extends a b -> extends b c -> extends a c.
Proof.
  intros [u1 [a1 [-> [Hu1 Ha1]]]] [u2 [a2 [-> [Hu2 Ha2]]]].
  apply Forall2_app_inv_l in Hu2.
  destruct Hu2 as [u2a [u2b [Hua [Hub ->]]]].
  exists u2a, (u2b ++ a2). split; [now rewrite app_assoc|]. split.
  - eapply Forall2_preserved_trans; eassumption.
  - apply Forall_app. split; [|exact Ha2].
    exact (Forall2_preserved_fresh _ _ Ha1 Hub).
Qed.

Lemma apply_set_preserved id src doc m :
  d_marketId doc = id -> d_source doc = src ->
  has_key id src m = true -> preserved m (apply_set doc m).
Proof.
  intros Hi Hs Hk. apply has_key_row_key in Hk.
  split; [|reflexivity]. unfold row_key in *. simpl. congruence.
Qed.

Lemma update_first_preserved id src doc :
  d_marketId doc = id -> d_source doc = src ->
  forall coll coll' changed,
    update_first id src doc coll = Some (coll', changed) ->
    Forall2 preserved coll coll'.
Proof.
  intros Hi Hs. induction coll as [|m coll IH]; intros coll' changed H; simpl in H.
  - discriminate.
  - destruct (has_key id src m) eqn:Hk.
    + injection H as <- _. constructor.
      * now apply apply_set_preserved with (id := id) (src := src).
      * apply Forall2_preserved_refl.
    + destruct (update_first id src doc coll) as [[coll'' c]|]; [|discriminate].
      injection H as <- _. constructor; [apply preserved_refl|].
      now apply (IH coll'' c).
Qed.

Lemma updateOne_extends op coll r :
  keyed op -> extends coll (fst (updateOne op (coll, r))).
Proof.
  intros [Hi Hs]. unfold updateOne.
  destruct (update_first _ _ _ coll) as [[coll' changed]|] eqn:E.
  - simpl. exists coll', []. rewrite app_nil_r.
    split; [reflexivity|]. split; [|constructor].
    eapply update_first_preserved; eassumption.
  - destruct (upsert op); simpl; [|apply extends_refl].
    exists coll, [inserted (filter_marketId op) (filter_source op) (update_set op)].
    split; [reflexivity|]. split; [apply Forall2_preserved_refl|].
    constructor; [reflexivity | constructor].
Qed.

Lemma bulkWrite_from_extends ops :
  Forall keyed ops ->
  forall coll r,
    extends coll (fst (fold_left (fun st op => updateOne op st) ops (coll, r))).
Proof.
  induction 1 as [|op ops Hop Hops IH]; intros coll r; cbn [fold_left].
  - apply extends_refl.
  - destruct (updateOne op (coll, r)) as [coll1 r1] eqn:E.
    eapply extends_trans; [|apply IH].
    pose proof (updateOne_extends op coll r Hop) as H. now rewrite E in H.
Qed.

Lemma bulkOps_keyed batch now : Forall keyed (bulkOps batch now).
Proof.
  unfold bulkOps. apply Forall_forall. intros op Hin.
  apply in_map_iff in Hin. destruct Hin as [m [<- _]]. now split.
Qed.

Lemma Forall_select_from {A : Type} (P : A -> Prop) written l :
  Forall P l -> forall i, Forall P (select_from i written l).
Proof.
  induction 1 as [|x l Hx Hl IH]; intro i; simpl; [constructor|].
  destruct (written i); [constructor; [exact Hx|] |]; apply IH.
Qed.

Lemma Forall_filter_sub {A : Type} (P : A -> Prop) f l :
  Forall P l -> Forall P (filter f l).
Proof.
  induction 1 as [|x l Hx Hl IH]; simpl; [constructor|].
  destruct (f x); [now constructor | exact IH].
Qed.

Lemma Forall_applied (P : UpdateOne -> Prop) f ops :
  Forall P ops -> Forall P (applied f ops).
Proof.
  intro H. unfold applied. destruct (find_throws f); [constructor|].
  destruct (bulkWrite_throws f); [now apply Forall_select_from | exact H].
Qed.

Lemma bulkWrite_extends ops coll :
  Forall keyed ops -> extends coll (fst (bulkWrite ops coll)).
Proof.
  intro H. unfold bulkWrite. apply bulkWrite_from_extends.
  now apply Forall_filter_sub.
Qed.

(** The Market collection a batch leaves: the operations that reach the
    store, applied to the collection it found. *)
Lemma processBatch_marketColl src now f batch db r :
  marketColl (fst (processBatch src now f batch (db, r)))
  = fst (bulkWrite (applied f (bulkOps batch now)) (marketColl db)).
Proof.
  unfold processBatch, applied. destruct (find_throws f); [reflexivity|].
  destruct (bulkOps batch now) as [|op ops] eqn:E.
  - destruct (bulkWrite_throws f); reflexivity.
  - destruct (bulkWrite_throws f) as [written|]; [reflexivity|].
    destruct (bulkWrite (op :: ops) (marketColl db)). reflexivity.
Qed.

Lemma processBatch_extends src now f batch db r :
  extends (marketColl db) (marketColl (fst (processBatch src now f batch (db, r)))).
Proof.
  rewrite processBatch_marketColl. apply bulkWrite_extends.
  apply Forall_applied, bulkOps_keyed.
Qed.

Lemma processBatches_extends src now faults bs :
  forall i db r,
    extends (marketColl db)
      (marketColl (fst (processBatches src now faults i bs (db, r)))).
Proof.
  induction bs as [|batch bs IH]; intros i db r; cbn [processBatches].
  - apply extends_refl.
  - destruct (processBatch src now (faults i) batch (db, r)) as [db1 r1] eqn:E.
    eapply extends_trans; [|apply IH].
    pose proof (processBatch_extends src now (faults i) batch db r) as H.
    now rewrite E in H.
Qed.

Lemma processMarkets_extends markets src now faults db :
  extends (marketColl db)
    (marketColl (fst (processMarkets markets src now faults db))).
Proof.
  unfold processMarkets. destruct markets; [apply extends_refl|].
  apply processBatches_extends.
Qed.

(** C7: over a refresh every document of the Market collection keeps
    its place, its key, its three prior prices, its three price changes
    and its exclusion fields; the documents the refresh adds are created
    with those fields absent and [isExcluded] false.  This holds
    whatever the sources return and whichever store operations fail. *)
Theorem refresh_preserves_derived_and_exclusion_fields :
  forall (env : Env) (now : Date) (db : Store),
    extends (marketColl db) (marketColl (snd (refreshAllMarkets env now db))).
Proof.
  intros env now db. unfold refreshAllMarkets.
  destruct (dbConnect env); [|apply extends_refl].
  pose proof (processMarkets_extends (kalshiMarkets env) kalshi now
                (faults env kalshi) db) as H1.
  destruct (processMarkets (kalshiMarkets env) kalshi now _ db) as [db1 r1].
  pose proof (processMarkets_extends (polymarketMarkets env) polymarket now
                (faults env polymarket) db1) as H2.
  destruct (processMarkets (polymarketMarkets env) polymarket now _ db1) as [db2 r2].
  pose proof (processMarkets_extends (manifoldMarkets env) manifold now
                (faults env manifold) db2) as H3.
  destruct (processMarkets (manifoldMarkets env) manifold now _ db2) as [db3 r3].
  simpl in *. eapply extends_trans; [exact H1|].
  eapply extends_trans; eassumption.
Qed.

End RefreshFrame.

(** ** The refresh: snapshots and upserts *)

Module RefreshFacts.
Import Market DataRefresh RefreshSpec RefreshFrame.

(** *** Documents of other keys *)

Lemma rows_app coll1 coll2 k : rows (coll1 ++ coll2) k = rows coll1 k ++ rows coll2 k.
Proof. unfold rows. apply filter_app. Qed.

Lemma update_first_rows_other id src doc k :
  d_marketId doc = id -> d_source doc = src -> k <> (id, src) ->
  forall coll coll' changed,
    update_first id src doc coll = Some (coll', changed) ->
    rows coll' k = rows coll k.
Proof.
  intros Hi Hs Hk. induction coll as [|m coll IH]; intros coll' changed H;
    simpl in H; [discriminate|].
  destruct (has_key id src m) eqn:Hm.
  - injection H as <- _. unfold rows. simpl.
    assert (H1 : has_key (fst k) (snd k) m = false).
    { apply not_true_is_false. intro C. apply has_key_row_key in C, Hm.
      apply Hk. rewrite <- Hm, C. now destruct k. }
    assert (H2 : has_key (fst k) (snd k) (apply_set doc m) = false).
    { apply not_true_is_false. intro C. apply has_key_row_key in C.
      apply Hk. unfold row_key in C. simpl in C. rewrite Hi, Hs in C.
      rewrite C. now destruct k. }
    now rewrite H1, H2.
  - destruct (update_first id src doc coll) as [[coll'' c]|]; [|discriminate].
    injection H as <- _. unfold rows in *. simpl.
    now rewrite (IH coll'' c eq_refl).
Qed.

Lemma updateOne_rows_other op coll r k :
  keyed op -> k <> (filter_marketId op, filter_source op) ->
  rows (fst (updateOne op (coll, r))) k = rows coll k.
Proof.
  intros [Hi Hs] Hk. unfold updateOne.
  destruct (update_first _ _ _ coll) as [[coll' changed]|] eqn:E.
  - simpl. eapply update_first_rows_other; eassumption.
  - destruct (upsert op); [|reflexivity]. simpl.
    rewrite rows_app. unfold rows at 2. simpl.
    assert (H : has_key (fst k) (snd k)
                  (inserted (filter_marketId op) (filter_source op) (update_set op))
                = false).
    { apply not_true_is_false. intro C. apply has_key_row_key in C.
      apply Hk. unfold row_key in C. simpl in C. rewrite Hi, Hs in C.
      rewrite C. now destruct k. }
    rewrite H. apply app_nil_r.
Qed.

Lemma fold_updateOne_rows_other k ops :
  Forall keyed ops ->
  Forall (fun op => k <> (filter_marketId op, filter_source op)) ops ->
  forall coll r,
    rows (fst (fold_left (fun st op => updateOne op st) ops (coll, r))) k
    = rows coll k.
Proof.
  induction 1 as [|op ops Hop Hops IH]; intros Hk coll r; cbn [fold_left];
    [reflexivity|].
  inversion Hk as [|? ? Hk1 Hk2]; subst.
  destruct (updateOne op (coll, r)) as [coll1 r1] eqn:E.
  rewrite (IH Hk2). pose proof (updateOne_rows_other op coll r k Hop Hk1) as H.
  now rewrite E in H.
Qed.

Lemma among_false k l :
  among k l = false -> Forall (fun m => k <> key_of m) l.
Proof.
  unfold among. intro H. apply Forall_forall. intros m Hin ->.
  assert (C : existsb (key_eqb (key_of m)) (map key_of l) = true).
  { apply existsb_exists. exists (key_of m).
    split; [now apply in_map | apply key_eqb_refl]. }
  congruence.
Qed.

Lemma among_true k l : among k l = true <-> exists m, In m l /\ key_of m = k.
Proof.
  unfold among. rewrite existsb_exists. split.
  - intros [k' [Hin Hk]]. apply in_map_iff in Hin. destruct Hin as [m [<- Hin]].
    apply key_eqb_eq in Hk. now exists m.
  - intros [m [Hin <-]]. exists (key_of m).
    split; [now apply in_map | apply key_eqb_refl].
Qed.

Lemma among_app k l1 l2 : among k (l1 ++ l2) = among k l1 || among k l2.
Proof. unfold among. now rewrite map_app, existsb_app. Qed.

Lemma castable_marketDoc m now : castable (marketDoc m now) = valid_dates m.
Proof. reflexivity. Qed.

Lemma writable_app l1 l2 : writable (l1 ++ l2) = writable l1 ++ writable l2.
Proof. apply filter_app. Qed.

(** A key without a writable market is a key without a market. *)
Lemma among_writable k l : among k l = false -> among k (writable l) = false.
Proof.
  intro H. apply not_true_is_false. intro C. apply among_true in C.
  destruct C as [m [Hin Hk]]. apply filter_In in Hin. destruct Hin as [Hin _].
  assert (C : among k l = true) by (apply among_true; now exists m).
  congruence.
Qed.

(** The operations of a batch that can be cast are those of its
    writable markets. *)
Lemma bulkOps_unwritten k batch now :
  among k (writable batch) = false ->
  Forall (fun op => castable (update_set op) = true ->
                    k <> (filter_marketId op, filter_source op))
    (bulkOps batch now).
Proof.
  intro H. apply among_false in H. unfold bulkOps.
  apply Forall_forall. intros op Hin. apply in_map_iff in Hin.
  destruct Hin as [m [<- Hin]]. simpl. intro Hc.
  rewrite Forall_forall in H. apply H. apply filter_In. now split.
Qed.

Lemma Forall_filter_mp {A : Type} (P : A -> Prop) f l :
  Forall (fun x => f x = true -> P x) l -> Forall P (filter f l).
Proof.
  induction 1 as [|x l Hx Hl IH]; simpl; [constructor|].
  destruct (f x) eqn:E; [constructor; auto | exact IH].
Qed.

Lemma bulkWrite_rows_unwritten k ops coll :
  Forall keyed ops ->
  Forall (fun op => castable (update_set op) = true ->
                    k <> (filter_marketId op, filter_source op)) ops ->
  rows (fst (bulkWrite ops coll)) k = rows coll k.
Proof.
  intros Hk Hu. unfold bulkWrite. apply fold_updateOne_rows_other.
  - now apply Forall_filter_sub.
  - now apply Forall_filter_mp.
Qed.

(** Processing a batch leaves the documents of the keys without a
    writable market in the batch as they were, whichever store
    operations fail. *)
Lemma processBatch_rows_unwritten src now f batch db r k :
  among k (writable batch) = false ->
  rows (marketColl (fst (processBatch src now f batch (db, r)))) k
  = rows (marketColl db) k.
Proof.
  intro Hk. rewrite processBatch_marketColl. apply bulkWrite_rows_unwritten.
  - apply Forall_applied, bulkOps_keyed.
  - apply Forall_applied. now apply bulkOps_unwritten.
Qed.

Lemma processBatches_rows_unwritten src now faults k bs :
  among k (writable (List.concat bs)) = false ->
  forall i db r,
    rows (marketColl (fst (processBatches src now faults i bs (db, r)))) k
    = rows (marketColl db) k.
Proof.
  induction bs as [|batch bs IH]; intros Hk i db r; cbn [processBatches];
    [reflexivity|].
  cbn [List.concat] in Hk. rewrite writable_app, among_app in Hk.
  apply orb_false_iff in Hk. destruct Hk as [Hk1 Hk2].
  destruct (processBatch src now (faults i) batch (db, r)) as [db1 r1] eqn:E.
  rewrite (IH Hk2).
  pose proof (processBatch_rows_unwritten src now (faults i) batch db r k Hk1) as H.
  now rewrite E in H.
Qed.

(** *** The batches of a list *)

Lemma concat_batches_fuel {A : Type} size :
  forall fuel (l : list A),
    (0 < size)%nat -> (List.length l <= fuel)%nat ->
    List.concat (batches_fuel fuel size l) = l.
Proof.
  induction fuel as [|fuel IH]; intros l Hs Hl.
  - destruct l; [reflexivity | simpl in Hl; lia].
  - destruct l as [|x l]; [reflexivity|].
    cbn [batches_fuel List.concat]. rewrite IH.
    + apply firstn_skipn.
    + exact Hs.
    + rewrite length_skipn. cbn [List.length] in *. lia.
Qed.

Lemma concat_batches {A : Type} (l : list A) : List.concat (batches BATCH_SIZE l) = l.
Proof.
  apply concat_batches_fuel; [unfold BATCH_SIZE; lia | reflexivity].
Qed.

Lemma processMarkets_rows_unwritten markets src now faults db k :
  among k (writable markets) = false ->
  rows (marketColl (fst (processMarkets markets src now faults db))) k
  = rows (marketColl db) k.
Proof.
  intro Hk. unfold processMarkets. destruct markets as [|m ms] eqn:E; [reflexivity|].
  apply processBatches_rows_unwritten. now rewrite concat_batches.
Qed.

Lemma processMarkets_rows_other markets src now faults db k :
  among k markets = false ->
  rows (marketColl (fst (processMarkets markets src now faults db))) k
  = rows (marketColl db) k.
Proof. intro Hk. now apply processMarkets_rows_unwritten, among_writable. Qed.

(** *** The documents a batch finds *)

Lemma find_hd_filter {A : Type} (p : A -> bool) l :
  List.find p l = hd_error (filter p l).
Proof.
  induction l as [|x l IH]; simpl; [reflexivity|].
  destruct (p x); [reflexivity | exact IH].
Qed.

Lemma filter_filter_and {A : Type} (p q : A -> bool) l :
  filter p (filter q l) = filter (fun x => q x && p x) l.
Proof.
  induction l as [|x l IH]; simpl; [reflexivity|].
  destruct (q x); simpl; [destruct (p x); now rewrite IH | exact IH].
Qed.

Lemma flat_map_ext_on {A B : Type} (f g : A -> list B) l :
  (forall a, In a l -> f a = g a) -> flat_map f l = flat_map g l.
Proof.
  induction l as [|x l IH]; intro H; simpl; [reflexivity|].
  rewrite (H x (or_introl eq_refl)), IH; [reflexivity|].
  intros a Ha. apply H. now right.
Qed.

Lemma existingMap_get_stored batch src coll id :
  In id (map Kalshi.marketId batch) ->
  existingMap_get (existingMarkets batch src coll) id = stored coll (id, src).
Proof.
  intro Hin. unfold existingMap_get, existingMarkets, Market.find, stored, rows.
  rewrite find_hd_filter, filter_rev, filter_filter_and. simpl fst. simpl snd.
  do 2 f_equal. apply filter_ext. intro m. unfold has_key.
  destruct (String.eqb (marketId m) id) eqn:E.
  - apply String.eqb_eq in E.
    assert (Hex : existsb (String.eqb (marketId m)) (map Kalshi.marketId batch) = true).
    { apply existsb_exists. exists id. split; [exact Hin|]. now apply String.eqb_eq. }
    rewrite Hex. simpl. now rewrite andb_true_r.
  - now rewrite andb_false_r.
Qed.

(** The snapshots a batch collects: one per market that has a
    document. *)
Lemma historicalSnapshots_raw batch src coll now :
  Forall (fun m => Kalshi.source m = src) batch ->
  historicalSnapshots batch (existingMarkets batch src coll) now
  = flat_map (fun m => match stored coll (key_of m) with
                       | Some e => [snapshot now e]
                       | None => []
                       end) batch.
Proof.
  intro Hsrc. unfold historicalSnapshots. apply flat_map_ext_on.
  intros m Hin. rewrite existingMap_get_stored by now apply in_map.
  rewrite Forall_forall in Hsrc. unfold key_of. rewrite (Hsrc m Hin).
  reflexivity.
Qed.

(** The history a batch leaves: the snapshots that reach the store and
    pass validation, appended. *)
Lemma processBatch_historyColl src now f batch db r :
  historyColl (fst (processBatch src now f batch (db, r)))
  = historyColl db
    ++ filter HistoricalPrice.valid
         (recorded f
            (historicalSnapshots batch (existingMarkets batch src (marketColl db))
               now)).
Proof.
  unfold processBatch, recorded.
  destruct (find_throws f); [cbn [filter]; now rewrite app_nil_r|].
  set (snapshots := historicalSnapshots _ _ _).
  assert (Hh : match snapshots with
               | [] => historyColl db
               | _ :: _ =>
                   match insertMany_rejects f with
                   | Some written =>
                       HistoricalPrice.insertMany (select written snapshots)
                         (historyColl db)
                   | None => HistoricalPrice.insertMany snapshots (historyColl db)
                   end
               end
               = historyColl db
                 ++ filter HistoricalPrice.valid
                      match insertMany_rejects f with
                      | Some written => select written snapshots
                      | None => snapshots
                      end).
  { destruct snapshots; [|now destruct (insertMany_rejects f)].
    destruct (insertMany_rejects f); cbn [select select_from filter];
      now rewrite app_nil_r. }
  rewrite Hh.
  destruct (bulkOps batch now); [reflexivity|].
  destruct (bulkWrite_throws f); [reflexivity|].
  destruct (bulkWrite _ _). reflexivity.
Qed.

Lemma filter_flat_map {A B : Type} (p : B -> bool) (f : A -> list B) l :
  filter p (flat_map f l) = flat_map (fun a => filter p (f a)) l.
Proof.
  induction l as [|a l IH]; simpl; [reflexivity|].
  now rewrite filter_app, IH.
Qed.

(** The snapshots of a batch that pass validation. *)
Lemma historicalSnapshots_stored batch src coll now :
  Forall (fun m => Kalshi.source m = src) batch ->
  filter HistoricalPrice.valid
    (historicalSnapshots batch (existingMarkets batch src coll) now)
  = flat_map (fun m => snaps now (stored coll (key_of m))) batch.
Proof.
  intro Hsrc. unfold historicalSnapshots. rewrite filter_flat_map.
  apply flat_map_ext_on.
  intros m Hin. rewrite existingMap_get_stored by now apply in_map.
  rewrite Forall_forall in Hsrc. unfold key_of. rewrite (Hsrc m Hin).
  now destruct (stored coll (Kalshi.marketId m, src)).
Qed.

Lemma stored_key coll k e : stored coll k = Some e -> In e coll /\ row_key e = k.
Proof.
  unfold stored. intro H.
  assert (Hin : In e (rev (rows coll k))).
  { destruct (rev (rows coll k)); [discriminate|]. injection H as ->. now left. }
  apply in_rev in Hin. unfold rows in Hin. apply filter_In in Hin.
  destruct Hin as [Hin Hk]. split; [exact Hin|].
  apply has_key_row_key in Hk. rewrite Hk. now destruct k.
Qed.

Lemma stored_none coll k : stored coll k = None <-> rows coll k = [].
Proof.
  unfold stored. split; intro H.
  - destruct (rows coll k) as [|x l] eqn:E; [reflexivity|].
    exfalso. assert (Hl : rev (x :: l) = []).
    { destruct (rev (x :: l)); [reflexivity | discriminate]. }
    apply (f_equal (@List.length _)) in Hl. rewrite length_rev in Hl. discriminate.
  - now rewrite H.
Qed.

(** *** The snapshots of one key *)

Lemma snapshots_for_app k l1 l2 :
  snapshots_for k (l1 ++ l2) = snapshots_for k l1 ++ snapshots_for k l2.
Proof. unfold snapshots_for. apply filter_app. Qed.

Lemma snapshots_for_snaps now coll k k' :
  snapshots_for k (snaps now (stored coll k'))
  = if key_eqb k k' then snaps now (stored coll k') else [].
Proof.
  destruct (stored coll k') as [e|] eqn:E; cbn [snaps filter].
  - destruct (HistoricalPrice.valid (snapshot now e));
      [|now destruct (key_eqb k k')].
    apply stored_key in E. destruct E as [_ Hk]. cbn [snapshots_for filter].
    change (snapshot_key (snapshot now e)) with (row_key e). rewrite Hk.
    destruct (key_eqb k k') eqn:K.
    + apply key_eqb_eq in K. subst. now rewrite key_eqb_refl.
    + destruct (key_eqb k' k) eqn:K'; [|reflexivity].
      apply key_eqb_eq in K'. subst. now rewrite key_eqb_refl in K.
  - now destruct (key_eqb k k').
Qed.

Lemma snapshots_for_flat_map now coll k l :
  NoDup (map key_of l) ->
  snapshots_for k (flat_map (fun m => snaps now (stored coll (key_of m))) l)
  = if among k l then snaps now (stored coll k) else [].
Proof.
  induction l as [|m l IH]; intro Hnd; [reflexivity|].
  simpl in Hnd. inversion Hnd as [|? ? Hnotin Hnd']; subst.
  cbn [flat_map]. rewrite snapshots_for_app, snapshots_for_snaps, (IH Hnd').
  unfold among. cbn [map existsb].
  destruct (key_eqb k (key_of m)) eqn:K; simpl.
  - apply key_eqb_eq in K. subst k.
    assert (Hno : existsb (key_eqb (key_of m)) (map key_of l) = false).
    { apply not_true_is_false. intro C. apply existsb_exists in C.
      destruct C as [k' [Hin Hk]]. apply key_eqb_eq in Hk. now subst. }
    rewrite Hno. apply app_nil_r.
  - reflexivity.
Qed.

(** *** A document for every processed key *)

Lemma extends_rows_nonempty coll coll' k :
  extends coll coll' -> rows coll k <> [] -> rows coll' k <> [].
Proof.
  intros [updated [added [-> [Hu _]]]] Hne. rewrite rows_app.
  assert (H : rows updated k <> []).
  { clear added. induction Hu as [|m m' coll updated Hp Hu IH]; [exact Hne|].
    unfold rows in *. simpl in *.
    destruct Hp as [Hk _].
    assert (Hsame : has_key (fst k) (snd k) m' = has_key (fst k) (snd k) m).
    { unfold has_key. unfold row_key in Hk. injection Hk as -> ->. reflexivity. }
    rewrite Hsame. destruct (has_key (fst k) (snd k) m); [discriminate|].
    now apply IH. }
  destruct (rows updated k); [contradiction | discriminate].
Qed.

Lemma update_first_some_rows id src doc coll coll' changed :
  update_first id src doc coll = Some (coll', changed) -> rows coll (id, src) <> [].
Proof.
  revert coll' changed. induction coll as [|m coll IH]; intros coll' changed H;
    simpl in H; [discriminate|].
  unfold rows. simpl.
  destruct (has_key id src m); [discriminate|].
  destruct (update_first id src doc coll) as [[c1 c2]|]; [|discriminate].
  now apply (IH c1 c2).
Qed.

Lemma updateOne_creates op coll r :
  keyed op -> upsert op = true ->
  rows (fst (updateOne op (coll, r))) (filter_marketId op, filter_source op) <> [].
Proof.
  intros Hk Hu.
  destruct (update_first (filter_marketId op) (filter_source op) (update_set op) coll)
    as [[coll' changed]|] eqn:E.
  - apply extends_rows_nonempty with (coll := coll).
    + now apply updateOne_extends.
    + eapply update_first_some_rows; eassumption.
  - unfold updateOne. rewrite E, Hu. simpl. rewrite rows_app.
    unfold rows at 2. simpl.
    assert (H : has_key (filter_marketId op) (filter_source op)
                  (inserted (filter_marketId op) (filter_source op) (update_set op))
                = true).
    { apply has_key_row_key. unfold row_key. simpl. destruct Hk as [-> ->].
      reflexivity. }
    rewrite H. intro C. apply app_eq_nil in C. destruct C as [_ C]. discriminate.
Qed.

Lemma fold_updateOne_creates k ops :
  Forall keyed ops ->
  Forall (fun op => upsert op = true) ops ->
  Exists (fun op => (filter_marketId op, filter_source op) = k) ops ->
  forall coll r,
    rows (fst (fold_left (fun st op => updateOne op st) ops (coll, r))) k <> [].
Proof.
  induction 1 as [|op ops Hop Hops IH]; intros Hup Hex coll r; cbn [fold_left].
  - inversion Hex.
  - inversion Hup as [|? ? Hup1 Hup2]; subst.
    destruct (updateOne op (coll, r)) as [coll1 r1] eqn:E.
    inversion Hex as [? ? Hhere | ? ? Hlater]; subst.
    + apply extends_rows_nonempty with (coll := coll1).
      * now apply bulkWrite_from_extends.
      * pose proof (updateOne_creates op coll r Hop Hup1) as H.
        now rewrite E in H.
    + now apply IH.
Qed.

Lemma bulkOps_upsert batch now : Forall (fun op => upsert op = true) (bulkOps batch now).
Proof.
  unfold bulkOps. apply Forall_forall. intros op Hin.
  apply in_map_iff in Hin. now destruct Hin as [m [<- _]].
Qed.

(** *** Processing, batch by batch *)

Lemma processes_nil now db : processes now [] db db.
Proof.
  split.
  - exists []. split; [now rewrite app_nil_r | reflexivity].
  - reflexivity.
  - apply extends_refl.
  - intros m [].
Qed.

Lemma processes_compose now l1 l2 db db1 db2 :
  (forall k, among k l1 = true -> among k l2 = true -> False) ->
  processes now l1 db db1 -> processes now l2 db1 db2 ->
  processes now (l1 ++ l2) db db2.
Proof.
  intros Hdisj [[a1 [Hh1 Hs1]] Hf1 He1 Hc1] [[a2 [Hh2 Hs2]] Hf2 He2 Hc2].
  split.
  - exists (a1 ++ a2). split; [now rewrite Hh2, Hh1, app_assoc|].
    intro k. rewrite snapshots_for_app, Hs1, Hs2, among_app.
    destruct (among k l1) eqn:K1, (among k l2) eqn:K2; simpl.
    + exfalso. eapply Hdisj; eassumption.
    + apply app_nil_r.
    + unfold stored. now rewrite (Hf1 k (among_writable k l1 K1)).
    + reflexivity.
  - intros k Hk. rewrite writable_app, among_app in Hk. apply orb_false_iff in Hk.
    destruct Hk as [K1 K2]. now rewrite (Hf2 k K2), (Hf1 k K1).
  - eapply extends_trans; eassumption.
  - intros m Hin Hv. apply in_app_or in Hin. destruct Hin as [Hin | Hin].
    + eapply extends_rows_nonempty; [exact He2 | now apply Hc1].
    + now apply Hc2.
Qed.

Lemma NoDup_app_parts {A : Type} (l1 l2 : list A) :
  NoDup (l1 ++ l2) ->
  NoDup l1 /\ NoDup l2 /\ forall x, In x l1 -> In x l2 -> False.
Proof.
  induction l1 as [|a l1 IH]; simpl; intro H.
  - split; [constructor|]. split; [exact H|]. intros x [].
  - inversion H as [|? ? Hnotin Hnd]; subst.
    destruct (IH Hnd) as [H1 [H2 H3]].
    split; [|split; [exact H2|]].
    + constructor; [|exact H1]. intro C. apply Hnotin. apply in_or_app. now left.
    + intros x [<- | Hx] Hx2.
      * apply Hnotin. apply in_or_app. now right.
      * now apply (H3 x).
Qed.

Lemma keys_disjoint l1 l2 :
  NoDup (map key_of (l1 ++ l2)) ->
  forall k, among k l1 = true -> among k l2 = true -> False.
Proof.
  rewrite map_app. intro H. apply NoDup_app_parts in H.
  destruct H as [_ [_ H]]. intros k K1 K2.
  apply among_true in K1, K2.
  destruct K1 as [m1 [Hin1 <-]]. destruct K2 as [m2 [Hin2 Hk]].
  apply (H (key_of m1)); [now apply in_map|].
  rewrite <- Hk. now apply in_map.
Qed.

(** Among markets with distinct keys, the key tells the market. *)
Lemma NoDup_key_inj l m m' :
  NoDup (map key_of l) -> In m l -> In m' l -> key_of m = key_of m' -> m = m'.
Proof.
  induction l as [|a l IH]; intros Hnd Hm Hm' Hk; [contradiction|].
  simpl in Hnd. inversion Hnd as [|? ? Hnotin Hnd']; subst.
  destruct Hm as [<- | Hm], Hm' as [<- | Hm'].
  - reflexivity.
  - exfalso. apply Hnotin. rewrite Hk. now apply in_map.
  - exfalso. apply Hnotin. rewrite <- Hk. now apply in_map.
  - now apply IH.
Qed.

(** The history a batch leaves when its store operations succeed. *)
Lemma processBatch_history_no_faults src now batch db r :
  historyColl (fst (processBatch src now no_faults batch (db, r)))
  = historyColl db
    ++ filter HistoricalPrice.valid
         (historicalSnapshots batch (existingMarkets batch src (marketColl db)) now).
Proof.
  unfold processBatch. cbn [find_throws insertMany_rejects bulkWrite_throws no_faults].
  set (snapshots := historicalSnapshots _ _ _).
  assert (Hh : match snapshots with
               | [] => historyColl db
               | _ :: _ => HistoricalPrice.insertMany snapshots (historyColl db)
               end = historyColl db ++ filter HistoricalPrice.valid snapshots).
  { destruct snapshots; [now rewrite app_nil_r | reflexivity]. }
  rewrite Hh.
  destruct (bulkOps batch now); [reflexivity|].
  destruct (bulkWrite _ _). reflexivity.
Qed.

(** One batch, its store operations succeeding. *)
Lemma processBatch_processes src now batch db r :
  Forall (fun m => Kalshi.source m = src) batch ->
  NoDup (map key_of batch) ->
  processes now batch db (fst (processBatch src now no_faults batch (db, r))).
Proof.
  intros Hsrc Hnd.
  pose proof (processBatch_extends src now no_faults batch db r) as Hext.
  pose proof (processBatch_rows_unwritten src now no_faults batch db r) as Hfr.
  assert (Hhist : historyColl (fst (processBatch src now no_faults batch (db, r)))
                  = historyColl db
                    ++ flat_map (fun m => snaps now (stored (marketColl db) (key_of m)))
                         batch).
  { rewrite processBatch_history_no_faults.
    now rewrite (historicalSnapshots_stored batch src (marketColl db) now Hsrc). }
  assert (Hcr : forall m, In m batch -> valid_dates m = true ->
                  rows (marketColl (fst (processBatch src now no_faults batch (db, r))))
                    (key_of m) <> []).
  { intros m Hin Hv. rewrite processBatch_marketColl.
    unfold applied, bulkWrite.
    cbn [find_throws insertMany_rejects bulkWrite_throws no_faults].
    apply fold_updateOne_creates.
    - apply Forall_filter_sub, bulkOps_keyed.
    - apply Forall_filter_sub, bulkOps_upsert.
    - apply Exists_exists.
      exists {| filter_marketId := Kalshi.marketId m;
                filter_source := Kalshi.source m;
                update_set := marketDoc m now;
                upsert := true |}.
      split; [|reflexivity].
      apply filter_In. split; [|exact Hv].
      unfold bulkOps. apply in_map_iff. exists m. now split. }
  split.
  - eexists. split; [exact Hhist|]. intro k. now apply snapshots_for_flat_map.
  - exact Hfr.
  - exact Hext.
  - exact Hcr.
Qed.

Lemma processBatches_processes src now faults bs :
  fault_free_batches faults ->
  Forall (fun m => Kalshi.source m = src) (List.concat bs) ->
  NoDup (map key_of (List.concat bs)) ->
  forall i db r,
    processes now (List.concat bs) db
      (fst (processBatches src now faults i bs (db, r))).
Proof.
  intro Hff. induction bs as [|batch bs IH]; intros Hsrc Hnd i db r;
    cbn [processBatches List.concat] in *.
  - apply processes_nil.
  - apply Forall_app in Hsrc. destruct Hsrc as [Hs1 Hs2].
    pose proof (keys_disjoint batch (List.concat bs) Hnd) as Hdisj.
    rewrite map_app in Hnd. apply NoDup_app_parts in Hnd.
    destruct Hnd as [Hn1 [Hn2 _]].
    pose proof (processBatch_processes src now batch db r Hs1 Hn1) as H1.
    rewrite Hff.
    destruct (processBatch src now no_faults batch (db, r)) as [db1 r1].
    eapply processes_compose; [exact Hdisj | exact H1 | now apply IH].
Qed.

Lemma processMarkets_processes markets src now faults db :
  fault_free_batches faults ->
  Forall (fun m => Kalshi.source m = src) markets ->
  NoDup (map key_of markets) ->
  processes now markets db (fst (processMarkets markets src now faults db)).
Proof.
  intros Hff Hsrc Hnd. unfold processMarkets.
  destruct markets as [|m ms] eqn:E; [apply processes_nil|].
  rewrite <- E in *. clear E.
  rewrite <- (concat_batches markets) at 1.
  apply processBatches_processes; rewrite ?concat_batches; assumption.
Qed.

(** *** The sources of the adapters' markets *)

Lemma filter_map_source {A : Type} (f : A -> option Kalshi.NormalizedMarket) src l :
  (forall a nm, f a = Some nm -> Kalshi.source nm = src) ->
  Forall (fun m => Kalshi.source m = src) (Kalshi.filter_map f l).
Proof.
  intro H. induction l as [|a l IH]; simpl; [constructor|].
  destruct (f a) as [nm|] eqn:E; [|exact IH].
  constructor; [now apply (H a) | exact IH].
Qed.

Lemma kalshiMarkets_source env :
  Forall (fun m => Kalshi.source m = kalshi) (kalshiMarkets env).
Proof.
  unfold kalshiMarkets, Kalshi.fetchKalshiMarkets.
  destruct (kalshiFetched env) as [f|]; simpl; [|constructor].
  apply filter_map_source. intros a nm. unfold Kalshi.normalize.
  destruct (Kalshi.sportsTicker _); [discriminate|].
  destruct (Filters.shouldExcludeMarket _ _ _); [discriminate|].
  intro H. injection H as <-. reflexivity.
Qed.

Lemma polymarketMarkets_source env :
  Forall (fun m => Kalshi.source m = polymarket) (polymarketMarkets env).
Proof.
  unfold polymarketMarkets, Polymarket.fetchPolymarketMarkets.
  destruct (polymarketFetched env) as [f|]; simpl; [|constructor].
  induction (items f) as [|event events IH]; simpl; [constructor|].
  apply Forall_app. split; [|exact IH].
  apply filter_map_source. intros a nm. unfold Polymarket.normalize.
  destruct (_ || _); [discriminate|].
  destruct (Filters.shouldExcludeMarket _ _ _); [discriminate|].
  intro H. injection H as <-. reflexivity.
Qed.

Lemma manifoldMarkets_source env :
  Forall (fun m => Kalshi.source m = manifold) (manifoldMarkets env).
Proof.
  unfold manifoldMarkets, Manifold.fetchManifoldMarkets.
  destruct (manifoldFetched env) as [f|]; simpl; [|constructor].
  apply filter_map_source. intros a nm. unfold Manifold.normalize.
  destruct (Filters.shouldExcludeMarket _ _ _); [discriminate|].
  intro H. injection H as <-. reflexivity.
Qed.

(** *** The whole refresh *)

Lemma refresh_processes env now db :
  fault_free env ->
  NoDup (map key_of (processed env)) ->
  processes now (processed env) db (snd (refreshAllMarkets env now db)).
Proof.
  intros [Hconn Hff] Hnd. unfold refreshAllMarkets, processed in *.
  rewrite Hconn.
  pose proof (keys_disjoint _ _ Hnd) as Hd1.
  rewrite map_app in Hnd. apply NoDup_app_parts in Hnd.
  destruct Hnd as [Hn1 [Hn23 _]].
  pose proof (keys_disjoint _ _ Hn23) as Hd2.
  rewrite map_app in Hn23. apply NoDup_app_parts in Hn23.
  destruct Hn23 as [Hn2 [Hn3 _]].
  pose proof (processMarkets_processes (kalshiMarkets env) kalshi now
                (faults env kalshi) db (Hff kalshi)
                (kalshiMarkets_source env) Hn1) as H1.
  destruct (processMarkets (kalshiMarkets env) kalshi now _ db) as [db1 r1].
  pose proof (processMarkets_processes (polymarketMarkets env) polymarket now
                (faults env polymarket) db1 (Hff polymarket)
                (polymarketMarkets_source env) Hn2) as H2.
  destruct (processMarkets (polymarketMarkets env) polymarket now _ db1) as [db2 r2].
  pose proof (processMarkets_processes (manifoldMarkets env) manifold now
                (faults env manifold) db2 (Hff manifold)
                (manifoldMarkets_source env) Hn3) as H3.
  destruct (processMarkets (manifoldMarkets env) manifold now _ db2) as [db3 r3].
  simpl in *.
  eapply processes_compose; [exact Hd1 | exact H1 |].
  eapply processes_compose; [exact Hd2 | exact H2 | exact H3].
Qed.

(** C4, as the specification words it, fails when a source yields the
    same market twice.  The stored Kalshi market, fetched twice in one
    refresh, receives two snapshots, not one; and a market that was not
    stored, fetched in the first batch and again in the second, receives
    a snapshot (of the price the first batch wrote).  When the [find] of
    a batch throws, the batch writes nothing: the stored market receives
    no snapshot and the new market no document.  And with every store
    operation succeeding and the keys distinct: a new Manifold market
    whose close time lies beyond the range of dates gets no document,
    its upsert being left out of the bulk write without an error; a
    stored market whose identifier is the empty string gets no
    snapshot, the snapshot failing validation. *)
Lemma market_fetched_twice_is_snapshotted_twice :
  snapshots_for ("KXRATE-26", kalshi)
    (historyColl (snd (refreshAllMarkets Samples.env_twice Samples.now0
                         Samples.store40)))
  = [ snapshot Samples.now0 Samples.row40; snapshot Samples.now0 Samples.row40 ]
  /\ (rows (marketColl Samples.empty_store) ("KXRATE-26", kalshi) = []
      /\ snapshots_for ("KXRATE-26", kalshi)
           (historyColl (snd (refreshAllMarkets Samples.env_second_batch
                                Samples.now0 Samples.empty_store)))
         = [ HistoricalPrice.mkIHistoricalPrice "KXRATE-26" kalshi 42%Q
               Samples.now0 ])
  /\ (map key_of (processed Samples.env_two_find_fails)
      = [("KXRATE-26", kalshi); ("0xabc", polymarket)]
      /\ snd (refreshAllMarkets Samples.env_two_find_fails Samples.now0
                Samples.store40)
         = Samples.store40)
  /\ (map key_of (processed Samples.env_late)
      = [("KXRATE-26", kalshi); ("mf2", manifold)]
      /\ option_map totalErrors
           (resolved (fst (refreshAllMarkets Samples.env_late Samples.now0
                             Samples.store40)))
         = Some 0%nat
      /\ rows (marketColl Samples.store40) ("mf2", manifold) = []
      /\ rows (marketColl (snd (refreshAllMarkets Samples.env_late Samples.now0
                                  Samples.store40)))
           ("mf2", manifold) = [])
  /\ (map key_of (processed Samples.env_blank) = [("", kalshi)]
      /\ rows (marketColl Samples.store_blank) ("", kalshi) = [Samples.row_blank]
      /\ historyColl (snd (refreshAllMarkets Samples.env_blank Samples.now0
                             Samples.store_blank))
         = []).
Proof. repeat split; vm_compute; reflexivity. Qed.

(** C4, amended: in a refresh whose store operations succeed and whose
    processed markets have pairwise distinct keys, the history grows by
    appended snapshots only, and for every processed market: if no
    document had its key, no snapshot of it is appended, and a document
    with the key exists afterwards exactly when the market's dates are
    valid; if a document had its key, the snapshots of it that are
    appended are exactly one, carrying the current price of that
    document as it was before the refresh and the instant at which the
    refresh started, or none when the identifier is the empty string. *)
Theorem refresh_snapshots_stored_markets_once :
  forall (env : Env) (now : Date) (db : Store),
    fault_free env ->
    NoDup (map key_of (processed env)) ->
    let db' := snd (refreshAllMarkets env now db) in
    exists appended,
      historyColl db' = historyColl db ++ appended
      /\ forall m, In m (processed env) ->
           match rows (marketColl db) (key_of m) with
           | [] =>
               (rows (marketColl db') (key_of m) <> [] <-> valid_dates m = true)
               /\ snapshots_for (key_of m) appended = []
           | _ :: _ =>
               exists existing,
                 In existing (marketColl db)
                 /\ row_key existing = key_of m
                 /\ snapshots_for (key_of m) appended
                    = if String.eqb (Kalshi.marketId m) ""
                      then []
                      else [snapshot now existing]
           end.
Proof.
  intros env now db Hff Hnd db'.
  destruct (refresh_processes env now db Hff Hnd) as [[appended [Hh Hs]] Hf _ Hc].
  exists appended. split; [exact Hh|].
  intros m Hin.
  assert (Ham : among (key_of m) (processed env) = true).
  { apply among_true. now exists m. }
  specialize (Hs (key_of m)). rewrite Ham in Hs.
  destruct (rows (marketColl db) (key_of m)) as [|x l] eqn:E.
  - split.
    + split; [|now apply Hc].
      intro Hne. destruct (valid_dates m) eqn:Hv; [reflexivity|].
      exfalso. apply Hne. fold db'. unfold db'. rewrite Hf; [exact E|].
      apply not_true_is_false. intro C. apply among_true in C.
      destruct C as [m' [Hin' Hk]]. apply filter_In in Hin'.
      destruct Hin' as [Hin' Hv'].
      assert (m' = m) by (eapply NoDup_key_inj; eassumption).
      subst m'. congruence.
    + apply stored_none in E. now rewrite E in Hs.
  - destruct (stored (marketColl db) (key_of m)) as [existing|] eqn:S.
    + apply stored_key in S. destruct S as [Hin' Hk].
      exists existing. split; [exact Hin'|]. split; [exact Hk|].
      rewrite Hs. cbn [snaps filter]. unfold HistoricalPrice.valid.
      change (HistoricalPrice.marketId (snapshot now existing))
        with (marketId existing).
      assert (Hid : marketId existing = Kalshi.marketId m).
      { unfold row_key, key_of in Hk. now injection Hk. }
      rewrite Hid. now destruct (String.eqb (Kalshi.marketId m) "").
    + apply stored_none in S. congruence.
Qed.

(** Kalshi yields the stored market and Polymarket a new one, on a store
    whose operations succeed. *)
Lemma refresh_snapshots_stored_markets_once_witness :
  let db' := snd (refreshAllMarkets Samples.env_two Samples.now0 Samples.store40) in
  exists appended,
    historyColl db' = historyColl Samples.store40 ++ appended
    /\ forall m, In m (processed Samples.env_two) ->
         match rows (marketColl Samples.store40) (key_of m) with
         | [] =>
             (rows (marketColl db') (key_of m) <> [] <-> valid_dates m = true)
             /\ snapshots_for (key_of m) appended = []
         | _ :: _ =>
             exists existing,
               In existing (marketColl Samples.store40)
               /\ row_key existing = key_of m
               /\ snapshots_for (key_of m) appended
                  = if String.eqb (Kalshi.marketId m) ""
                    then []
                    else [snapshot Samples.now0 existing]
         end.
Proof.
  apply (refresh_snapshots_stored_markets_once Samples.env_two Samples.now0
           Samples.store40).
  - split; [reflexivity | intros s i; reflexivity].
  - vm_compute. repeat constructor; simpl; intuition discriminate.
Defined.

End RefreshFacts.

(** ** The refresh: failing sources and the counts of the summary *)

Module RefreshSummaryFacts.
Import Market DataRefresh RefreshSpec RefreshFrame RefreshFacts.

Lemma update_first_changed id src doc :
  forall coll coll' changed,
    Forall (fun e => lastUpdated e <> d_lastUpdated doc) (rows coll (id, src)) ->
    update_first id src doc coll = Some (coll', changed) ->
    changed = true.
Proof.
  induction coll as [|m coll IH]; intros coll' changed Hold H; simpl in H;
    [discriminate|].
  unfold rows in Hold. simpl in Hold.
  destruct (has_key id src m) eqn:Hk.
  - injection H as _ <-. inversion Hold as [|? ? Hm _]; subst.
    unfold set_is_noop.
    assert (E : (d_lastUpdated doc =? lastUpdated m) = false).
    { apply Z.eqb_neq. congruence. }
    rewrite E. now rewrite andb_false_r.
  - destruct (update_first id src doc coll) as [[c1 c2]|]; [|discriminate].
    injection H as _ <-. now apply (IH c1 c2).
Qed.

Lemma updateOne_counted_mono op coll r :
  (counted r <= counted (snd (updateOne op (coll, r))))%nat.
Proof.
  unfold updateOne, counted.
  destruct (update_first _ _ _ coll) as [[coll' changed]|]; simpl.
  - destruct changed; lia.
  - destruct (upsert op); simpl; lia.
Qed.

Lemma fold_updateOne_counted_mono ops :
  forall coll r,
    (counted r
     <= counted (snd (fold_left (fun st op => updateOne op st) ops (coll, r))))%nat.
Proof.
  induction ops as [|op ops IH]; intros coll r; cbn [fold_left]; [simpl; lia|].
  pose proof (updateOne_counted_mono op coll r) as H.
  destruct (updateOne op (coll, r)) as [coll1 r1]. simpl in H.
  specialize (IH coll1 r1). lia.
Qed.

(** An upsert on a key whose documents are older than the refresh is
    counted, as a modification or as an insertion. *)
Lemma updateOne_counted_step op coll r :
  upsert op = true ->
  Forall (fun e => lastUpdated e <> d_lastUpdated (update_set op))
    (rows coll (filter_marketId op, filter_source op)) ->
  (counted r < counted (snd (updateOne op (coll, r))))%nat.
Proof.
  intros Hu Hold. unfold updateOne, counted.
  destruct (update_first _ _ _ coll) as [[coll' changed]|] eqn:E; simpl.
  - rewrite (update_first_changed _ _ _ _ _ _ Hold E). lia.
  - rewrite Hu. simpl. lia.
Qed.

Lemma processBatch_written_mono src now f batch db r :
  (written r <= written (snd (processBatch src now f batch (db, r))))%nat.
Proof.
  unfold processBatch, written.
  destruct (find_throws f); [simpl; lia|].
  destruct (bulkOps batch now); [simpl; lia|].
  destruct (bulkWrite_throws f); [simpl; lia|].
  destruct (bulkWrite _ _). simpl. lia.
Qed.

Lemma processBatches_written_mono src now faults bs :
  forall i db r,
    (written r <= written (snd (processBatches src now faults i bs (db, r))))%nat.
Proof.
  induction bs as [|batch bs IH]; intros i db r; cbn [processBatches]; [simpl; lia|].
  pose proof (processBatch_written_mono src now (faults i) batch db r) as H.
  destruct (processBatch src now (faults i) batch (db, r)) as [db1 r1]. simpl in H.
  specialize (IH (S i) db1 r1). lia.
Qed.

(** A bulk write counts something when one of its upserts can be cast
    and the documents it finds are older than the refresh: the first
    operation that can be cast is counted. *)
Lemma bulkWrite_counted_step ops coll :
  Forall (fun op => upsert op = true) ops ->
  Exists (fun op => castable (update_set op) = true) ops ->
  Forall (fun op =>
            Forall (fun e => lastUpdated e <> d_lastUpdated (update_set op))
              (rows coll (filter_marketId op, filter_source op))) ops ->
  (0 < counted (snd (bulkWrite ops coll)))%nat.
Proof.
  intros Hup Hex Hold. unfold bulkWrite.
  destruct (filter (fun op => castable (update_set op)) ops) as [|op rest] eqn:E.
  - exfalso. apply Exists_exists in Hex. destruct Hex as [op [Hin Hc]].
    assert (C : In op (filter (fun op => castable (update_set op)) ops))
      by (apply filter_In; now split).
    rewrite E in C. contradiction.
  - assert (Hin : In op ops).
    { assert (C : In op (filter (fun op => castable (update_set op)) ops))
        by (rewrite E; now left).
      apply filter_In in C. apply C. }
    rewrite Forall_forall in Hup, Hold.
    cbn [fold_left].
    pose proof (updateOne_counted_step op coll (mkBulkWriteResult 0 0)
                  (Hup op Hin) (Hold op Hin)) as H1.
    destruct (updateOne op (coll, mkBulkWriteResult 0 0)) as [coll1 r1].
    pose proof (fold_updateOne_counted_mono rest coll1 r1) as H2.
    cbn [snd] in *. lia.
Qed.

(** A batch with a writable market is counted when its store operations
    succeed and the documents of its markets are older than the
    refresh. *)
Lemma processBatch_written_step src now batch db r :
  Exists (fun m => valid_dates m = true) batch ->
  (forall m, In m batch ->
     Forall (fun e => lastUpdated e <> now) (rows (marketColl db) (key_of m))) ->
  (written r < written (snd (processBatch src now no_faults batch (db, r))))%nat.
Proof.
  intros Hex Hold.
  assert (Hc : (0 < counted (snd (bulkWrite (bulkOps batch now) (marketColl db))))%nat).
  { apply bulkWrite_counted_step.
    - apply bulkOps_upsert.
    - apply Exists_exists in Hex. destruct Hex as [m [Hin Hv]].
      apply Exists_exists.
      exists {| filter_marketId := Kalshi.marketId m;
                filter_source := Kalshi.source m;
                update_set := marketDoc m now;
                upsert := true |}.
      split; [|exact Hv]. unfold bulkOps. apply in_map_iff. exists m. now split.
    - unfold bulkOps. apply Forall_forall. intros op Hin.
      apply in_map_iff in Hin. destruct Hin as [m [<- Hin]]. now apply Hold. }
  unfold processBatch, written.
  cbn [find_throws insertMany_rejects bulkWrite_throws no_faults].
  destruct (bulkOps batch now) as [|op ops] eqn:E.
  - exfalso. unfold counted in Hc. simpl in Hc. lia.
  - destruct (bulkWrite (op :: ops) (marketColl db)) as [coll br].
    unfold counted in Hc. simpl in *. lia.
Qed.

(** A batch without a writable market leaves the Market collection as
    it is. *)
Lemma processBatch_unwritten src now f batch db r :
  writable batch = [] ->
  marketColl (fst (processBatch src now f batch (db, r))) = marketColl db.
Proof.
  intro Hw. rewrite processBatch_marketColl. unfold bulkWrite.
  assert (Hnone : filter (fun op => castable (update_set op))
                    (applied f (bulkOps batch now)) = []).
  { assert (Hall : Forall (fun op => castable (update_set op) = false)
                     (applied f (bulkOps batch now))).
    { apply Forall_applied. unfold bulkOps. apply Forall_forall.
      intros op Hin. apply in_map_iff in Hin. destruct Hin as [m [<- Hin]].
      cbn [update_set]. rewrite castable_marketDoc.
      destruct (valid_dates m) eqn:Hv; [|reflexivity].
      assert (C : In m (writable batch)) by (apply filter_In; now split).
      rewrite Hw in C. contradiction. }
    induction Hall as [|op l Hop Hl IH]; [reflexivity|].
    simpl. now rewrite Hop. }
  now rewrite Hnone.
Qed.

Lemma processBatches_written_step src now faults bs :
  fault_free_batches faults ->
  forall i db r,
    Exists (fun m => valid_dates m = true) (List.concat bs) ->
    (forall m, In m (List.concat bs) ->
       Forall (fun e => lastUpdated e <> now) (rows (marketColl db) (key_of m))) ->
    (written r < written (snd (processBatches src now faults i bs (db, r))))%nat.
Proof.
  intro Hff. induction bs as [|batch bs IH]; intros i db r Hex Hold;
    cbn [processBatches List.concat] in *.
  - inversion Hex.
  - rewrite Hff.
    destruct (writable batch) as [|w ws] eqn:W.
    + pose proof (processBatch_unwritten src now no_faults batch db r W) as Hsame.
      pose proof (processBatch_written_mono src now no_faults batch db r) as Hmono.
      destruct (processBatch src now no_faults batch (db, r)) as [db1 r1].
      cbn [fst snd] in *.
      assert (Hlt : (written r1
                     < written (snd (processBatches src now faults (S i) bs
                                       (db1, r1))))%nat).
      { apply IH.
        - apply Exists_app in Hex. destruct Hex as [Hex | Hex]; [|exact Hex].
          exfalso. apply Exists_exists in Hex. destruct Hex as [m [Hin Hv]].
          assert (C : In m (writable batch)) by (apply filter_In; now split).
          rewrite W in C. contradiction.
        - intros m Hin. rewrite Hsame. apply Hold. apply in_or_app. now right. }
      lia.
    + assert (Hstep : (written r
                       < written (snd (processBatch src now no_faults batch
                                         (db, r))))%nat).
      { apply processBatch_written_step.
        - apply Exists_exists. exists w.
          assert (C : In w (writable batch)) by (rewrite W; now left).
          apply filter_In in C. exact C.
        - intros m Hin. apply Hold. apply in_or_app. now left. }
      destruct (processBatch src now no_faults batch (db, r)) as [db1 r1].
      pose proof (processBatches_written_mono src now faults bs (S i) db1 r1) as H2.
      cbn [snd] in *. lia.
Qed.

Lemma processMarkets_written_step markets src now faults db :
  fault_free_batches faults ->
  Exists (fun m => valid_dates m = true) markets ->
  (forall m, In m markets ->
     Forall (fun e => lastUpdated e <> now) (rows (marketColl db) (key_of m))) ->
  (0 < written (snd (processMarkets markets src now faults db)))%nat.
Proof.
  intros Hff Hex Hold. unfold processMarkets.
  destruct markets as [|m ms] eqn:E; [inversion Hex|].
  rewrite <- E in *. clear E.
  pose proof (processBatches_written_step src now faults (batches BATCH_SIZE markets)
                Hff 0%nat db (mkRefreshResult src 0 0 0)) as H.
  rewrite concat_batches in H. specialize (H Hex Hold).
  unfold written in *. simpl in H. lia.
Qed.

Lemma older_rows now coll k :
  Forall (fun e => lastUpdated e < now) coll ->
  Forall (fun e => lastUpdated e <> now) (rows coll k).
Proof.
  intro H. apply Forall_forall. intros e He. unfold rows in He.
  apply filter_In in He. destruct He as [He _].
  rewrite Forall_forall in H. specialize (H e He). lia.
Qed.

Lemma among_other_source k src l :
  snd k <> src -> Forall (fun m => Kalshi.source m = src) l -> among k l = false.
Proof.
  intros Hk Hl. apply not_true_is_false. intro C. apply among_true in C.
  destruct C as [m [Hin <-]]. rewrite Forall_forall in Hl.
  apply Hk. simpl. now apply Hl.
Qed.

Lemma refreshAllMarkets_run env now db :
  dbConnect env = Resolved tt ->
  let p1 := processMarkets (kalshiMarkets env) kalshi now (faults env kalshi) db in
  let p2 := processMarkets (polymarketMarkets env) polymarket now
              (faults env polymarket) (fst p1) in
  let p3 := processMarkets (manifoldMarkets env) manifold now
              (faults env manifold) (fst p2) in
  refreshAllMarkets env now db
  = (Resolved (summary_of now (snd p1) (snd p2) (snd p3)), fst p3).
Proof.
  intro Hconn. unfold refreshAllMarkets. rewrite Hconn.
  destruct (processMarkets (kalshiMarkets env) kalshi now _ db) as [db1 r1].
  cbn [fst snd].
  destruct (processMarkets (polymarketMarkets env) polymarket now _ db1) as [db2 r2].
  cbn [fst snd].
  destruct (processMarkets (manifoldMarkets env) manifold now _ db2) as [db3 r3].
  reflexivity.
Qed.

(** C1, as the specification words it, fails: a fetch that throws is
    logged and replaced by an empty batch, and no counter records it.
    With the Polymarket fetch throwing, Kalshi and Manifold are still
    written (one market each) but the Polymarket error count is 0; with
    every fetch throwing the total error count is 0.  Besides, with the
    Polymarket fetch throwing: the refresh does throw when the store
    connection fails; Kalshi, which yields a market, reports nothing
    written when its store operations fail (the batch is counted as an
    error) or when the stored document already is what the refresh
    writes, instant included; and Manifold, yielding only a market
    whose close time is not a valid date, reports nothing written and
    no error. *)
Lemma failed_fetch_is_not_counted_as_error :
  option_map
    (fun s => (written (s_kalshi s), errors (s_polymarket s), written (s_manifold s)))
    (resolved (fst (refreshAllMarkets Samples.env_polymarket_down Samples.now0
                      Samples.store40)))
  = Some (1, 0, 1)%nat
  /\ option_map totalErrors
       (resolved (fst (refreshAllMarkets Samples.env_all_down Samples.now0
                         Samples.store40)))
     = Some 0%nat
  /\ fst (refreshAllMarkets Samples.env_no_connection Samples.now0 Samples.store40)
     = Rejected
  /\ option_map (fun s => (written (s_kalshi s), errors (s_kalshi s)))
       (resolved (fst (refreshAllMarkets Samples.env_polymarket_down_find_fails
                         Samples.now0 Samples.store40)))
     = Some (0, 1)%nat
  /\ option_map (fun s => (written (s_kalshi s), errors (s_kalshi s)))
       (resolved (fst (refreshAllMarkets Samples.env_polymarket_down
                         Samples.now0 Samples.store42_now)))
     = Some (0, 0)%nat
  /\ (List.length (yielded Samples.env_polymarket_down_late manifold) = 1%nat
      /\ option_map (fun s => (written (s_manifold s), errors (s_manifold s)))
           (resolved (fst (refreshAllMarkets Samples.env_polymarket_down_late
                             Samples.now0 Samples.store40)))
         = Some (0, 0)%nat).
Proof. repeat split; vm_compute; reflexivity. Qed.

(** C1, amended: once the store connection is established, a refresh
    whose Polymarket fetch throws does not throw.  It returns a summary
    in which the Polymarket counts, errors included, are all zero, the
    same summary and store as if Polymarket had returned no event; the
    Kalshi and Manifold counts are those of their own batches, and for
    either of them updated plus added is nonzero when the source yielded
    a market whose dates are valid, its store operations succeed and the
    stored documents are older than the refresh.  When the Kalshi and
    Manifold fetches throw as well, the summary is all zeros, the total
    error count included, and the store is unchanged. *)
Theorem refresh_survives_failed_fetches :
  forall (env : Env) (now : Date) (db : Store),
    dbConnect env = Resolved tt ->
    polymarketFetched env = Rejected ->
    exists summary,
      fst (refreshAllMarkets env now db) = Resolved summary
      /\ s_polymarket summary = mkRefreshResult polymarket 0 0 0
      /\ refreshAllMarkets env now db
         = refreshAllMarkets (with_polymarket env (Resolved (mkFetched [] false)))
             now db
      /\ s_kalshi summary
         = snd (processMarkets (kalshiMarkets env) kalshi now (faults env kalshi) db)
      /\ s_manifold summary
         = snd (processMarkets (manifoldMarkets env) manifold now
                  (faults env manifold)
                  (fst (processMarkets (kalshiMarkets env) kalshi now
                          (faults env kalshi) db)))
      /\ (forall src,
             src <> polymarket ->
             Exists (fun m => valid_dates m = true) (yielded env src) ->
             fault_free_batches (faults env src) ->
             older_than now db ->
             (0 < written (result_of summary src))%nat)
      /\ (kalshiFetched env = Rejected ->
          manifoldFetched env = Rejected ->
          summary = zero_summary now /\ snd (refreshAllMarkets env now db) = db).
Proof.
  intros env now db Hconn Hpoly.
  assert (Hp : polymarketMarkets env = []).
  { unfold polymarketMarkets. now rewrite Hpoly. }
  pose proof (refreshAllMarkets_run env now db Hconn) as Hrun.
  cbv zeta in Hrun. rewrite Hp in Hrun. cbn [processMarkets fst snd] in Hrun.
  set (p1 := processMarkets (kalshiMarkets env) kalshi now (faults env kalshi) db) in *.
  set (p3 := processMarkets (manifoldMarkets env) manifold now
               (faults env manifold) (fst p1)) in *.
  exists (summary_of now (snd p1) (mkRefreshResult polymarket 0 0 0) (snd p3)).
  split; [now rewrite Hrun|]. split; [reflexivity|]. split.
  { unfold refreshAllMarkets. cbn [with_polymarket dbConnect faults].
    unfold kalshiMarkets, polymarketMarkets, manifoldMarkets.
    cbn [kalshiFetched polymarketFetched manifoldFetched manifoldGroupApi].
    now rewrite Hpoly. }
  split; [reflexivity|]. split; [reflexivity|]. split.
  - intros src Hsrc Hy Hff Hold.
    destruct src; [| contradiction |]; cbn [yielded result_of summary_of
                                             s_kalshi s_manifold] in *.
    + unfold p1. apply processMarkets_written_step; [exact Hff | exact Hy |].
      intros m _. now apply older_rows.
    + assert (Hrows : forall k, snd k = manifold ->
                        rows (marketColl (fst p1)) k = rows (marketColl db) k).
      { intros k Hk. apply processMarkets_rows_other.
        apply among_other_source with (src := kalshi).
        - rewrite Hk. discriminate.
        - apply kalshiMarkets_source. }
      pose proof (manifoldMarkets_source env) as Hs.
      unfold p3. apply processMarkets_written_step; [exact Hff | exact Hy |].
      intros m Hin. rewrite Hrows; [now apply older_rows|].
      rewrite Forall_forall in Hs. now apply Hs.
  - intros Hk Hm. rewrite Hrun. unfold p3, p1, kalshiMarkets, manifoldMarkets.
    rewrite Hk, Hm. split; reflexivity.
Qed.

(** The Polymarket fetch throws while Kalshi and Manifold yield a market
    each: the refresh resolves, Polymarket counts nothing, the other two
    report their market as written. *)
Lemma refresh_survives_failed_fetches_witness :
  exists summary,
    fst (refreshAllMarkets Samples.env_polymarket_down Samples.now0 Samples.store40)
    = Resolved summary
    /\ s_polymarket summary = mkRefreshResult polymarket 0 0 0
    /\ (0 < written (s_kalshi summary))%nat
    /\ (0 < written (s_manifold summary))%nat.
Proof.
  destruct (refresh_survives_failed_fetches Samples.env_polymarket_down
              Samples.now0 Samples.store40 eq_refl eq_refl)
    as [summary [H1 [H2 [_ [_ [_ [H6 _]]]]]]].
  assert (Hold : older_than Samples.now0 Samples.store40).
  { repeat constructor. }
  exists summary. split; [exact H1|]. split; [exact H2|]. split.
  - apply (H6 kalshi); [discriminate | | intro i; reflexivity | exact Hold].
    apply Exists_exists. exists Samples.normalized42.
    split; [vm_compute; auto | reflexivity].
  - apply (H6 manifold); [discriminate | | intro i; reflexivity | exact Hold].
    apply Exists_exists. eexists.
    split; [vm_compute; left; reflexivity | reflexivity].
Defined.

End RefreshSummaryFacts.

(* ===================================================================== *)
(** * Part III: further properties of the code                            *)
(* ===================================================================== *)

(** ** Retrying requests *)

Module RetryFacts.
Import Backoff.

Lemma fetchWithRetry_from_spec {B : Type} (tries : nat -> Attempt B) :
  forall remaining attempt,
    match fetchWithRetry_from remaining attempt tries with
    | Resolved (status, body) =>
        exists n, (attempt <= n < attempt + remaining)%nat
                  /\ tries n = Response status body
                  /\ retried (tries n) = false
                  /\ forall i, (attempt <= i < n)%nat -> retried (tries i) = true
    | Rejected =>
        forall i, (attempt <= i < attempt + remaining)%nat -> retried (tries i) = true
    end.
Proof.
  induction remaining as [|remaining IH]; intro attempt; simpl.
  - intros i Hi. lia.
  - specialize (IH (S attempt)).
    assert (Hstep :
              retried (tries attempt) = true ->
              match fetchWithRetry_from remaining (S attempt) tries with
              | Resolved (status, body) =>
                  exists n, (attempt <= n < attempt + S remaining)%nat
                            /\ tries n = Response status body
                            /\ retried (tries n) = false
                            /\ forall i, (attempt <= i < n)%nat ->
                                         retried (tries i) = true
              | Rejected =>
                  forall i, (attempt <= i < attempt + S remaining)%nat ->
                            retried (tries i) = true
              end).
    { intro Hr.
      destruct (fetchWithRetry_from remaining (S attempt) tries) as [[status body]|].
      - destruct IH as [n [Hn [Ht [Hf Hb]]]].
        exists n. split; [lia|]. split; [exact Ht|]. split; [exact Hf|].
        intros i Hi. destruct (Nat.eq_dec i attempt) as [-> | Hne];
          [exact Hr | apply Hb; lia].
      - intros i Hi. destruct (Nat.eq_dec i attempt) as [-> | Hne];
          [exact Hr | apply IH; lia]. }
    destruct (tries attempt) as [|status body] eqn:E.
    + now apply Hstep.
    + destruct ((status =? 429) || (500 <=? status)) eqn:R.
      * apply Hstep. exact R.
      * exists attempt. split; [lia|]. split; [exact E|].
        split; [rewrite E; exact R|]. intros i Hi. lia.
Qed.

(** X1: [fetchWithRetry] makes at most three attempts.  It resolves with
    the first attempt that is neither a thrown fault nor a 429 nor a 5xx
    response, so its caller never sees such a status; it throws exactly
    when the first three attempts all are of that kind. *)
Theorem fetchWithRetry_returns_first_final_response :
  forall (B : Type) (tries : nat -> Attempt B),
    match fetchWithRetry tries with
    | Resolved (status, body) =>
        status <> 429 /\ status < 500
        /\ exists n, (n < 3)%nat
                     /\ tries n = Response status body
                     /\ forall i, (i < n)%nat -> retried (tries i) = true
    | Rejected => forall i, (i < 3)%nat -> retried (tries i) = true
    end.
Proof.
  intros B tries. unfold fetchWithRetry.
  pose proof (fetchWithRetry_from_spec tries MAX_RETRIES 0) as H.
  destruct (fetchWithRetry_from MAX_RETRIES 0 tries) as [[status body]|].
  - destruct H as [n [Hn [Ht [Hf Hb]]]].
    rewrite Ht in Hf. simpl in Hf. apply orb_false_iff in Hf.
    destruct Hf as [H1 H2]. apply Z.eqb_neq in H1. apply Z.leb_gt in H2.
    split; [exact H1|]. split; [exact H2|].
    exists n. unfold MAX_RETRIES in Hn. split; [lia|]. split; [exact Ht|].
    intros i Hi. apply Hb. lia.
  - intros i Hi. apply H. unfold MAX_RETRIES. lia.
Qed.

End RetryFacts.

(** ** Back-off delays *)

Module BackoffFacts.
Import Backoff.


Lemma pow2_succ attempt : (pow2 (S attempt) == 2 * pow2 attempt)%Q.
Proof.
  unfold pow2. rewrite Nat2Z.inj_succ, Z.pow_succ_r by lia.
  rewrite inject_Z_mult. reflexivity.
Qed.








End BackoffFacts.

(** ** Pagination loops *)

Module PaginationMore.
Import PaginationSpec PaginationFacts.

Lemma polymarket_fuel_mono api :
  forall fuel request allEvents outcome,
    Polymarket.fetchAllPolymarketEvents_loop fuel api request allEvents = Some outcome ->
    Polymarket.fetchAllPolymarketEvents_loop (S fuel) api request allEvents
    = Some outcome.
Proof.
  induction fuel as [|fuel IH]; intros request allEvents outcome H; [discriminate|].
  cbn [Polymarket.fetchAllPolymarketEvents_loop] in H |- *.
  destruct (fetchWithRetry (api request)) as [[status events]|]; [|exact H].
  destruct (negb (ok status)); [exact H|].
  destruct events as [|e events]; [exact H|].
  destruct (5000 <=? _); [exact H|].
  now apply IH.
Qed.

Lemma polymarket_fuel_more api fuel outcome :
  Polymarket.fetchAllPolymarketEvents fuel api = Some outcome ->
  forall more, (fuel <= more)%nat ->
               Polymarket.fetchAllPolymarketEvents more api = Some outcome.
Proof.
  intros H more Hle. induction Hle as [|more Hle IH]; [exact H|].
  now apply polymarket_fuel_mono.
Qed.

(** X4: whatever the Polymarket service answers, the pagination loop
    ends within 5000 requests (an empty page ends it, any other page
    adds at least one event towards the limit of 5000), and the limit
    warning is logged exactly when 5000 or more events were gathered. *)
Theorem polymarket_pagination_ends_within_5000_requests :
  forall api : Api (list Polymarket.PolymarketEvent),
    exists outcome,
      (forall fuel, 5000 <= Z.of_nat fuel ->
                    Polymarket.fetchAllPolymarketEvents fuel api = Some outcome)
      /\ match outcome with
         | Resolved f =>
             limitWarning f = true <-> 5000 <= Z.of_nat (List.length (items f))
         | Rejected => True
         end.
Proof.
  intro api.
  destruct (Polymarket.fetchAllPolymarketEvents (Z.to_nat 5000) api)
    as [outcome|] eqn:E.
  - exists outcome. split.
    + intros fuel Hf. apply (polymarket_fuel_more api (Z.to_nat 5000) outcome E). lia.
    + destruct outcome as [f|]; [|exact I].
      apply (polymarket_warning_iff_limit api (Z.to_nat 5000) 0 [] f);
        [cbn [List.length]; lia | exact E].
  - exfalso. revert E. apply polymarket_loop_ends; [lia | cbn [List.length]; lia].
Qed.

(** X5: the Kalshi loop ends within 10000 requests provided every page
    the service returns carries at least one market. *)
Theorem kalshi_pagination_ends_when_pages_carry_markets :
  forall api : Api Kalshi.KalshiMarketsResponse,
    (forall request status data,
        fetchWithRetry (api request) = Resolved (status, data) ->
        Kalshi.markets data <> []) ->
    exists outcome,
      Kalshi.fetchAllKalshiMarkets (Z.to_nat 10000) api = Some outcome.
Proof.
  intros api Hpages. unfold Kalshi.fetchAllKalshiMarkets.
  destruct (Kalshi.fetchAllKalshiMarkets_loop (Z.to_nat 10000) api 0 []) as [o|] eqn:E.
  - now exists o.
  - exfalso. revert E. apply kalshi_loop_ends; [exact Hpages | lia | cbn [List.length]; lia].
Qed.

Lemma kalshi_pagination_ends_when_pages_carry_markets_witness :
  exists outcome,
    Kalshi.fetchAllKalshiMarkets (Z.to_nat 10000) MoreSamples.kalshi_single_page
    = Some outcome.
Proof.
  apply (kalshi_pagination_ends_when_pages_carry_markets
           MoreSamples.kalshi_single_page).
  intros request status data H. injection H as _ <-. discriminate.
Defined.

Lemma manifold_loop_ends api :
  (forall request status markets,
      fetchWithRetry (api request) = Resolved (status, markets) ->
      (Manifold.limit <= List.length markets)%nat ->
      existsb manifold_active markets = true) ->
  forall fuel request allMarkets,
    (0 < fuel)%nat ->
    10000 <= Z.of_nat fuel + Z.of_nat (List.length allMarkets) ->
    Manifold.fetchAllManifoldMarkets_loop fuel api request allMarkets <> None.
Proof.
  intro Hpages.
  induction fuel as [|fuel IH]; intros request allMarkets Hpos Hsum; [lia|].
  cbn [Manifold.fetchAllManifoldMarkets_loop].
  destruct (fetchWithRetry (api request)) as [[status markets]|] eqn:F; [|discriminate].
  destruct (negb (ok status)); [discriminate|].
  destruct markets as [|m ms] eqn:M; [discriminate|]. rewrite <- M in *.
  fold manifold_active.
  change (fun m0 : Manifold.ManifoldMarket =>
            negb (Manifold.isResolved m0) && Manifold.isBinary (Manifold.outcomeType m0)
            && Manifold.isDefined (Manifold.probability m0)) with manifold_active.
  destruct (10000 <=? _) eqn:E; [discriminate|].
  destruct (List.length markets <? Manifold.limit)%nat eqn:L; [discriminate|].
  apply Nat.ltb_ge in L. apply Z.leb_gt in E. rewrite length_app in E.
  specialize (Hpages request status markets F L).
  apply existsb_exists in Hpages. destruct Hpages as [x [Hin Hact]].
  assert (Hlen : (0 < List.length (filter manifold_active markets))%nat).
  { assert (Hf : In x (filter manifold_active markets)) by (apply filter_In; now split).
    destruct (filter manifold_active markets); [contradiction | simpl; lia]. }
  apply IH.
  - lia.
  - rewrite length_app. lia.
Qed.

(** X6: the Manifold loop ends within 10000 requests provided every
    full page the service returns holds at least one unresolved binary
    market that has a [probability] key (whatever its value). *)
Theorem manifold_pagination_ends_when_full_pages_carry_active_markets :
  forall api : Api (list Manifold.ManifoldMarket),
    (forall request status markets,
        fetchWithRetry (api request) = Resolved (status, markets) ->
        (Manifold.limit <= List.length markets)%nat ->
        existsb manifold_active markets = true) ->
    exists outcome,
      Manifold.fetchAllManifoldMarkets (Z.to_nat 10000) api = Some outcome.
Proof.
  intros api Hpages. unfold Manifold.fetchAllManifoldMarkets.
  destruct (Manifold.fetchAllManifoldMarkets_loop (Z.to_nat 10000) api 0 []) as [o|] eqn:E.
  - now exists o.
  - exfalso. revert E. apply manifold_loop_ends; [exact Hpages | lia | cbn [List.length]; lia].
Qed.

Lemma manifold_pagination_ends_when_full_pages_carry_active_markets_witness :
  exists outcome,
    Manifold.fetchAllManifoldMarkets (Z.to_nat 10000) MoreSamples.manifold_full_pages
    = Some outcome.
Proof.
  apply (manifold_pagination_ends_when_full_pages_carry_active_markets
           MoreSamples.manifold_full_pages).
  intros request status markets H _. injection H as _ <-.
  vm_compute. reflexivity.
Defined.

(** The pages a Kalshi loop gathers, request after request. *)
Lemma kalshi_loop_pages api :
  forall fuel request allMarkets,
    match Kalshi.fetchAllKalshiMarkets_loop fuel api request allMarkets with
    | Some (Resolved f) =>
        exists pages,
          (0 < pages <= fuel)%nat
          /\ items f
             = allMarkets ++ flat_map (kalshi_page_markets api) (seq request pages)
          /\ (forall i, (request <= i < request + pages)%nat -> page api i <> None)
          /\ (limitWarning f = true <-> 10000 <= Z.of_nat (List.length (items f)))
    | Some Rejected =>
        exists pages,
          (pages < fuel)%nat
          /\ page api (request + pages) = None
          /\ (forall i, (request <= i < request + pages)%nat -> page api i <> None)
    | None => True
    end.
Proof.
  induction fuel as [|fuel IH]; intros request allMarkets; [exact I|].
  cbn [Kalshi.fetchAllKalshiMarkets_loop].
  assert (Hfail : page api request = None ->
                  exists pages,
                    (pages < S fuel)%nat
                    /\ page api (request + pages) = None
                    /\ (forall i, (request <= i < request + pages)%nat ->
                                  page api i <> None)).
  { intro Hp. exists 0%nat. rewrite Nat.add_0_r.
    split; [lia|]. split; [exact Hp|]. intros i Hi. lia. }
  unfold kalshi_page_markets in *. unfold page in *.
  destruct (fetchWithRetry (api request)) as [[status data]|] eqn:F;
    [|now apply Hfail].
  destruct (ok status) eqn:O; cbn [negb]; [|now apply Hfail].
  clear Hfail.
  assert (Hhere : forall i, (request <= i < request + 1)%nat ->
                    match fetchWithRetry (api i) with
                    | Resolved (status, body) => if ok status then Some body else None
                    | Rejected => None
                    end <> None).
  { intros i Hi. assert (i = request) by lia. subst i. rewrite F, O. discriminate. }
  assert (Hone : allMarkets ++ Kalshi.markets data
                 = allMarkets
                   ++ flat_map
                        (fun request0 =>
                           match
                             match fetchWithRetry (api request0) with
                             | Resolved (status0, body) =>
                                 if ok status0 then Some body else None
                             | Rejected => None
                             end
                           with
                           | Some data0 => Kalshi.markets data0
                           | None => []
                           end) (seq request 1)).
  { cbn [seq flat_map]. rewrite F, O. now rewrite app_nil_r. }
  destruct (10000 <=? _) eqn:E.
  - exists 1%nat. split; [lia|]. split; [exact Hone|]. split; [exact Hhere|].
    cbn [items limitWarning]. apply Z.leb_le in E. now split.
  - destruct (or_undefined (Kalshi.cursor data)).
    + specialize (IH (S request) (allMarkets ++ Kalshi.markets data)).
      destruct (Kalshi.fetchAllKalshiMarkets_loop fuel api (S request) _)
        as [[f|]|]; [| |exact I].
      * destruct IH as [pages [Hp [Hi [Hok Hw]]]].
        exists (S pages). split; [lia|]. split; [|split; [|exact Hw]].
        -- rewrite Hi. cbn [seq flat_map]. rewrite F, O.
           now rewrite <- app_assoc.
        -- intros i Hr. destruct (Nat.eq_dec i request) as [-> | Hne].
           ++ rewrite F, O. discriminate.
           ++ apply Hok. lia.
      * destruct IH as [pages [Hp [Hn Hok]]].
        exists (S pages). split; [lia|]. split.
        -- now rewrite Nat.add_succ_r.
        -- intros i Hr. destruct (Nat.eq_dec i request) as [-> | Hne].
           ++ rewrite F, O. discriminate.
           ++ apply Hok. lia.
    + exists 1%nat. split; [lia|]. split; [exact Hone|]. split; [exact Hhere|].
      cbn [items limitWarning]. apply Z.leb_gt in E. split; [discriminate | lia].
Qed.

(** X7: when [fetchAllKalshiMarkets] resolves, its result is the
    markets of the pages it requested, in request order, and the limit
    warning is logged exactly when 10000 or more were gathered; when it
    throws, some request failed (its retries were used up or its status
    was not ok) after pages that all succeeded: the markets gathered
    until then are dropped. *)
Theorem kalshi_pagination_concatenates_pages :
  forall (fuel : nat) (api : Api Kalshi.KalshiMarketsResponse),
    match Kalshi.fetchAllKalshiMarkets fuel api with
    | Some (Resolved f) =>
        exists pages,
          (0 < pages <= fuel)%nat
          /\ items f = flat_map (kalshi_page_markets api) (seq 0 pages)
          /\ (forall i, (i < pages)%nat -> page api i <> None)
          /\ (limitWarning f = true <-> 10000 <= Z.of_nat (List.length (items f)))
    | Some Rejected =>
        exists pages,
          (pages < fuel)%nat
          /\ page api pages = None
          /\ (forall i, (i < pages)%nat -> page api i <> None)
    | None => True
    end.
Proof.
  intros fuel api. unfold Kalshi.fetchAllKalshiMarkets.
  pose proof (kalshi_loop_pages api fuel 0 []) as H.
  destruct (Kalshi.fetchAllKalshiMarkets_loop fuel api 0 []) as [[f|]|]; [| |exact I].
  - destruct H as [pages [Hp [Hi [Hok Hw]]]].
    exists pages. split; [exact Hp|]. split; [exact Hi|]. split; [|exact Hw].
    intros i Hlt. apply Hok. lia.
  - destruct H as [pages [Hp [Hn Hok]]].
    exists pages. split; [exact Hp|]. split; [exact Hn|].
    intros i Hlt. apply Hok. lia.
Qed.

(** The markets a Manifold loop gathers all pass its filter. *)
Lemma manifold_loop_active api :
  forall fuel request allMarkets,
    Forall (fun m => manifold_active m = true) allMarkets ->
    match Manifold.fetchAllManifoldMarkets_loop fuel api request allMarkets with
    | Some (Resolved f) => Forall (fun m => manifold_active m = true) (items f)
    | _ => True
    end.
Proof.
  induction fuel as [|fuel IH]; intros request allMarkets Hall; [exact I|].
  cbn [Manifold.fetchAllManifoldMarkets_loop].
  destruct (fetchWithRetry (api request)) as [[status markets]|]; [|exact I].
  destruct (negb (ok status)); [exact I|].
  destruct markets as [|m markets]; [exact Hall|].
  fold (manifold_active).
  assert (Hnew : Forall (fun m => manifold_active m = true)
                   (allMarkets ++ filter manifold_active (m :: markets))).
  { apply Forall_app. split; [exact Hall|].
    apply Forall_forall. intros x Hx. apply filter_In in Hx. apply Hx. }
  change (filter _ (m :: markets)) with (filter manifold_active (m :: markets)).
  destruct (10000 <=? _); [exact Hnew|].
  destruct (_ <? _)%nat; [exact Hnew|].
  now apply IH.
Qed.

(** The pages a Polymarket loop gathers, request after request. *)
Lemma polymarket_loop_pages api :
  forall fuel request allEvents,
    match Polymarket.fetchAllPolymarketEvents_loop fuel api request allEvents with
    | Some (Resolved f) =>
        exists pages,
          items f = allEvents ++ flat_map (page_items api) (seq request pages)
          /\ (forall i, (request <= i < request + pages)%nat ->
                page api i <> None /\ page_items api i <> [])
          /\ (if limitWarning f
              then 5000 <= Z.of_nat (List.length (items f))
              else page api (request + pages) = Some [])
    | Some Rejected =>
        exists pages,
          page api (request + pages) = None
          /\ (forall i, (request <= i < request + pages)%nat ->
                page api i <> None /\ page_items api i <> [])
    | None => True
    end.
Proof.
  induction fuel as [|fuel IH]; intros request allEvents; [exact I|].
  cbn [Polymarket.fetchAllPolymarketEvents_loop].
  assert (Hfail : page api request = None ->
                  exists pages,
                    page api (request + pages) = None
                    /\ (forall i, (request <= i < request + pages)%nat ->
                          page api i <> None /\ page_items api i <> [])).
  { intro Hp. exists 0%nat. rewrite Nat.add_0_r. split; [exact Hp|].
    intros i Hi. lia. }
  destruct (fetchWithRetry (api request)) as [[status events]|] eqn:F;
    [|apply Hfail; unfold page; now rewrite F].
  destruct (ok status) eqn:O; cbn [negb];
    [|apply Hfail; unfold page; now rewrite F, O].
  clear Hfail.
  assert (Hpage : page api request = Some events)
    by (unfold page; now rewrite F, O).
  destruct events as [|e events].
  - exists 0%nat. cbn [seq flat_map items limitWarning]. rewrite app_nil_r, Nat.add_0_r.
    split; [reflexivity|]. split; [intros i Hi; lia | exact Hpage].
  - assert (Hhere : forall i, (request <= i < request + 1)%nat ->
                      page api i <> None /\ page_items api i <> []).
    { intros i Hi. assert (i = request) by lia. subst i. unfold page_items.
      rewrite Hpage. split; discriminate. }
    assert (Hitems : page_items api request = e :: events)
      by (unfold page_items; now rewrite Hpage).
    destruct (5000 <=? _) eqn:E.
    + exists 1%nat. cbn [seq flat_map items limitWarning].
      rewrite Hitems, app_nil_r. split; [reflexivity|]. split; [exact Hhere|].
      now apply Z.leb_le in E.
    + specialize (IH (S request) (allEvents ++ e :: events)).
      destruct (Polymarket.fetchAllPolymarketEvents_loop fuel api (S request) _)
        as [[f|]|]; [| |exact I].
      * destruct IH as [pages [Hi [Hok Hstop]]].
        exists (S pages). cbn [seq flat_map]. rewrite Hitems, Hi, <- app_assoc.
        split; [reflexivity|]. split.
        -- intros i Hr. destruct (Nat.eq_dec i request) as [-> | Hne].
           ++ apply Hhere. lia.
           ++ apply Hok. lia.
        -- rewrite Nat.add_succ_r. rewrite Hi, <- app_assoc in Hstop. exact Hstop.
      * destruct IH as [pages [Hn Hok]].
        exists (S pages). split; [now rewrite Nat.add_succ_r|].
        intros i Hr. destruct (Nat.eq_dec i request) as [-> | Hne].
        -- apply Hhere. lia.
        -- apply Hok. lia.
Qed.

(** X8: when [fetchAllPolymarketEvents] resolves, its result is the
    concatenation, in request order, of the pages it requested, all of
    them delivered with an ok status and none of them empty; it stopped
    either at the limit, with 5000 or more events and the warning
    logged, or because the next page was delivered empty.  When it
    throws, a request failed (retries used up, or a status that is not
    ok) after pages that were all delivered, and what was gathered is
    dropped. *)
Theorem polymarket_pagination_concatenates_pages :
  forall (fuel : nat) (api : Api (list Polymarket.PolymarketEvent)),
    match Polymarket.fetchAllPolymarketEvents fuel api with
    | Some (Resolved f) =>
        exists pages,
          items f = flat_map (page_items api) (seq 0 pages)
          /\ (forall i, (i < pages)%nat ->
                page api i <> None /\ page_items api i <> [])
          /\ (if limitWarning f
              then 5000 <= Z.of_nat (List.length (items f))
              else page api pages = Some [])
    | Some Rejected =>
        exists pages,
          page api pages = None
          /\ (forall i, (i < pages)%nat ->
                page api i <> None /\ page_items api i <> [])
    | None => True
    end.
Proof.
  intros fuel api. unfold Polymarket.fetchAllPolymarketEvents.
  pose proof (polymarket_loop_pages api fuel 0 []) as H.
  destruct (Polymarket.fetchAllPolymarketEvents_loop fuel api 0 []) as [[f|]|];
    [| |exact I].
  - destruct H as [pages [Hi [Hok Hstop]]].
    exists pages. split; [exact Hi|]. split; [|exact Hstop].
    intros i Hlt. apply Hok. lia.
  - destruct H as [pages [Hn Hok]].
    exists pages. split; [exact Hn|]. intros i Hlt. apply Hok. lia.
Qed.

(** The pages a Manifold loop gathers, request after request. *)
Lemma manifold_loop_pages api :
  forall fuel request allMarkets,
    match Manifold.fetchAllManifoldMarkets_loop fuel api request allMarkets with
    | Some (Resolved f) =>
        exists pages,
          items f
          = allMarkets
            ++ flat_map (fun i => filter manifold_active (page_items api i))
                 (seq request pages)
          /\ (forall i, (request <= i < request + pages)%nat ->
                page api i <> None /\ page_items api i <> [])
          /\ (forall i, (request <= i)%nat -> (S i < request + pages)%nat ->
                (Manifold.limit <= List.length (page_items api i))%nat)
          /\ (if limitWarning f
              then 10000 <= Z.of_nat (List.length (items f))
              else page api (request + pages) = Some []
                   \/ exists last,
                        (request + pages = S last)%nat
                        /\ (request <= last)%nat
                        /\ (List.length (page_items api last) < Manifold.limit)%nat)
    | Some Rejected =>
        exists pages,
          page api (request + pages) = None
          /\ (forall i, (request <= i < request + pages)%nat ->
                page api i <> None /\ page_items api i <> [])
    | None => True
    end.
Proof.
  induction fuel as [|fuel IH]; intros request allMarkets; [exact I|].
  cbn [Manifold.fetchAllManifoldMarkets_loop].
  assert (Hfail : page api request = None ->
                  exists pages,
                    page api (request + pages) = None
                    /\ (forall i, (request <= i < request + pages)%nat ->
                          page api i <> None /\ page_items api i <> [])).
  { intro Hp. exists 0%nat. rewrite Nat.add_0_r. split; [exact Hp|].
    intros i Hi. lia. }
  destruct (fetchWithRetry (api request)) as [[status markets]|] eqn:F;
    [|apply Hfail; unfold page; now rewrite F].
  destruct (ok status) eqn:O; cbn [negb];
    [|apply Hfail; unfold page; now rewrite F, O].
  clear Hfail.
  assert (Hpage : page api request = Some markets)
    by (unfold page; now rewrite F, O).
  destruct markets as [|m markets].
  - exists 0%nat. cbn [seq flat_map items limitWarning]. rewrite app_nil_r, Nat.add_0_r.
    split; [reflexivity|]. split; [intros i Hi; lia|].
    split; [intros i H1 H2; lia | now left].
  - change (filter _ (m :: markets)) with (filter manifold_active (m :: markets)).
    assert (Hitems : page_items api request = m :: markets)
      by (unfold page_items; now rewrite Hpage).
    assert (Hhere : forall i, (request <= i < request + 1)%nat ->
                      page api i <> None /\ page_items api i <> []).
    { intros i Hi. assert (i = request) by lia. subst i.
      rewrite Hitems, Hpage. split; discriminate. }
    assert (Hone : allMarkets ++ filter manifold_active (m :: markets)
                   = allMarkets
                     ++ flat_map (fun i => filter manifold_active (page_items api i))
                          (seq request 1)).
    { cbn [seq flat_map]. now rewrite Hitems, app_nil_r. }
    destruct (10000 <=? _) eqn:E.
    + exists 1%nat. cbn [items limitWarning]. split; [exact Hone|].
      split; [exact Hhere|]. split; [intros i H1 H2; lia|].
      now apply Z.leb_le in E.
    + destruct (_ <? _)%nat eqn:L.
      * exists 1%nat. cbn [items limitWarning]. split; [exact Hone|].
        split; [exact Hhere|]. split; [intros i H1 H2; lia|].
        right. exists request. split; [lia|]. split; [lia|].
        rewrite Hitems. now apply Nat.ltb_lt in L.
      * apply Nat.ltb_ge in L.
        specialize (IH (S request)
                      (allMarkets ++ filter manifold_active (m :: markets))).
        destruct (Manifold.fetchAllManifoldMarkets_loop fuel api (S request) _)
          as [[f|]|]; [| |exact I].
        -- destruct IH as [pages [Hi [Hok [Hfull Hstop]]]].
           exists (S pages). split; [|split; [|split]].
           ++ rewrite Hi. cbn [seq flat_map]. rewrite Hitems.
              now rewrite <- app_assoc.
           ++ intros i Hr. destruct (Nat.eq_dec i request) as [-> | Hne].
              ** apply Hhere. lia.
              ** apply Hok. lia.
           ++ intros i H1 H2. destruct (Nat.eq_dec i request) as [-> | Hne].
              ** now rewrite Hitems.
              ** apply Hfull; lia.
           ++ destruct (limitWarning f); [exact Hstop|].
              rewrite Nat.add_succ_r.
              destruct Hstop as [Hs | [last [H1 [H2 H3]]]]; [now left|].
              right. exists last. split; [lia|]. split; [lia | exact H3].
        -- destruct IH as [pages [Hn Hok]].
           exists (S pages). split; [now rewrite Nat.add_succ_r|].
           intros i Hr. destruct (Nat.eq_dec i request) as [-> | Hne].
           ++ apply Hhere. lia.
           ++ apply Hok. lia.
Qed.

(** X9: when [fetchAllManifoldMarkets] resolves, its result is the
    concatenation, in request order, of the unresolved binary markets
    that have a [probability] key (its value may be [null]) of the pages
    it requested.  All those pages were
    delivered with an ok status and hold a market, and all but the last
    are full (500 markets or more).  The loop stopped at the limit, with
    10000 or more markets kept and the warning logged, or because the
    next page was delivered empty, or because the last page was not
    full.  When it throws, a request failed after pages that were all
    delivered, and what was gathered is dropped. *)
Theorem manifold_pagination_concatenates_active_markets :
  forall (fuel : nat) (api : Api (list Manifold.ManifoldMarket)),
    match Manifold.fetchAllManifoldMarkets fuel api with
    | Some (Resolved f) =>
        exists pages,
          items f
          = flat_map (fun i => filter manifold_active (page_items api i))
              (seq 0 pages)
          /\ (forall i, (i < pages)%nat ->
                page api i <> None /\ page_items api i <> [])
          /\ (forall i, (S i < pages)%nat ->
                (Manifold.limit <= List.length (page_items api i))%nat)
          /\ (if limitWarning f
              then 10000 <= Z.of_nat (List.length (items f))
              else page api pages = Some []
                   \/ exists last,
                        pages = S last
                        /\ (List.length (page_items api last) < Manifold.limit)%nat)
    | Some Rejected =>
        exists pages,
          page api pages = None
          /\ (forall i, (i < pages)%nat ->
                page api i <> None /\ page_items api i <> [])
    | None => True
    end.
Proof.
  intros fuel api. unfold Manifold.fetchAllManifoldMarkets.
  pose proof (manifold_loop_pages api fuel 0 []) as H.
  destruct (Manifold.fetchAllManifoldMarkets_loop fuel api 0 []) as [[f|]|];
    [| |exact I].
  - destruct H as [pages [Hi [Hok [Hfull Hstop]]]].
    exists pages. split; [exact Hi|]. split; [|split].
    + intros i Hlt. apply Hok. lia.
    + intros i Hlt. apply Hfull; lia.
    + destruct (limitWarning f); [exact Hstop|].
      destruct Hstop as [Hs | [last [H1 [_ H3]]]]; [now left|].
      right. exists last. split; [exact H1 | exact H3].
  - destruct H as [pages [Hn Hok]].
    exists pages. split; [exact Hn|]. intros i Hlt. apply Hok. lia.
Qed.

End PaginationMore.

(** ** The filters and the case of letters *)

Module CaseFacts.
Import RegExp CaseSpec.

(** A map [g] on characters that keeps the lower case of every
    character, maps letters to letters and fixes the other characters:
    matching does not tell a text from its image under [g]. *)

Section CaseBlind.

Variable g : ascii -> ascii.
Hypothesis g_lower : forall c, lower_char (g c) = lower_char c.
Hypothesis g_letter : forall c, is_letter (g c) = is_letter c.
Hypothesis g_other : forall c, is_letter c = false -> g c = c.

Lemma g_eqb_l p c : is_letter p = false -> Ascii.eqb p (g c) = Ascii.eqb p c.
Proof.
  intro Hp. destruct (is_letter c) eqn:L; [|now rewrite g_other].
  assert (H1 : Ascii.eqb p (g c) = false).
  { apply Ascii.eqb_neq. intros ->. rewrite g_letter in Hp. congruence. }
  assert (H2 : Ascii.eqb p c = false).
  { apply Ascii.eqb_neq. intros ->. congruence. }
  now rewrite H1, H2.
Qed.

Lemma g_eqb_r p c : is_letter p = false -> Ascii.eqb (g c) p = Ascii.eqb c p.
Proof. intro Hp. rewrite !(Ascii.eqb_sym _ p). now apply g_eqb_l. Qed.

Lemma g_pred (p : ascii -> bool) c :
  (forall x, is_letter x = true -> p x = false) -> p (g c) = p c.
Proof.
  intro H. destruct (is_letter c) eqn:L; [|now rewrite g_other].
  rewrite (H c L). apply H. now rewrite g_letter.
Qed.

Lemma g_digit c : is_digit (g c) = is_digit c.
Proof.
  apply g_pred. intros x.
  destruct x as [[] [] [] [] [] [] [] []]; vm_compute; congruence.
Qed.

Lemma g_space c : is_space (g c) = is_space c.
Proof.
  apply g_pred. intros x.
  destruct x as [[] [] [] [] [] [] [] []]; vm_compute; congruence.
Qed.

Lemma g_word c : is_word (g c) = is_word c.
Proof.
  unfold is_word. rewrite g_letter, g_digit, g_eqb_r; reflexivity.
Qed.

Lemma opt_word_g prev : opt_word (option_map g prev) = opt_word prev.
Proof. destruct prev; [apply g_word | reflexivity]. Qed.

Lemma run_case_blind r :
  case_blind g r ->
  forall prev s k k',
    (forall p' s', k' (option_map g p') (map g s') = k p' s') ->
    run r (option_map g prev) (map g s) k' = run r prev s k.
Proof.
  induction r as [|p|a IHa b IHb|a IHa b IHb|a IHa|]; intros Hb prev s k k' Hk.
  - apply Hk.
  - cbn [run]. destruct s as [|c s]; [reflexivity|]. cbn [map]. rewrite (Hb c).
    destruct (p c); [|reflexivity]. apply (Hk (Some c)).
  - destruct Hb as [Ha Hb]. cbn [run]. apply (IHa Ha).
    intros p' s'. now apply (IHb Hb).
  - destruct Hb as [Ha Hb]. cbn [run].
    rewrite (IHa Ha prev s k k' Hk), (IHb Hb prev s k k' Hk). reflexivity.
  - cbn [run] in *. rewrite length_map.
    generalize (List.length s) as n. intro n. revert prev s.
    induction n as [|n IHn]; intros prev s.
    + rewrite Hk. reflexivity.
    + rewrite Hk. destruct (k prev s); [reflexivity|].
      apply (IHa Hb). intros p' s'. rewrite !length_map.
      destruct (Nat.ltb _ _); [apply IHn | reflexivity].
  - cbn [run]. rewrite opt_word_g.
    assert (Hh : hd_error (map g s) = option_map g (hd_error s)) by now destruct s.
    rewrite Hh, opt_word_g. destruct (xorb _ _); [apply Hk | reflexivity].
Qed.

Lemma search_case_blind r :
  case_blind g r ->
  forall s prev, search r (option_map g prev) (map g s) = search r prev s.
Proof.
  intro Hb. induction s as [|c s IH]; intro prev;
    pose proof (run_case_blind r Hb prev) as H;
    [specialize (H [] (fun _ _ => true) (fun _ _ => true) (fun _ _ => eq_refl))
    |specialize (H (c :: s) (fun _ _ => true) (fun _ _ => true) (fun _ _ => eq_refl))];
    cbn [map search] in *; rewrite H.
  - reflexivity.
  - destruct (run r prev (c :: s) _); [reflexivity|]. apply (IH (Some c)).
Qed.

Lemma list_ascii_map_string text :
  list_ascii_of_string (map_string g text) = map g (list_ascii_of_string text).
Proof.
  induction text as [|c text IH]; cbn [map_string list_ascii_of_string map];
    [reflexivity | now rewrite IH].
Qed.

Lemma test_case_blind r text :
  case_blind g r -> test r (map_string g text) = test r text.
Proof.
  intro Hb. unfold test. rewrite list_ascii_map_string.
  apply (search_case_blind r Hb _ None).
Qed.

Lemma toLowerCase_g text : toLowerCase (map_string g text) = toLowerCase text.
Proof.
  unfold toLowerCase. induction text as [|c text IH]; cbn [map_string];
    [reflexivity | now rewrite IH, g_lower].
Qed.

Lemma chr_i_blind c : case_blind g (chr_i c).
Proof. intro x. now rewrite g_lower. Qed.

Lemma lit_i_blind s : case_blind g (lit_i s).
Proof.
  induction s as [|c s IH]; cbn [lit_i case_blind]; [exact I|].
  split; [|exact IH]. intro x. now rewrite g_lower.
Qed.

Lemma Forall_test_blind (patterns : list re) text :
  Forall (case_blind g) patterns ->
  existsb (fun pattern => test pattern (map_string g text)) patterns
  = existsb (fun pattern => test pattern text) patterns.
Proof.
  induction 1 as [|r l Hr Hl IH]; cbn [existsb]; [reflexivity|].
  now rewrite IH, (test_case_blind r text Hr).
Qed.

Lemma existsb_pointwise {A : Type} (p q : A -> bool) l :
  (forall x, p x = q x) -> existsb p l = existsb q l.
Proof.
  intro H. induction l as [|x l IH]; cbn [existsb]; [reflexivity|].
  now rewrite H, IH.
Qed.

Ltac blind :=
  repeat match goal with
         | |- _ /\ _ => split
         | |- True => exact I
         | |- case_blind g (lit_i _) => apply lit_i_blind
         | |- case_blind g (chr_i _) => apply chr_i_blind
         | |- forall c : ascii, _ => intro
         | |- is_letter (g _) = _ => apply g_letter
         | |- is_digit (g _) = _ => apply g_digit
         | |- is_space (g _) = _ => apply g_space
         | |- Ascii.eqb _ (g _) = _ => apply g_eqb_l; reflexivity
         | |- (is_digit (g _) || Ascii.eqb (g _) _)%bool = _ =>
             rewrite g_digit, g_eqb_r by reflexivity; reflexivity
         end.

Lemma sports_prop_patterns_blind : Forall (case_blind g) Filters.SPORTS_PROP_PATTERNS.
Proof.
  unfold Filters.SPORTS_PROP_PATTERNS, Filters.name_i, Filters.number_i,
    plus, opt, chr, letter_i, digit, space.
  repeat constructor; cbn [seqs case_blind]; blind.
Qed.

Lemma price_threshold_patterns_blind :
  Forall (case_blind g) Filters.PRICE_THRESHOLD_PATTERNS.
Proof.
  unfold Filters.PRICE_THRESHOLD_PATTERNS, Filters.dollars, Filters.btc, Filters.eth,
    Filters.verb5, Filters.verb3, plus, opt, chr, letter_i, digit, space.
  repeat constructor; cbn [seqs alts case_blind]; blind.
Qed.

Lemma matchesSportsPropPattern_g text :
  Filters.matchesSportsPropPattern (map_string g text)
  = Filters.matchesSportsPropPattern text.
Proof. apply Forall_test_blind, sports_prop_patterns_blind. Qed.

Lemma matchesPriceThresholdPattern_g text :
  Filters.matchesPriceThresholdPattern (map_string g text)
  = Filters.matchesPriceThresholdPattern text.
Proof. apply Forall_test_blind, price_threshold_patterns_blind. Qed.

Lemma containsSportsKeyword_g text :
  Filters.containsSportsKeyword (map_string g text)
  = Filters.containsSportsKeyword text.
Proof.
  unfold Filters.containsSportsKeyword. cbv zeta. rewrite toLowerCase_g.
  apply existsb_pointwise. intro keyword.
  destruct (String.eqb keyword (toUpperCase keyword)); [|reflexivity].
  apply test_case_blind. unfold Filters.word_regex. cbn [seqs case_blind]. blind.
Qed.

Lemma isAllowedTopic_g text :
  Filters.isAllowedTopic (map_string g text) = Filters.isAllowedTopic text.
Proof. unfold Filters.isAllowedTopic. cbv zeta. now rewrite toLowerCase_g. Qed.

End CaseBlind.

Lemma upper_lower c : lower_char (upper_char c) = lower_char c.
Proof. destruct c as [[] [] [] [] [] [] [] []]; reflexivity. Qed.
Lemma upper_letter c : is_letter (upper_char c) = is_letter c.
Proof. destruct c as [[] [] [] [] [] [] [] []]; reflexivity. Qed.
Lemma upper_other c : is_letter c = false -> upper_char c = c.
Proof. destruct c as [[] [] [] [] [] [] [] []]; try reflexivity; discriminate. Qed.
Lemma lower_lower c : lower_char (lower_char c) = lower_char c.
Proof. destruct c as [[] [] [] [] [] [] [] []]; reflexivity. Qed.
Lemma lower_letter c : is_letter (lower_char c) = is_letter c.
Proof. destruct c as [[] [] [] [] [] [] [] []]; reflexivity. Qed.
Lemma lower_other c : is_letter c = false -> lower_char c = c.
Proof. destruct c as [[] [] [] [] [] [] [] []]; try reflexivity; discriminate. Qed.

(** X10: the filters ignore the case of letters, except for the team
    indicators.  [containsSportsKeyword], [matchesSportsPropPattern],
    [matchesPriceThresholdPattern] and [isAllowedTopic] give the same
    answer on a text, on its upper case and on its lower case.
    [containsNBATeamIndicator] compares with the case as written: it
    finds "Golden State" but not "golden state", and so
    [shouldExcludeMarket] excludes the title "Golden State" but not the
    title "golden state". *)
Theorem filters_ignore_letter_case_except_team_indicators :
  case_insensitive Filters.containsSportsKeyword
  /\ case_insensitive Filters.matchesSportsPropPattern
  /\ case_insensitive Filters.matchesPriceThresholdPattern
  /\ case_insensitive Filters.isAllowedTopic
  /\ (Filters.containsNBATeamIndicator "Golden State" = true
      /\ Filters.containsNBATeamIndicator (toLowerCase "Golden State") = false)
  /\ (Filters.shouldExcludeMarket "Golden State" "" None = true
      /\ Filters.shouldExcludeMarket (toLowerCase "Golden State") "" None = false).
Proof.
  split; [|split; [|split; [|split; [|split]]]].
  - intro text. split.
    + apply (containsSportsKeyword_g upper_char upper_lower upper_letter upper_other).
    + apply (containsSportsKeyword_g lower_char lower_lower lower_letter lower_other).
  - intro text. split.
    + apply (matchesSportsPropPattern_g upper_char upper_lower upper_letter
               upper_other).
    + apply (matchesSportsPropPattern_g lower_char lower_lower lower_letter
               lower_other).
  - intro text. split.
    + apply (matchesPriceThresholdPattern_g upper_char upper_lower upper_letter
               upper_other).
    + apply (matchesPriceThresholdPattern_g lower_char lower_lower lower_letter
               lower_other).
  - intro text. split.
    + apply (isAllowedTopic_g upper_char upper_lower).
    + apply (isAllowedTopic_g lower_char lower_lower).
  - split; vm_compute; reflexivity.
  - split; vm_compute; reflexivity.
Qed.

(** *** Allowed topics in the parts of the text *)

Lemma prefix_app n : forall a b,
  String.prefix n a = true -> String.prefix n (a ++ b)%string = true.
Proof.
  induction n as [|c n IH]; intros a b H;
    [destruct (a ++ b)%string; reflexivity|].
  destruct a as [|c' a]; [discriminate|]. cbn [String.prefix append] in *.
  destruct (ascii_dec c c'); [now apply IH | discriminate].
Qed.

Lemma includes_app_l n : forall a b,
  includes a n = true -> includes (a ++ b)%string n = true.
Proof.
  induction a as [|c a IH]; intros b H.
  - cbn [includes] in H.
    destruct (String.prefix n "") eqn:P; [|discriminate].
    pose proof (prefix_app n ""%string b P) as P'.
    destruct (""%string ++ b)%string; cbn [includes]; now rewrite P'.
  - cbn [includes append] in *.
    destruct (String.prefix n (String c a)) eqn:P.
    + pose proof (prefix_app n (String c a) b P) as P'.
      cbn [append] in P'. now rewrite P'.
    + destruct (String.prefix n (String c (a ++ b))); [reflexivity | now apply IH].
Qed.

Lemma includes_app_r n : forall a b,
  includes b n = true -> includes (a ++ b)%string n = true.
Proof.
  induction a as [|c a IH]; intros b H; [exact H|].
  cbn [includes append].
  destruct (String.prefix n (String c (a ++ b))); [reflexivity | now apply IH].
Qed.

Lemma map_string_app f a b :
  map_string f (a ++ b)%string = (map_string f a ++ map_string f b)%string.
Proof.
  induction a as [|c a IH]; cbn [map_string append]; [reflexivity | now rewrite IH].
Qed.

Lemma isAllowedTopic_app_l a b :
  Filters.isAllowedTopic a = true -> Filters.isAllowedTopic (a ++ b)%string = true.
Proof.
  unfold Filters.isAllowedTopic. cbv zeta. intro H.
  apply existsb_exists in H. destruct H as [topic [Hin H]].
  apply existsb_exists. exists topic. split; [exact Hin|].
  unfold toLowerCase at 1. rewrite map_string_app. now apply includes_app_l.
Qed.

Lemma isAllowedTopic_app_r a b :
  Filters.isAllowedTopic b = true -> Filters.isAllowedTopic (a ++ b)%string = true.
Proof.
  unfold Filters.isAllowedTopic. cbv zeta. intro H.
  apply existsb_exists in H. destruct H as [topic [Hin H]].
  apply existsb_exists. exists topic. split; [exact Hin|].
  unfold toLowerCase at 1. rewrite map_string_app. now apply includes_app_r.
Qed.

(** X11: an allowed topic in any one of the three fields keeps a
    market: when the title, the description or the category mentions an
    allowed topic, [shouldExcludeMarket] answers false whatever the
    other fields hold.  The topics are looked for as substrings, not as
    words: a title in which the letters "ai" occur anywhere, in either
    case, mentions the topic "AI", and is never excluded. *)
Theorem allowed_topic_in_any_field_keeps_the_market :
  forall (title description : string) (category : option string),
    (Filters.isAllowedTopic title
     || Filters.isAllowedTopic description
     || Filters.isAllowedTopic (or_empty category) = true ->
     Filters.shouldExcludeMarket title description category = false)
    /\ (forall before letters after : string,
          toLowerCase letters = "ai"%string ->
          Filters.shouldExcludeMarket (before ++ letters ++ after) description
            category = false).
Proof.
  intros title description category.
  assert (Hany : forall t,
            Filters.isAllowedTopic t
            || Filters.isAllowedTopic description
            || Filters.isAllowedTopic (or_empty category) = true ->
            Filters.shouldExcludeMarket t description category = false).
  { intros t H. unfold Filters.shouldExcludeMarket, Filters.combinedText.
    assert (Ha : Filters.isAllowedTopic
                   (t ++ " " ++ description ++ " " ++ or_empty category) = true).
    { apply orb_true_iff in H. destruct H as [H | H];
        [apply orb_true_iff in H; destruct H as [H | H]|].
      - now apply isAllowedTopic_app_l.
      - apply isAllowedTopic_app_r, isAllowedTopic_app_r.
        now apply isAllowedTopic_app_l.
      - now do 4 apply isAllowedTopic_app_r. }
    now rewrite Ha. }
  split; [apply Hany|].
  intros before letters after Hl. apply Hany.
  assert (Ht : Filters.isAllowedTopic (before ++ letters ++ after) = true).
  { apply isAllowedTopic_app_r, isAllowedTopic_app_l.
    unfold Filters.isAllowedTopic. cbv zeta. rewrite Hl. vm_compute. reflexivity. }
  now rewrite Ht.
Qed.

End CaseFacts.

(** ** What the adapters hand to the refresh *)

Module AdapterFacts.
Import Kalshi DataRefresh RefreshSpec AdapterSpec.

Lemma or_empty_or_undefined s : or_empty (or_undefined s) = s.
Proof. now destruct s. Qed.

Lemma shouldExcludeMarket_category title description c1 c2 :
  or_empty c1 = or_empty c2 ->
  Filters.shouldExcludeMarket title description c1
  = Filters.shouldExcludeMarket title description c2.
Proof.
  intro H. unfold Filters.shouldExcludeMarket, Filters.combinedText.
  now rewrite H.
Qed.

Lemma filter_map_Forall {A B : Type} (f : A -> option B) (P : B -> Prop) l :
  (forall a b, In a l -> f a = Some b -> P b) ->
  Forall P (filter_map f l).
Proof.
  induction l as [|a l IH]; intro H; cbn [filter_map]; [constructor|].
  destruct (f a) as [b|] eqn:E.
  - constructor; [apply (H a); [now left | exact E]|].
    apply IH. intros a' b' Hin. apply H. now right.
  - apply IH. intros a' b' Hin. apply H. now right.
Qed.

Lemma filter_map_In {A B : Type} (f : A -> option B) l b :
  In b (filter_map f l) <-> exists a, In a l /\ f a = Some b.
Proof.
  induction l as [|a l IH]; cbn [filter_map].
  - split; [intros [] | intros [a [[] _]]].
  - destruct (f a) as [b'|] eqn:E.
    + split.
      * intros [<- | H]; [exists a; split; [now left | exact E]|].
        apply IH in H. destruct H as [a' [Hin Ha]]. exists a'. split; [now right | exact Ha].
      * intros [a' [[<- | Hin] Ha]].
        -- left. congruence.
        -- right. apply IH. now exists a'.
    + rewrite IH. split.
      * intros [a' [Hin Ha]]. exists a'. split; [now right | exact Ha].
      * intros [a' [[<- | Hin] Ha]]; [congruence | now exists a'].
Qed.

Lemma kalshi_normalize_passes market nm :
  Kalshi.normalize market = Some nm ->
  excluded nm = false /\ source nm = kalshi
  /\ sportsTicker (marketId nm) = false /\ marketId nm = ticker market.
Proof.
  unfold Kalshi.normalize.
  destruct (sportsTicker (ticker market)) eqn:T; [discriminate|].
  destruct (Filters.shouldExcludeMarket _ _ _) eqn:E; [discriminate|].
  intro H. injection H as <-. unfold excluded.
  cbn [marketName description n_category marketId source].
  rewrite or_empty_or_undefined. split; [|now repeat split].
  rewrite <- E. apply shouldExcludeMarket_category.
  cbn [or_empty]. apply or_empty_or_undefined.
Qed.

Lemma polymarket_normalize_passes event market nm :
  Polymarket.normalize event market = Some nm ->
  excluded nm = false /\ source nm = polymarket
  /\ marketId nm = Polymarket.conditionId market
  /\ Polymarket.active market = true /\ Polymarket.closed market = false
  /\ Polymarket.enableOrderBook market = true.
Proof.
  unfold Polymarket.normalize.
  destruct (Polymarket.active market), (Polymarket.closed market),
    (Polymarket.enableOrderBook market); cbn [negb orb]; try discriminate.
  destruct (Filters.shouldExcludeMarket _ _ _) eqn:E; [discriminate|].
  intro H. injection H as <-. unfold excluded.
  cbn [marketName description n_category marketId source].
  rewrite or_empty_or_undefined. split; [|now repeat split].
  rewrite <- E. apply shouldExcludeMarket_category.
  cbn [or_empty]. apply or_empty_or_undefined.
Qed.

Lemma manifold_normalize_passes groupMap market nm :
  Manifold.normalize groupMap market = Some nm ->
  excluded nm = false /\ source nm = manifold
  /\ marketId nm = Manifold.id market
  /\ currentPrice nm = Manifold.normalizePrice (Manifold.probability market).
Proof.
  unfold Manifold.normalize.
  destruct (Filters.shouldExcludeMarket _ _ _) eqn:E; [discriminate|].
  intro H. injection H as <-. unfold excluded.
  cbn [marketName description n_category marketId source currentPrice].
  rewrite or_empty_or_undefined. split; [|now repeat split].
  rewrite <- E. apply shouldExcludeMarket_category.
  cbn [or_empty]. apply or_empty_or_undefined.
Qed.

Lemma polymarketMarkets_In env nm :
  In nm (polymarketMarkets env) ->
  exists event market,
    In event (fetched_items (polymarketFetched env))
    /\ In market (Polymarket.e_markets event)
    /\ Polymarket.normalize event market = Some nm.
Proof.
  unfold polymarketMarkets, Polymarket.fetchPolymarketMarkets, fetched_items.
  destruct (polymarketFetched env) as [f|]; cbn [catch]; [|intros []].
  intro H. apply in_flat_map in H. destruct H as [event [He Hm]].
  apply filter_map_In in Hm. destruct Hm as [market [Hm Hn]].
  now exists event, market.
Qed.

(** X12: every market the three adapters hand to the refresh passes the
    content filter when the filter is applied to the market's own
    stored name, description and category, and carries the tag of the
    adapter's source; a Kalshi market's identifier moreover contains
    none of the sports tickers. *)
Theorem adapters_yield_only_markets_that_pass_the_filter :
  forall env : Env,
    Forall (fun m => excluded m = false /\ source m = kalshi
                     /\ sportsTicker (marketId m) = false)
      (kalshiMarkets env)
    /\ Forall (fun m => excluded m = false /\ source m = polymarket)
         (polymarketMarkets env)
    /\ Forall (fun m => excluded m = false /\ source m = manifold)
         (manifoldMarkets env).
Proof.
  intro env. split; [|split].
  - unfold kalshiMarkets, fetchKalshiMarkets.
    destruct (kalshiFetched env) as [f|]; cbn [catch]; [|constructor].
    apply filter_map_Forall. intros a nm _ H.
    apply kalshi_normalize_passes in H. tauto.
  - apply Forall_forall. intros nm H.
    apply polymarketMarkets_In in H. destruct H as [event [market [_ [_ H]]]].
    apply polymarket_normalize_passes in H. tauto.
  - unfold manifoldMarkets, Manifold.fetchManifoldMarkets.
    destruct (manifoldFetched env) as [f|]; cbn [catch]; [|constructor].
    apply filter_map_Forall. intros a nm _ H.
    apply manifold_normalize_passes in H. tauto.
Qed.

(** *** Distinct identifiers give distinct keys *)

Lemma filter_map_NoDup {A : Type} (f : A -> option NormalizedMarket)
  (g : A -> Key) l :
  (forall a nm, f a = Some nm -> key_of nm = g a) ->
  NoDup (map g l) ->
  NoDup (map key_of (filter_map f l)).
Proof.
  intro Hk. induction l as [|a l IH]; intro Hnd; cbn [filter_map map] in *.
  - constructor.
  - inversion Hnd as [|x xs Hnotin Hnd']. subst.
    destruct (f a) as [nm|] eqn:E; [|now apply IH].
    cbn [map]. constructor; [|now apply IH].
    intro Hin. apply in_map_iff in Hin. destruct Hin as [nm' [Hk' Hin]].
    apply filter_map_In in Hin. destruct Hin as [a' [Hin Ha']].
    apply Hnotin. apply in_map_iff. exists a'. split; [|exact Hin].
    rewrite <- (Hk a' nm' Ha'), Hk'. now apply Hk.
Qed.

Lemma NoDup_app_parts_inv {A : Type} (l1 l2 : list A) :
  NoDup l1 -> NoDup l2 -> (forall x, In x l1 -> In x l2 -> False) ->
  NoDup (l1 ++ l2).
Proof.
  induction l1 as [|a l1 IH]; cbn [app]; intros H1 H2 Hd; [exact H2|].
  inversion H1 as [|? ? Hnotin Hnd]; subst. constructor.
  - intro C. apply in_app_or in C. destruct C as [C | C]; [now apply Hnotin|].
    apply (Hd a); [now left | exact C].
  - apply IH; [exact Hnd | exact H2|]. intros x Hx. apply Hd. now right.
Qed.

Lemma map_fst_injective_NoDup (src : Source) (ids : list string) :
  NoDup ids -> NoDup (map (fun id => (id, src)) ids).
Proof.
  intro H. induction H as [|x0 l0 Hx Hl IH]; cbn [map]; [constructor|].
  constructor; [|exact IH].
  intro C. apply in_map_iff in C. destruct C as [y [Hy Hin]].
  injection Hy as ->. contradiction.
Qed.

Lemma kalshiMarkets_NoDup env :
  NoDup (kalshi_ids env) -> NoDup (map key_of (kalshiMarkets env)).
Proof.
  unfold kalshi_ids, kalshiMarkets, fetchKalshiMarkets, fetched_items.
  destruct (kalshiFetched env) as [f|]; cbn [catch]; [|constructor].
  intro H. apply (filter_map_NoDup Kalshi.normalize (fun m => (ticker m, kalshi))).
  - intros a nm Ha. apply kalshi_normalize_passes in Ha.
    destruct Ha as [_ [Hs [_ Hi]]]. unfold key_of. now rewrite Hs, Hi.
  - apply (map_fst_injective_NoDup kalshi) in H. now rewrite map_map in H.
Qed.

Lemma manifoldMarkets_NoDup env :
  NoDup (manifold_ids env) -> NoDup (map key_of (manifoldMarkets env)).
Proof.
  unfold manifold_ids, manifoldMarkets, Manifold.fetchManifoldMarkets, fetched_items.
  destruct (manifoldFetched env) as [f|]; cbn [catch]; [|constructor].
  intro H.
  apply (filter_map_NoDup (Manifold.normalize _) (fun m => (Manifold.id m, manifold))).
  - intros a nm Ha. apply manifold_normalize_passes in Ha.
    destruct Ha as [_ [Hs [Hi _]]]. unfold key_of. now rewrite Hs, Hi.
  - apply (map_fst_injective_NoDup manifold) in H. now rewrite map_map in H.
Qed.

Lemma polymarket_events_NoDup (events : list Polymarket.PolymarketEvent) :
  NoDup (map Polymarket.conditionId (flat_map Polymarket.e_markets events)) ->
  NoDup (map key_of
           (flat_map (fun event =>
                        filter_map (Polymarket.normalize event)
                          (Polymarket.e_markets event)) events)).
Proof.
  induction events as [|event events IH]; cbn [flat_map]; [constructor|].
  rewrite !map_app. intro H. apply RefreshFacts.NoDup_app_parts in H.
  destruct H as [H1 [H2 Hd]].
  apply NoDup_app_parts_inv.
  - apply (filter_map_NoDup (Polymarket.normalize event)
             (fun m => (Polymarket.conditionId m, polymarket))).
    + intros a nm Ha. apply polymarket_normalize_passes in Ha.
      destruct Ha as [_ [Hs [Hi _]]]. unfold key_of. now rewrite Hs, Hi.
    + apply (map_fst_injective_NoDup polymarket) in H1. now rewrite map_map in H1.
  - now apply IH.
  - intros k Hk1 Hk2.
    apply in_map_iff in Hk1. destruct Hk1 as [nm1 [<- Hin1]].
    apply filter_map_In in Hin1. destruct Hin1 as [m1 [Hm1 Hn1]].
    apply in_map_iff in Hk2. destruct Hk2 as [nm2 [Hk2 Hin2]].
    apply in_flat_map in Hin2. destruct Hin2 as [event2 [He2 Hin2]].
    apply filter_map_In in Hin2. destruct Hin2 as [m2 [Hm2 Hn2]].
    apply polymarket_normalize_passes in Hn1, Hn2.
    destruct Hn1 as [_ [_ [Hi1 _]]]. destruct Hn2 as [_ [_ [Hi2 _]]].
    apply (Hd (Polymarket.conditionId m1)).
    + now apply in_map.
    + assert (Polymarket.conditionId m1 = Polymarket.conditionId m2) as ->.
      { rewrite <- Hi1, <- Hi2. unfold key_of in Hk2. congruence. }
      apply in_map. apply in_flat_map. now exists event2.
Qed.

Lemma polymarketMarkets_NoDup env :
  NoDup (polymarket_ids env) -> NoDup (map key_of (polymarketMarkets env)).
Proof.
  unfold polymarket_ids, polymarketMarkets, Polymarket.fetchPolymarketMarkets,
    fetched_items.
  destruct (polymarketFetched env) as [f|]; cbn [catch]; [|constructor].
  apply polymarket_events_NoDup.
Qed.

Lemma keys_of_source src l :
  Forall (fun m => source m = src) l ->
  forall k, In k (map key_of l) -> snd k = src.
Proof.
  intros H k Hk. apply in_map_iff in Hk. destruct Hk as [m [<- Hin]].
  rewrite Forall_forall in H. now apply H.
Qed.

(** X13: when the raw records of each source carry pairwise distinct
    identifiers (Kalshi tickers, Polymarket condition ids over all
    events, Manifold ids), the markets a refresh processes have pairwise
    distinct keys (identifier and source): the adapters copy the
    identifier, drop records without reordering, and tag each source
    differently. *)
Theorem distinct_identifiers_give_distinct_keys :
  forall env : Env,
    NoDup (kalshi_ids env) ->
    NoDup (polymarket_ids env) ->
    NoDup (manifold_ids env) ->
    NoDup (map key_of (processed env)).
Proof.
  intros env Hk Hp Hm. unfold processed. rewrite !map_app.
  pose proof (keys_of_source kalshi _ (RefreshFacts.kalshiMarkets_source env)) as Sk.
  pose proof (keys_of_source polymarket _ (RefreshFacts.polymarketMarkets_source env)) as Sp.
  pose proof (keys_of_source manifold _ (RefreshFacts.manifoldMarkets_source env)) as Sm.
  apply NoDup_app_parts_inv; [now apply kalshiMarkets_NoDup | |].
  - apply NoDup_app_parts_inv;
      [now apply polymarketMarkets_NoDup | now apply manifoldMarkets_NoDup |].
    intros k H1 H2. apply Sp in H1. apply Sm in H2. congruence.
  - intros k H1 H2. apply Sk in H1. apply in_app_or in H2.
    destruct H2 as [H2 | H2]; [apply Sp in H2 | apply Sm in H2]; congruence.
Qed.

Lemma distinct_identifiers_give_distinct_keys_witness :
  NoDup (map key_of (processed Samples.env_two)).
Proof.
  apply (distinct_identifiers_give_distinct_keys Samples.env_two).
  - vm_compute. repeat constructor; simpl; intuition discriminate.
  - vm_compute. repeat constructor; simpl; intuition discriminate.
  - vm_compute. repeat constructor; simpl; intuition discriminate.
Defined.

(** Rounding a percentage: the result is less than half a point
    away. *)
Lemma Math_round_near (x : number) :
  (Qabs (inject_Z (Math_round x) - x) <= 1 # 2)%Q.
Proof.
  unfold Math_round.
  pose proof (Qfloor_le (x + (1 # 2))) as Hlo.
  pose proof (Qlt_floor (x + (1 # 2))) as Hhi.
  rewrite inject_Z_plus in Hhi. change (inject_Z 1) with 1%Q in Hhi.
  apply Qabs_case; intro; lra.
Qed.

(** X14: the markets [fetchAllManifoldMarkets] resolves to are all
    unresolved and binary and have a [probability] key, whose value may
    be [null].  The price of each market [fetchManifoldMarkets] returns
    comes from a gathered market with the same identifier: it is 50
    when that market's probability is [null], and for a probability [p]
    between 0 and 1 it is an integer between 0 and 100 less than one
    point away from [100 * p]. *)
Theorem manifold_price_follows_the_probability :
  forall (fuel : nat) (api : Api (list Manifold.ManifoldMarket))
         (groupApi : string -> nat -> Attempt Manifold.ManifoldGroup),
    match Manifold.fetchAllManifoldMarkets fuel api with
    | Some (Resolved f) =>
        Forall
          (fun m =>
             Manifold.isResolved m = false
             /\ Manifold.outcomeType m = Manifold.BINARY
             /\ Manifold.probability m <> Manifold.ProbabilityUndefined)
          (items f)
        /\ exists ms,
             Manifold.fetchManifoldMarkets (Resolved f) groupApi = Resolved ms
             /\ Forall
                  (fun nm =>
                     exists m,
                       In m (items f)
                       /\ Manifold.id m = marketId nm
                       /\ match Manifold.probability m with
                          | Manifold.ProbabilityUndefined => False
                          | Manifold.ProbabilityNull =>
                              currentPrice nm = Finite 50%Q
                          | Manifold.ProbabilityOf p =>
                              (0 <= p <= 1)%Q ->
                              exists price : Z,
                                currentPrice nm = Finite (inject_Z price)
                                /\ 0 <= price <= 100
                                /\ (Qabs (inject_Z price - p * 100) < 1)%Q
                          end)
                  ms
    | Some Rejected =>
        Manifold.fetchManifoldMarkets Rejected groupApi = Rejected
    | None => True
    end.
Proof.
  intros fuel api groupApi. unfold Manifold.fetchAllManifoldMarkets.
  pose proof (PaginationMore.manifold_loop_active api fuel 0 [] (Forall_nil _)) as H.
  destruct (Manifold.fetchAllManifoldMarkets_loop fuel api 0 []) as [[f|]|];
    [|reflexivity|exact I].
  assert (Hact : forall m, In m (items f) ->
                   Manifold.isResolved m = false
                   /\ Manifold.outcomeType m = Manifold.BINARY
                   /\ Manifold.probability m <> Manifold.ProbabilityUndefined).
  { intros m Hin. rewrite Forall_forall in H. specialize (H m Hin).
    unfold PaginationSpec.manifold_active in H.
    apply andb_true_iff in H. destruct H as [H Hp].
    apply andb_true_iff in H. destruct H as [Hr Hb].
    apply negb_true_iff in Hr.
    split; [exact Hr|]. split.
    - now destruct (Manifold.outcomeType m).
    - intro C. rewrite C in Hp. discriminate. }
  split; [now apply Forall_forall|].
  unfold Manifold.fetchManifoldMarkets. eexists. split; [reflexivity|].
  apply filter_map_Forall. intros m nm Hin Hn.
  apply manifold_normalize_passes in Hn. destruct Hn as [_ [_ [Hi Hp]]].
  exists m. split; [exact Hin|]. split; [now rewrite Hi|].
  destruct (Hact m Hin) as [_ [_ Hdef]].
  destruct (Manifold.probability m) as [| |p] eqn:P;
    [now apply Hdef | exact Hp |].
  intro Hr. rewrite Hp. cbn [Manifold.normalizePrice round_percent].
  rewrite NormalizationFacts.to_double_small by (destruct Hr; split; lra).
  exists (Math_round (p * 100)%Q). split; [reflexivity|].
  pose proof (NormalizationFacts.Math_round_percent_range p Hr) as [Hlo Hhi].
  split; [split; rewrite Zle_Qle; assumption|].
  eapply Qle_lt_trans; [apply Math_round_near | reflexivity].
Qed.

(** *** Where the adapters' markets come from *)

(** X15: every market [fetchPolymarketMarkets] returns stems from a
    market of a fetched event that is active, not closed and has its
    order book enabled; it carries that market's condition id and
    question, the price [getYesPrice] reads from it, the title of its
    event and the event's page as both URLs.  When the pagination threw,
    [fetchPolymarketMarkets] throws; when it resolved,
    [fetchPolymarketMarkets] resolves. *)
Theorem polymarket_returns_only_open_order_book_markets :
  forall fetched : Outcome (Fetched Polymarket.PolymarketEvent),
    match fetched with
    | Resolved f =>
        exists ms,
          Polymarket.fetchPolymarketMarkets fetched = Resolved ms
          /\ Forall
               (fun nm =>
                  exists event market,
                    In event (items f)
                    /\ In market (Polymarket.e_markets event)
                    /\ Polymarket.active market = true
                    /\ Polymarket.closed market = false
                    /\ Polymarket.enableOrderBook market = true
                    /\ marketId nm = Polymarket.conditionId market
                    /\ marketName nm = Polymarket.question market
                    /\ currentPrice nm = Polymarket.getYesPrice market
                    /\ eventName nm = Polymarket.e_title event
                    /\ marketUrl nm = Polymarket.buildMarketUrl (Polymarket.slug event)
                    /\ eventUrl nm = Some (marketUrl nm))
               ms
    | Rejected => Polymarket.fetchPolymarketMarkets fetched = Rejected
    end.
Proof.
  intros [f|]; cbn [Polymarket.fetchPolymarketMarkets]; [|reflexivity].
  eexists. split; [reflexivity|].
  apply Forall_forall. intros nm H.
  apply in_flat_map in H. destruct H as [event [He Hm]].
  apply filter_map_In in Hm. destruct Hm as [market [Hm Hn]].
  exists event, market.
  pose proof (polymarket_normalize_passes event market nm Hn)
    as [_ [_ [Hid [Ha [Hc Ho]]]]].
  unfold Polymarket.normalize in Hn. rewrite Ha, Hc, Ho in Hn. cbn [negb orb] in Hn.
  destruct (Filters.shouldExcludeMarket _ _ _); [discriminate|].
  injection Hn as <-. cbn [marketId marketName currentPrice eventName marketUrl eventUrl].
  now repeat split.
Qed.

Lemma unique_In l : forall seen x, In x (Manifold.unique l seen) -> In x l.
Proof.
  induction l as [|y l IH]; intros seen x H; cbn [Manifold.unique] in H; [destruct H|].
  destruct (existsb (String.eqb y) seen).
  - right. now apply (IH seen).
  - destruct H as [<- | H]; [now left | right; now apply (IH (y :: seen))].
Qed.

Lemma fetchGroupDetails_In groupApi slugs s group :
  In (s, group) (Manifold.fetchGroupDetails groupApi slugs) ->
  exists requested status,
    In requested slugs
    /\ fetchWithRetry (groupApi requested) = Resolved (status, group)
    /\ ok status = true
    /\ s = Manifold.g_slug group.
Proof.
  unfold Manifold.fetchGroupDetails. intro H. apply in_flat_map in H.
  destruct H as [requested [Hr H]]. apply unique_In in Hr.
  destruct (fetchWithRetry (groupApi requested)) as [[status g]|] eqn:F; [|destruct H].
  destruct (ok status) eqn:O; [|destruct H].
  destruct H as [H | []]. injection H as <- <-.
  now exists requested, status.
Qed.

Lemma groupMap_get_In groupMap slug group :
  Manifold.groupMap_get groupMap slug = Some group -> In (slug, group) groupMap.
Proof.
  unfold Manifold.groupMap_get. intro H.
  destruct (find _ (rev groupMap)) as [[s g]|] eqn:F; [|discriminate].
  cbn [option_map snd] in H. injection H as ->.
  apply find_some in F. destruct F as [Hin Heq]. cbn [fst] in Heq.
  apply String.eqb_eq in Heq. subst s. now apply in_rev.
Qed.

(** X16: the event name and category [fetchManifoldMarkets] gives a
    market.  A market without group slugs is filed under "General".
    Otherwise the name is either the market's first slug, or the name of
    a group the group endpoint delivered with an ok status for one of
    the slugs of the fetched markets, the group's own slug being one of
    the slugs of the market.  When every group request fails the name is
    therefore the first slug. *)
Theorem manifold_event_name_is_group_name_or_first_slug :
  forall (f : Fetched Manifold.ManifoldMarket)
         (groupApi : string -> nat -> Attempt Manifold.ManifoldGroup),
    exists ms,
      Manifold.fetchManifoldMarkets (Resolved f) groupApi = Resolved ms
      /\ Forall
           (fun nm =>
              exists m,
                In m (items f) /\ Manifold.id m = marketId nm
                /\ n_category nm = or_undefined (eventName nm)
                /\ match Manifold.groupSlugs m with
                   | None | Some [] => eventName nm = "General"
                   | Some (first :: rest) =>
                       eventName nm = first
                       \/ exists requested status group,
                            fetchWithRetry (groupApi requested)
                            = Resolved (status, group)
                            /\ ok status = true
                            /\ In (Manifold.g_slug group) (first :: rest)
                            /\ eventName nm = Manifold.g_name group
                   end)
           ms.
Proof.
  intros f groupApi. unfold Manifold.fetchManifoldMarkets.
  eexists. split; [reflexivity|].
  set (groupMap := Manifold.fetchGroupDetails groupApi _).
  apply filter_map_Forall. intros m nm Hin Hn.
  exists m. split; [exact Hin|].
  unfold Manifold.normalize in Hn.
  destruct (Filters.shouldExcludeMarket _ _ _); [discriminate|].
  injection Hn as <-. cbn [marketId n_category eventName].
  split; [reflexivity|]. split; [reflexivity|].
  unfold Manifold.getPrimaryGroupName.
  destruct (Manifold.groupSlugs m) as [[|first rest]|]; [reflexivity| |reflexivity].
  destruct (find _ (first :: rest)) as [slug|] eqn:F; [|now left].
  destruct (Manifold.groupMap_get groupMap slug) as [group|] eqn:G; [|now left].
  right. apply find_some in F. destruct F as [Hslug _].
  apply groupMap_get_In in G. apply fetchGroupDetails_In in G.
  destruct G as [requested [status [_ [Hf [Hok Hs]]]]].
  exists requested, status, group. rewrite <- Hs. now repeat split.
Qed.

End AdapterFacts.

(** ** The price-change engine over many markets *)

Module PriceCalculatorMore.
Import PriceCalculator PriceCalculatorBatch PriceCalculatorFacts.

Lemma fold_left_app_map {A B : Type} (f : A -> B) (bs : list (list A)) :
  forall acc,
    fold_left (fun results batch => results ++ map f batch) bs acc
    = acc ++ map f (List.concat bs).
Proof.
  induction bs as [|b bs IH]; intro acc; cbn [fold_left List.concat map].
  - now rewrite app_nil_r.
  - rewrite IH, map_app. now rewrite app_assoc.
Qed.

(** X17: [calculatePriceChanges] returns one entry per market, in the
    order of its input, each entry being the market with the price
    changes [calculatePriceChangesForMarket] computes for it at the same
    instant: the batches of ten do not show in the result. *)
Theorem calculatePriceChanges_is_per_market :
  forall (markets : list MarketWithPrices) (now : Date)
         (coll : list HistoricalPrice.IHistoricalPrice),
    calculatePriceChanges markets now coll
    = map (fun market =>
             mkMarketWithPriceChanges market
               (fst (calculatePriceChangesForMarket market now coll)))
        markets
    /\ List.length (calculatePriceChanges markets now coll) = List.length markets.
Proof.
  intros markets now coll.
  assert (H : calculatePriceChanges markets now coll
              = map (withPriceChanges now coll) markets).
  { unfold calculatePriceChanges. rewrite fold_left_app_map. cbn [app].
    unfold DataRefresh.batches.
    rewrite RefreshFacts.concat_batches_fuel;
      [reflexivity | unfold BATCH_SIZE; lia | reflexivity]. }
  split; [exact H|]. rewrite H. apply length_map.
Qed.

Lemma filter_filter_implied {A : Type} (p q : A -> bool) l :
  (forall x, p x = true -> q x = true) ->
  filter p (filter q l) = filter p l.
Proof.
  intro H. induction l as [|x l IH]; cbn [filter]; [reflexivity|].
  destruct (q x) eqn:Q; cbn [filter].
  - now rewrite IH.
  - destruct (p x) eqn:P; [|exact IH].
    apply H in P. congruence.
Qed.

Lemma priorPriceAt_read_by market now p coll :
  fst (priorPriceAt market (now - lookback_ms p) coll)
  = fst (priorPriceAt market (now - lookback_ms p)
           (filter (read_by market now) coll)).
Proof.
  rewrite !priorPriceAt_run.
  destruct (marketExistedAt market (now - lookback_ms p)) eqn:E; [|reflexivity].
  cbn [fst]. unfold HistoricalPrice.findOne_newest.
  rewrite filter_filter_implied; [reflexivity|].
  intros h Hm. unfold read_by.
  destruct p; cbn [existsb lookback_ms] in *; rewrite E, Hm;
    cbn [andb orb]; rewrite ?orb_true_r; reflexivity.
Qed.

(** X18: the price changes of a market depend only on the snapshots its
    lookups can return, those with the market's identifier and source
    that lie within four hours of a lookback instant at which the market
    existed.  Removing every other snapshot from the history (those of
    other markets, of the same identifier at another source, or outside
    the three windows) leaves the result unchanged. *)
Theorem price_changes_depend_on_own_windows_only :
  forall (market : MarketWithPrices) (now : Date)
         (coll : list HistoricalPrice.IHistoricalPrice),
    fst (calculatePriceChangesForMarket market now coll)
    = fst (calculatePriceChangesForMarket market now
             (filter (read_by market now) coll))
    /\ forall h, read_by market now h = true ->
         HistoricalPrice.marketId h = marketId market
         /\ HistoricalPrice.source h = source market
         /\ exists p, marketExistedAt market (now - lookback_ms p) = true
                      /\ Z.abs (HistoricalPrice.timestamp h - (now - lookback_ms p))
                         <= TIME_TOLERANCE_MS.
Proof.
  intros market now coll. split.
  - rewrite !calculatePriceChangesForMarket_run. cbv zeta. cbn [fst].
    pose proof (priorPriceAt_read_by market now OneDay coll) as Hd.
    pose proof (priorPriceAt_read_by market now OneWeek coll) as Hw.
    pose proof (priorPriceAt_read_by market now OneMonth coll) as Hm.
    cbn [lookback_ms] in Hd, Hw, Hm. now rewrite <- Hd, <- Hw, <- Hm.
  - intros h H. unfold read_by in H. apply existsb_exists in H.
    destruct H as [p [_ H]]. apply andb_true_iff in H. destruct H as [He Hm].
    apply matches_in_window in Hm. destruct Hm as [H1 [H2 H3]].
    split; [exact H1|]. split; [exact H2|]. now exists p.
Qed.

Lemma Math_round_range (x : number) :
  (-100 <= x)%Q -> (x <= 100)%Q -> -100 <= Math_round x <= 100.
Proof.
  intros Hlo Hhi. unfold Math_round. split.
  - change (-100) with (Qfloor (inject_Z (-100))). apply Qfloor_resp_le.
    unfold inject_Z. lra.
  - change 100 with (Qfloor (201 # 2)). apply Qfloor_resp_le. lra.
Qed.

(** X19: price changes stay on the price scale.  When the current price
    of a market and the prices of the snapshots of the history lie
    between 0 and 100, every prior price the engine reports lies between
    0 and 100 and every price change between -100 and 100. *)
Theorem price_changes_stay_on_the_scale :
  forall (market : MarketWithPrices) (now : Date)
         (coll : list HistoricalPrice.IHistoricalPrice) (p : Lookback),
    (0 <= currentPrice market)%Q -> (currentPrice market <= 100)%Q ->
    Forall (fun h => (0 <= HistoricalPrice.price h)%Q
                     /\ (HistoricalPrice.price h <= 100)%Q) coll ->
    let c := fst (calculatePriceChangesForMarket market now coll) in
    match priorPrice p c with
    | Some prior => (0 <= prior)%Q /\ (prior <= 100)%Q
    | None => True
    end
    /\ match priceChange p c with
       | Some change => -100 <= change <= 100
       | None => True
       end.
Proof.
  intros market now coll p Hlo Hhi Hcoll. cbv zeta.
  pose proof (priceChange_run market now coll p) as Hc. cbv zeta in Hc.
  rewrite Hc. clear Hc. rewrite priorPrice_run, priorPriceAt_run.
  destruct (marketExistedAt market (now - lookback_ms p)); [|now split].
  cbn [fst].
  pose proof (findOne_newest_window market (now - lookback_ms p) coll) as Hw.
  destruct (HistoricalPrice.findOne_newest _ coll) as [h|]; [|now split].
  cbn [option_map calculatePriceChange] in *.
  destruct Hw as [h' [Hin [_ [Hp _]]]].
  rewrite Forall_forall in Hcoll. destruct (Hcoll h' Hin) as [H0 H100].
  rewrite Hp in H0, H100. split; [now split|].
  apply Math_round_range; lra.
Qed.

Lemma price_changes_stay_on_the_scale_witness :
  let c := fst (calculatePriceChangesForMarket Samples.market70 Samples.now0
                  Samples.history38) in
  match priorPrice OneDay c with
  | Some prior => (0 <= prior)%Q /\ (prior <= 100)%Q
  | None => True
  end
  /\ match priceChange OneDay c with
     | Some change => -100 <= change <= 100
     | None => True
     end.
Proof.
  apply (price_changes_stay_on_the_scale Samples.market70 Samples.now0
           Samples.history38 OneDay).
  - vm_compute. discriminate.
  - vm_compute. discriminate.
  - repeat constructor; vm_compute; discriminate.
Defined.

End PriceCalculatorMore.

(** ** The refresh, whichever store operations fail *)

Module RefreshMore.
Import Market DataRefresh RefreshSpec RefreshMoreSpec RefreshFrame RefreshFacts.

(** *** From one batch to a whole refresh

    A relation between the markets processed and the stores before and
    after that holds of the empty list, composes over concatenation and
    holds of each batch whose faults are [good], holds of a refresh. *)

Section Lifting.

Variable now : Date.
Variable good : Faults -> Prop.
Variable Q : list Kalshi.NormalizedMarket -> Store -> Store -> Prop.

Hypothesis Q_nil : forall db, Q [] db db.
Hypothesis Q_compose :
  forall l1 l2 db db1 db2, Q l1 db db1 -> Q l2 db1 db2 -> Q (l1 ++ l2) db db2.
Hypothesis Q_batch :
  forall src f batch db r,
    good f ->
    Forall (fun m => Kalshi.source m = src) batch ->
    Q batch db (fst (processBatch src now f batch (db, r))).

Lemma processBatches_lift src faults bs :
  (forall i, good (faults i)) ->
  Forall (fun m => Kalshi.source m = src) (List.concat bs) ->
  forall i db r,
    Q (List.concat bs) db (fst (processBatches src now faults i bs (db, r))).
Proof.
  intro Hg. induction bs as [|batch bs IH]; intros Hsrc i db r;
    cbn [processBatches List.concat] in *.
  - apply Q_nil.
  - apply Forall_app in Hsrc. destruct Hsrc as [Hs1 Hs2].
    pose proof (Q_batch src (faults i) batch db r (Hg i) Hs1) as H1.
    destruct (processBatch src now (faults i) batch (db, r)) as [db1 r1].
    eapply Q_compose; [exact H1 | now apply IH].
Qed.

Lemma processMarkets_lift markets src faults db :
  (forall i, good (faults i)) ->
  Forall (fun m => Kalshi.source m = src) markets ->
  Q markets db (fst (processMarkets markets src now faults db)).
Proof.
  intros Hg Hsrc. unfold processMarkets.
  destruct markets as [|m ms] eqn:E; [apply Q_nil|].
  rewrite <- E in *. clear E.
  rewrite <- (concat_batches markets) at 1.
  apply processBatches_lift; [exact Hg | now rewrite concat_batches].
Qed.

Lemma refresh_lift env db :
  dbConnect env = Resolved tt ->
  (forall s i, good (faults env s i)) ->
  Q (processed env) db (snd (refreshAllMarkets env now db)).
Proof.
  intros Hconn Hg.
  rewrite (RefreshSummaryFacts.refreshAllMarkets_run env now db Hconn).
  cbv zeta. cbn [snd]. unfold processed.
  eapply Q_compose;
    [apply processMarkets_lift; [apply Hg | apply kalshiMarkets_source]|].
  eapply Q_compose;
    [apply processMarkets_lift; [apply Hg | apply polymarketMarkets_source]|].
  apply processMarkets_lift; [apply Hg | apply manifoldMarkets_source].
Qed.

End Lifting.

Lemma refresh_no_connection env now db :
  dbConnect env = Rejected -> refreshAllMarkets env now db = (Rejected, db).
Proof. intro H. unfold refreshAllMarkets. now rewrite H. Qed.

Lemma dbConnect_cases env :
  dbConnect env = Resolved tt \/ dbConnect env = Rejected.
Proof. destruct (dbConnect env) as [[]|]; auto. Qed.

Lemma refreshAllMarkets_extends env now db :
  extends (marketColl db) (marketColl (snd (refreshAllMarkets env now db))).
Proof.
  destruct (dbConnect_cases env) as [H | H].
  - apply (refresh_lift now (fun _ => True)
             (fun _ db db' => extends (marketColl db) (marketColl db'))).
    + intros. apply extends_refl.
    + intros l1 l2 d d1 d2. apply extends_trans.
    + intros. apply processBatch_extends.
    + exact H.
    + exact (fun _ _ => I).
  - rewrite (refresh_no_connection env now db H). apply extends_refl.
Qed.

(** *** The history, whichever store operations fail *)

Lemma In_select_from {A : Type} (x : A) written l :
  forall i, In x (select_from i written l) -> In x l.
Proof.
  induction l as [|y l IH]; intros i H; cbn [select_from] in H; [destruct H|].
  destruct (written i); [destruct H as [<- | H]; [now left|]|];
    right; now apply (IH (S i)).
Qed.

Lemma length_filter_select_from {A : Type} (p : A -> bool) written l :
  forall i,
    (List.length (filter p (select_from i written l)) <= List.length (filter p l))%nat.
Proof.
  induction l as [|y l IH]; intro i; cbn [select_from filter]; [lia|].
  specialize (IH (S i)).
  destruct (written i); cbn [filter]; destruct (p y); cbn [List.length]; lia.
Qed.

Lemma length_filter_filter {A : Type} (p q : A -> bool) l :
  (List.length (filter p (filter q l)) <= List.length (filter p l))%nat.
Proof.
  induction l as [|y l IH]; cbn [filter]; [lia|].
  destruct (q y); cbn [filter]; destruct (p y); cbn [List.length]; lia.
Qed.

Lemma length_filter_all {A : Type} (p : A -> bool) l :
  (List.length (filter p l) <= List.length l)%nat.
Proof.
  induction l as [|y l IH]; cbn [filter]; [lia|].
  destruct (p y); cbn [List.length]; lia.
Qed.

(** What reaches the history is part of what the batch collected. *)
Lemma recorded_In f S h :
  In h (filter HistoricalPrice.valid (recorded f S)) ->
  In h S /\ HistoricalPrice.marketId h <> "".
Proof.
  intro H. apply filter_In in H. destruct H as [Hin Hv]. split.
  - unfold recorded in Hin. destruct (find_throws f); [destruct Hin|].
    destruct (insertMany_rejects f); [|exact Hin].
    now apply In_select_from in Hin.
  - unfold HistoricalPrice.valid in Hv. apply negb_true_iff in Hv.
    now apply String.eqb_neq in Hv.
Qed.

Lemma recorded_length f S (p : HistoricalPrice.IHistoricalPrice -> bool) :
  (List.length (filter p (filter HistoricalPrice.valid (recorded f S)))
   <= List.length (filter p S))%nat.
Proof.
  etransitivity; [apply length_filter_filter|].
  unfold recorded. destruct (find_throws f); [cbn; lia|].
  destruct (insertMany_rejects f); [apply length_filter_select_from | lia].
Qed.

Lemma occurrences_app k l1 l2 :
  occurrences k (l1 ++ l2) = (occurrences k l1 + occurrences k l2)%nat.
Proof. unfold occurrences. now rewrite filter_app, length_app. Qed.

(** What a batch collects at [now]: snapshots stamped [now] of markets
    of the batch that have a document, at most one per market. *)
Lemma raw_snapshots_facts now coll batch :
  let collected :=
    flat_map (fun m => match stored coll (key_of m) with
                       | Some e => [snapshot now e]
                       | None => []
                       end) batch in
  Forall (fun h => HistoricalPrice.timestamp h = now
                   /\ among (snapshot_key h) batch = true
                   /\ rows coll (snapshot_key h) <> []) collected
  /\ (List.length collected <= List.length batch)%nat
  /\ forall k, (List.length (snapshots_for k collected) <= occurrences k batch)%nat.
Proof.
  cbv zeta. induction batch as [|m batch [IH1 [IH2 IH3]]]; cbn [flat_map].
  - split; [constructor|]. split; [cbn [List.length]; lia|].
    intro k. cbn. lia.
  - split; [|split].
    + apply Forall_app. split.
      * destruct (stored coll (key_of m)) as [e|] eqn:S; [|constructor].
        constructor; [|constructor].
        pose proof (stored_key _ _ _ S) as [_ Hk].
        assert (Hs : snapshot_key (snapshot now e) = key_of m) by exact Hk.
        rewrite Hs. split; [reflexivity|]. split.
        -- apply among_true. exists m. split; [now left | reflexivity].
        -- intro C. apply stored_none in C. congruence.
      * eapply Forall_impl; [|exact IH1]. cbv beta.
        intros h [H1 [H2 H3]]. split; [exact H1|]. split; [|exact H3].
        apply among_true in H2. destruct H2 as [m' [Hin Hk]].
        apply among_true. exists m'. split; [now right | exact Hk].
    + rewrite length_app. cbn [List.length].
      assert (List.length match stored coll (key_of m) with
                          | Some e => [snapshot now e]
                          | None => []
                          end <= 1)%nat.
      { destruct (stored coll (key_of m)); cbn [List.length]; lia. }
      lia.
    + intro k. rewrite snapshots_for_app, length_app.
      change (m :: batch) with ([m] ++ batch). rewrite occurrences_app.
      specialize (IH3 k).
      assert (List.length
                (snapshots_for k match stored coll (key_of m) with
                                 | Some e => [snapshot now e]
                                 | None => []
                                 end) <= occurrences k [m])%nat.
      { unfold occurrences. cbn [filter].
        destruct (stored coll (key_of m)) as [e|] eqn:S; [|cbn; lia].
        pose proof (stored_key _ _ _ S) as [_ Hk].
        unfold snapshots_for. cbn [filter].
        change (snapshot_key (snapshot now e)) with (row_key e). rewrite Hk.
        destruct (key_eqb (key_of m) k); cbn [List.length]; lia. }
      lia.
Qed.

Lemma processBatch_history src now f batch db r :
  Forall (fun m => Kalshi.source m = src) batch ->
  exists added,
    historyColl (fst (processBatch src now f batch (db, r)))
    = historyColl db ++ added
    /\ Forall (fun h => HistoricalPrice.timestamp h = now
                        /\ HistoricalPrice.marketId h <> ""
                        /\ among (snapshot_key h) batch = true
                        /\ rows (marketColl db) (snapshot_key h) <> []) added
    /\ (List.length added <= List.length batch)%nat
    /\ forall k, (List.length (snapshots_for k added) <= occurrences k batch)%nat.
Proof.
  intro Hsrc. eexists. split; [apply processBatch_historyColl|].
  rewrite (historicalSnapshots_raw batch src (marketColl db) now Hsrc).
  pose proof (raw_snapshots_facts now (marketColl db) batch) as Hfacts.
  cbv zeta in Hfacts. set (collected := flat_map _ batch) in *.
  destruct Hfacts as [F1 [F2 F3]].
  split; [|split].
  - apply Forall_forall. intros h Hin. apply recorded_In in Hin.
    destruct Hin as [Hin Hid]. rewrite Forall_forall in F1.
    destruct (F1 h Hin) as [T [A R]]. now repeat split.
  - pose proof (recorded_length f collected (fun _ => true)) as H.
    assert (Hall : forall l : list HistoricalPrice.IHistoricalPrice,
               filter (fun _ => true) l = l).
    { induction l as [|x l IH]; cbn [filter]; [reflexivity | now rewrite IH]. }
    rewrite !Hall in H. lia.
  - intro k. etransitivity; [apply recorded_length | apply F3].
Qed.

Lemma among_app_l k l1 l2 : among k l1 = true -> among k (l1 ++ l2) = true.
Proof. intro H. rewrite among_app, H. reflexivity. Qed.

Lemma among_app_r k l1 l2 : among k l2 = true -> among k (l1 ++ l2) = true.
Proof. intro H. rewrite among_app, H. apply orb_true_r. Qed.

Lemma refresh_history_lift env now db :
  dbConnect env = Resolved tt ->
  let db' := snd (refreshAllMarkets env now db) in
  extends (marketColl db) (marketColl db')
  /\ exists appended,
       historyColl db' = historyColl db ++ appended
       /\ Forall (fun h => HistoricalPrice.timestamp h = now
                           /\ HistoricalPrice.marketId h <> ""
                           /\ among (snapshot_key h) (processed env) = true
                           /\ rows (marketColl db') (snapshot_key h) <> [])
            appended
       /\ (List.length appended <= List.length (processed env))%nat
       /\ forall k, (List.length (snapshots_for k appended)
                     <= occurrences k (processed env))%nat.
Proof.
  intro Hconn.
  apply (refresh_lift now (fun _ => True)
           (fun l db db' =>
              extends (marketColl db) (marketColl db')
              /\ exists appended,
                   historyColl db' = historyColl db ++ appended
                   /\ Forall (fun h => HistoricalPrice.timestamp h = now
                                       /\ HistoricalPrice.marketId h <> ""
                                       /\ among (snapshot_key h) l = true
                                       /\ rows (marketColl db') (snapshot_key h) <> [])
                        appended
                   /\ (List.length appended <= List.length l)%nat
                   /\ forall k, (List.length (snapshots_for k appended)
                                 <= occurrences k l)%nat)).
  - intro d. split; [apply extends_refl|]. exists []. rewrite app_nil_r.
    split; [reflexivity|]. split; [constructor|].
    split; [cbn [List.length]; lia | intro k; cbn; lia].
  - intros l1 l2 d d1 d2 [E1 [a1 [H1 [F1 [L1 K1]]]]] [E2 [a2 [H2 [F2 [L2 K2]]]]].
    split; [eapply extends_trans; eassumption|].
    exists (a1 ++ a2). split; [now rewrite H2, H1, app_assoc|]. split; [|split].
    + apply Forall_app. split.
      * eapply Forall_impl; [|exact F1]. cbv beta. intros h [T [I [A R]]].
        split; [exact T|]. split; [exact I|]. split; [now apply among_app_l|].
        eapply extends_rows_nonempty; eassumption.
      * eapply Forall_impl; [|exact F2]. cbv beta. intros h [T [I [A R]]].
        split; [exact T|]. split; [exact I|].
        split; [now apply among_app_r | exact R].
    + rewrite !length_app. lia.
    + intro k. rewrite snapshots_for_app, length_app, occurrences_app.
      specialize (K1 k). specialize (K2 k). lia.
  - intros src f batch d r _ Hsrc.
    pose proof (processBatch_extends src now f batch d r) as He.
    split; [exact He|].
    destruct (processBatch_history src now f batch d r Hsrc)
      as [added [Hh [Hf [Hl Hk]]]].
    exists added. split; [exact Hh|]. split; [|now split].
    eapply Forall_impl; [|exact Hf]. cbv beta. intros h [T [I [A R]]].
    split; [exact T|]. split; [exact I|]. split; [exact A|].
    eapply extends_rows_nonempty; eassumption.
  - exact Hconn.
  - exact (fun _ _ => I).
Qed.

(** X20: whichever fetches and store operations fail, a refresh only
    appends to the history: the snapshots present before keep their
    places, and every appended snapshot is stamped with the instant at
    which the refresh started, has a non-empty identifier, has the key
    of a market the refresh processed, and has a document in the Market
    collection afterwards.  For every key, the appended snapshots with
    that key are at most as many as the processed markets with that
    key: at most one snapshot is appended per processed market. *)
Theorem refresh_only_appends_snapshots_of_processed_markets :
  forall (env : Env) (now : Date) (db : Store),
    let db' := snd (refreshAllMarkets env now db) in
    exists appended,
      historyColl db' = historyColl db ++ appended
      /\ Forall (fun h => HistoricalPrice.timestamp h = now
                          /\ HistoricalPrice.marketId h <> ""
                          /\ among (snapshot_key h) (processed env) = true
                          /\ rows (marketColl db') (snapshot_key h) <> [])
           appended
      /\ (List.length appended <= List.length (processed env))%nat
      /\ forall k, (List.length (snapshots_for k appended)
                    <= occurrences k (processed env))%nat.
Proof.
  intros env now db. cbv zeta.
  destruct (dbConnect_cases env) as [H | H].
  - apply (refresh_history_lift env now db H).
  - rewrite (refresh_no_connection env now db H). cbn [snd].
    exists []. rewrite app_nil_r. split; [reflexivity|].
    split; [constructor|]. split; [cbn [List.length]; lia | intro k; cbn; lia].
Qed.

(** *** The counts of the summary *)

Lemma update_first_length id src doc :
  forall coll coll' changed,
    update_first id src doc coll = Some (coll', changed) ->
    List.length coll' = List.length coll.
Proof.
  induction coll as [|m coll IH]; intros coll' changed H; cbn [update_first] in H;
    [discriminate|].
  destruct (has_key id src m).
  - injection H as <- _. reflexivity.
  - destruct (update_first id src doc coll) as [[c1 c2]|]; [|discriminate].
    injection H as <- _. cbn [List.length]. f_equal. now apply (IH c1 c2).
Qed.

Lemma updateOne_account op coll r :
  let st := updateOne op (coll, r) in
  (List.length (fst st) + upsertedCount r
   = List.length coll + upsertedCount (snd st))%nat
  /\ (counted (snd st) <= counted r + 1)%nat
  /\ (modifiedCount r <= modifiedCount (snd st))%nat
  /\ (upsertedCount r <= upsertedCount (snd st))%nat.
Proof.
  cbv zeta. unfold updateOne, counted.
  destruct (update_first _ _ _ coll) as [[coll' changed]|] eqn:E; cbn [fst snd].
  - apply update_first_length in E. cbn [modifiedCount upsertedCount].
    destruct changed; lia.
  - destruct (upsert op); cbn [fst snd modifiedCount upsertedCount];
      rewrite ?length_app; cbn [List.length]; lia.
Qed.

Lemma bulkWrite_account ops :
  forall coll r,
    let st := fold_left (fun st op => updateOne op st) ops (coll, r) in
    (List.length (fst st) + upsertedCount r
     = List.length coll + upsertedCount (snd st))%nat
    /\ (counted (snd st) <= counted r + List.length ops)%nat
    /\ (modifiedCount r <= modifiedCount (snd st))%nat
    /\ (upsertedCount r <= upsertedCount (snd st))%nat.
Proof.
  induction ops as [|op ops IH]; intros coll r; cbv zeta; cbn [fold_left].
  - cbn [fst snd List.length]. lia.
  - pose proof (updateOne_account op coll r) as H1. cbv zeta in H1.
    destruct (updateOne op (coll, r)) as [coll1 r1]. cbn [fst snd] in H1.
    specialize (IH coll1 r1). cbv zeta in IH.
    destruct (fold_left _ ops (coll1, r1)) as [coll2 r2]. cbn [fst snd] in *.
    cbn [List.length]. lia.
Qed.

(** A bulk write lengthens the collection by the documents it reports
    as inserted, and counts at most one per operation. *)
Lemma bulkWrite_grows ops coll :
  let st := bulkWrite ops coll in
  List.length (fst st) = (List.length coll + upsertedCount (snd st))%nat
  /\ (counted (snd st) <= List.length ops)%nat.
Proof.
  cbv zeta. unfold bulkWrite.
  pose proof (bulkWrite_account (filter (fun op => castable (update_set op)) ops)
                coll (mkBulkWriteResult 0 0)) as H.
  cbv zeta in H.
  pose proof (length_filter_all (fun op => castable (update_set op)) ops) as Hl.
  destruct (fold_left _ _ _) as [coll' br]. unfold counted in *.
  cbn [fst snd modifiedCount upsertedCount] in *. lia.
Qed.

(** What one batch adds to the counts, whichever of its store
    operations fail: the collection grows by at least the markets
    counted as added, and by exactly those when the bulk write does not
    throw. *)
Lemma processBatch_account src now f batch db r :
  let st := processBatch src now f batch (db, r) in
  (List.length (marketColl db) + marketsAdded (snd st)
   <= List.length (marketColl (fst st)) + marketsAdded r)%nat
  /\ (bulkWrite_throws f = None ->
      (List.length (marketColl (fst st)) + marketsAdded r
       = List.length (marketColl db) + marketsAdded (snd st))%nat)
  /\ (accounted (snd st) <= accounted r + List.length batch)%nat
  /\ (marketsAdded r <= marketsAdded (snd st))%nat
  /\ r_source (snd st) = r_source r.
Proof.
  cbv zeta. unfold processBatch, accounted.
  destruct (find_throws f);
    [cbn [fst snd add_errors marketColl marketsUpdated marketsAdded errors r_source];
     repeat split; lia|].
  assert (Hlen : List.length (bulkOps batch now) = List.length batch)
    by apply length_map.
  destruct (bulkOps batch now) as [|op ops] eqn:E;
    [cbn [fst snd marketColl marketsUpdated marketsAdded errors r_source];
     repeat split; lia|].
  destruct (bulkWrite_throws f) as [written|].
  - pose proof (bulkWrite_grows (select written (op :: ops)) (marketColl db)) as H.
    cbv zeta in H. destruct H as [H _].
    cbn [fst snd add_errors marketColl marketsUpdated marketsAdded errors r_source].
    repeat split; try lia. discriminate.
  - pose proof (bulkWrite_grows (op :: ops) (marketColl db)) as H.
    cbv zeta in H.
    destruct (bulkWrite (op :: ops) (marketColl db)) as [coll br].
    unfold counted in H.
    cbn [fst snd marketColl marketsUpdated marketsAdded errors r_source
           modifiedCount upsertedCount] in *.
    repeat split; lia.
Qed.

Lemma processBatches_account src now faults bs :
  forall i db r,
    let st := processBatches src now faults i bs (db, r) in
    (List.length (marketColl db) + marketsAdded (snd st)
     <= List.length (marketColl (fst st)) + marketsAdded r)%nat
    /\ ((forall i, bulkWrite_throws (faults i) = None) ->
        (List.length (marketColl (fst st)) + marketsAdded r
         = List.length (marketColl db) + marketsAdded (snd st))%nat)
    /\ (accounted (snd st) <= accounted r + List.length (List.concat bs))%nat
    /\ r_source (snd st) = r_source r.
Proof.
  induction bs as [|batch bs IH]; intros i db r; cbv zeta;
    cbn [processBatches List.concat].
  - cbn [fst snd List.length]. repeat split; lia.
  - pose proof (processBatch_account src now (faults i) batch db r) as H1.
    cbv zeta in H1.
    destruct (processBatch src now (faults i) batch (db, r)) as [db1 r1].
    cbn [fst snd] in H1.
    specialize (IH (S i) db1 r1). cbv zeta in IH.
    destruct (processBatches src now faults (S i) bs (db1, r1)) as [db2 r2].
    cbn [fst snd] in *. rewrite length_app.
    destruct H1 as [H0 [H1 [H2 [H3 H4]]]]. destruct IH as [I0 [I1 [I2 I3]]].
    split; [lia|]. split; [|split; [lia | congruence]].
    intro Hok. specialize (H1 (Hok i)). specialize (I1 Hok). lia.
Qed.

Lemma processMarkets_account markets src now faults db :
  let st := processMarkets markets src now faults db in
  (List.length (marketColl db) + marketsAdded (snd st)
   <= List.length (marketColl (fst st)))%nat
  /\ ((forall i, bulkWrite_throws (faults i) = None) ->
      List.length (marketColl (fst st))
      = (List.length (marketColl db) + marketsAdded (snd st))%nat)
  /\ (accounted (snd st) <= List.length markets)%nat
  /\ r_source (snd st) = src.
Proof.
  cbv zeta. unfold processMarkets.
  destruct markets as [|m ms] eqn:E.
  - cbn [fst snd marketsAdded accounted marketsUpdated errors r_source List.length].
    unfold accounted. cbn. repeat split; lia.
  - rewrite <- E. clear E.
    pose proof (processBatches_account src now faults (batches BATCH_SIZE markets)
                  0 db (mkRefreshResult src 0 0 0)) as H.
    cbv zeta in H. rewrite concat_batches in H.
    destruct (processBatches _ _ _ _ _ _) as [db1 r1].
    unfold accounted in *.
    cbn [fst snd marketsAdded marketsUpdated errors r_source] in *.
    destruct H as [H0 [H1 [H2 H3]]].
    split; [lia|]. split; [|split; [lia | exact H3]].
    intro Hok. specialize (H1 Hok). lia.
Qed.

(** The Market collection grows by at least the markets reported as
    added, and by exactly those when no bulk write throws. *)
Lemma refreshAllMarkets_growth env now db :
  dbConnect env = Resolved tt ->
  let p1 := processMarkets (kalshiMarkets env) kalshi now (faults env kalshi) db in
  let p2 := processMarkets (polymarketMarkets env) polymarket now
              (faults env polymarket) (fst p1) in
  let p3 := processMarkets (manifoldMarkets env) manifold now
              (faults env manifold) (fst p2) in
  let added :=
    (marketsAdded (snd p1) + marketsAdded (snd p2) + marketsAdded (snd p3))%nat in
  (List.length (marketColl db) + added <= List.length (marketColl (fst p3)))%nat
  /\ ((forall s i, bulkWrite_throws (faults env s i) = None) ->
      List.length (marketColl (fst p3)) = (List.length (marketColl db) + added)%nat).
Proof.
  intros _. cbv zeta.
  pose proof (processMarkets_account (kalshiMarkets env) kalshi now
                (faults env kalshi) db) as H1.
  cbv zeta in H1.
  destruct (processMarkets (kalshiMarkets env) kalshi now _ db) as [db1 r1].
  cbn [fst snd] in *.
  pose proof (processMarkets_account (polymarketMarkets env) polymarket now
                (faults env polymarket) db1) as H2.
  cbv zeta in H2.
  destruct (processMarkets (polymarketMarkets env) polymarket now _ db1) as [db2 r2].
  cbn [fst snd] in *.
  pose proof (processMarkets_account (manifoldMarkets env) manifold now
                (faults env manifold) db2) as H3.
  cbv zeta in H3.
  destruct (processMarkets (manifoldMarkets env) manifold now _ db2) as [db3 r3].
  cbn [fst snd] in *.
  destruct H1 as [A1 [B1 _]]. destruct H2 as [A2 [B2 _]]. destruct H3 as [A3 [B3 _]].
  split; [lia|]. intro Hok.
  specialize (B1 (Hok kalshi)). specialize (B2 (Hok polymarket)).
  specialize (B3 (Hok manifold)). lia.
Qed.

(** X21: the summary of a refresh accounts for the store, whichever
    fetches and store operations fail.  When the refresh resolves, the
    Market collection has grown by at least the reported number of
    added markets, and by exactly that number when no bulk write threw
    (a bulk write that throws may have inserted documents, which are
    then not reported); for each source, updated plus added plus errors
    is at most the number of markets the source yielded, and the result
    carries the source's tag; the totals are the sums over the three
    sources and the timestamp is the instant at which the refresh
    started.  When it throws, the store connection failed and the store
    is as it was. *)
Theorem refresh_summary_accounts_for_the_store :
  forall (env : Env) (now : Date) (db : Store),
    match refreshAllMarkets env now db with
    | (Resolved summary, db') =>
        (List.length (marketColl db) + totalMarketsAdded summary
         <= List.length (marketColl db'))%nat
        /\ ((forall s i, bulkWrite_throws (faults env s i) = None) ->
            List.length (marketColl db')
            = (List.length (marketColl db) + totalMarketsAdded summary)%nat)
        /\ (forall src,
              (accounted (result_of summary src)
               <= List.length (yielded env src))%nat
              /\ r_source (result_of summary src) = src)
        /\ totalMarketsUpdated summary
           = (marketsUpdated (s_kalshi summary)
              + marketsUpdated (s_polymarket summary)
              + marketsUpdated (s_manifold summary))%nat
        /\ totalMarketsAdded summary
           = (marketsAdded (s_kalshi summary)
              + marketsAdded (s_polymarket summary)
              + marketsAdded (s_manifold summary))%nat
        /\ totalErrors summary
           = (errors (s_kalshi summary) + errors (s_polymarket summary)
              + errors (s_manifold summary))%nat
        /\ s_timestamp summary = now
    | (Rejected, db') => dbConnect env = Rejected /\ db' = db
    end.
Proof.
  intros env now db.
  destruct (dbConnect_cases env) as [H | H];
    [|rewrite (refresh_no_connection env now db H); now split].
  rewrite (RefreshSummaryFacts.refreshAllMarkets_run env now db H). cbv zeta.
  pose proof (processMarkets_account (kalshiMarkets env) kalshi now
                (faults env kalshi) db) as H1.
  cbv zeta in H1.
  destruct (processMarkets (kalshiMarkets env) kalshi now _ db) as [db1 r1].
  cbn [fst snd] in *.
  pose proof (processMarkets_account (polymarketMarkets env) polymarket now
                (faults env polymarket) db1) as H2.
  cbv zeta in H2.
  destruct (processMarkets (polymarketMarkets env) polymarket now _ db1) as [db2 r2].
  cbn [fst snd] in *.
  pose proof (processMarkets_account (manifoldMarkets env) manifold now
                (faults env manifold) db2) as H3.
  cbv zeta in H3.
  destruct (processMarkets (manifoldMarkets env) manifold now _ db2) as [db3 r3].
  cbn [fst snd] in *.
  destruct H1 as [A1 [E1 [B1 C1]]]. destruct H2 as [A2 [E2 [B2 C2]]].
  destruct H3 as [A3 [E3 [B3 C3]]].
  unfold summary_of.
  cbn [totalMarketsAdded totalMarketsUpdated totalErrors s_timestamp
         s_kalshi s_polymarket s_manifold].
  split; [lia|]. split.
  { intro Hok. specialize (E1 (Hok kalshi)). specialize (E2 (Hok polymarket)).
    specialize (E3 (Hok manifold)). lia. }
  split; [|now repeat split].
  intros [| |]; cbn [result_of yielded s_kalshi s_polymarket s_manifold];
    now split.
Qed.

(** *** What a refresh writes *)

Lemma has_key_apply_set id src doc m :
  d_marketId doc = id -> d_source doc = src ->
  has_key id src (apply_set doc m) = true.
Proof.
  intros <- <-. apply has_key_row_key. reflexivity.
Qed.

Lemma update_first_first_row id src doc :
  d_marketId doc = id -> d_source doc = src ->
  forall coll coll' changed,
    update_first id src doc coll = Some (coll', changed) ->
    exists old,
      first_row coll (id, src) = Some old
      /\ first_row coll' (id, src) = Some (apply_set doc old).
Proof.
  intros Hi Hs. induction coll as [|m coll IH]; intros coll' changed H;
    cbn [update_first] in H; [discriminate|].
  destruct (has_key id src m) eqn:K.
  - injection H as <- _. exists m.
    unfold first_row, rows. cbn [filter fst snd].
    rewrite K, (has_key_apply_set id src doc m Hi Hs). now split.
  - destruct (update_first id src doc coll) as [[c1 c2]|]; [|discriminate].
    injection H as <- _. destruct (IH c1 c2 eq_refl) as [old [Ho Hr]].
    exists old. unfold first_row, rows in *. cbn [filter fst snd] in *.
    rewrite K. now split.
Qed.

Lemma update_first_none_rows id src doc :
  forall coll, update_first id src doc coll = None -> rows coll (id, src) = [].
Proof.
  induction coll as [|m coll IH]; intro H; cbn [update_first] in H; [reflexivity|].
  unfold rows in *. cbn [filter fst snd] in *.
  destruct (has_key id src m); [discriminate|].
  destruct (update_first id src doc coll) as [[c1 c2]|]; [discriminate|].
  now apply IH.
Qed.

Lemma updateOne_first_row op coll r :
  keyed op -> upsert op = true ->
  first_row (fst (updateOne op (coll, r))) (filter_marketId op, filter_source op)
  = Some (upserted op (first_row coll (filter_marketId op, filter_source op))).
Proof.
  intros [Hi Hs] Hu. unfold updateOne.
  destruct (update_first _ _ _ coll) as [[coll' changed]|] eqn:E; cbn [fst].
  - destruct (update_first_first_row _ _ _ Hi Hs _ _ _ E) as [old [Ho Hr]].
    now rewrite Hr, Ho.
  - rewrite Hu. cbn [fst].
    pose proof (update_first_none_rows _ _ _ _ E) as Hnone.
    unfold first_row. rewrite rows_app, Hnone.
    unfold rows, inserted. cbn [app filter fst snd hd_error upserted].
    now rewrite (has_key_apply_set _ _ _ _ Hi Hs).
Qed.

Lemma fold_updateOne_first_row ops :
  Forall keyed ops ->
  Forall (fun op => upsert op = true) ops ->
  NoDup (map (fun op => (filter_marketId op, filter_source op)) ops) ->
  forall coll r op,
    In op ops ->
    first_row (fst (fold_left (fun st op => updateOne op st) ops (coll, r)))
      (filter_marketId op, filter_source op)
    = Some (upserted op (first_row coll (filter_marketId op, filter_source op))).
Proof.
  induction ops as [|op0 ops IH]; intros Hk Hu Hnd coll r op Hin; [destruct Hin|].
  inversion Hk as [|? ? Hk0 Hk']; subst. inversion Hu as [|? ? Hu0 Hu']; subst.
  cbn [map] in Hnd. inversion Hnd as [|? ? Hnotin Hnd']; subst.
  cbn [fold_left].
  destruct Hin as [<- | Hin].
  - pose proof (updateOne_first_row op0 coll r Hk0 Hu0) as Hr.
    destruct (updateOne op0 (coll, r)) as [coll1 r1]. cbn [fst] in Hr.
    unfold first_row in *.
    rewrite fold_updateOne_rows_other; [exact Hr | exact Hk'|].
    apply Forall_forall. intros op' Hin' C. apply Hnotin.
    rewrite C. now apply (in_map (fun op => (filter_marketId op, filter_source op))).
  - assert (Hother : (filter_marketId op, filter_source op)
                     <> (filter_marketId op0, filter_source op0)).
    { intro C. apply Hnotin. rewrite <- C.
      now apply (in_map (fun op => (filter_marketId op, filter_source op))). }
    pose proof (updateOne_rows_other op0 coll r _ Hk0 Hother) as Hsame.
    destruct (updateOne op0 (coll, r)) as [coll1 r1]. cbn [fst] in Hsame.
    rewrite (IH Hk' Hu' Hnd' coll1 r1 op Hin).
    unfold first_row. now rewrite Hsame.
Qed.

Lemma NoDup_map_filter {A B : Type} (f : A -> B) (p : A -> bool) l :
  NoDup (map f l) -> NoDup (map f (filter p l)).
Proof.
  induction l as [|x l IH]; intro H; cbn [map filter] in *; [constructor|].
  inversion H as [|? ? Hnotin Hnd]; subst.
  destruct (p x); [|now apply IH].
  cbn [map]. constructor; [|now apply IH].
  intro C. apply Hnotin. apply in_map_iff in C. destruct C as [y [Hy Hin]].
  apply filter_In in Hin. rewrite <- Hy. apply in_map. apply Hin.
Qed.

Lemma bulkOps_keys batch now :
  map (fun op => (filter_marketId op, filter_source op)) (bulkOps batch now)
  = map key_of batch.
Proof. unfold bulkOps. rewrite map_map. reflexivity. Qed.

(** What the upsert of a market makes of the document it finds. *)
Lemma upserted_written_as m now old :
  (forall e, old = Some e -> row_key e = key_of m) ->
  written_as m now old
    (upserted (mkUpdateOne (Kalshi.marketId m) (Kalshi.source m) (marketDoc m now) true)
       old).
Proof.
  intro Hkey. unfold written_as, upserted, written_field.
  destruct old as [e|]; cbn [update_set filter_marketId filter_source];
    unfold inserted, apply_set, marketDoc, derived, set_opt;
    cbn [marketId source marketName eventName marketUrl currentPrice lastUpdated
           eventUrl description creationDate resolutionDate category
           price1DayAgo price1WeekAgo price1MonthAgo priceChange1Day
           priceChange1Week priceChange1Month isExcluded excludedBy excludedAt
           d_marketId d_source d_marketName d_eventName d_marketUrl d_eventUrl
           d_description d_creationDate d_resolutionDate d_currentPrice
           d_category d_lastUpdated];
    repeat split; try reflexivity;
    try (intros price Hp; rewrite Hp; reflexivity);
    match goal with
    | |- context [match ?x with _ => _ end] => now destruct x
    end.
Qed.

(** The documents a batch writes when its store operations succeed. *)
Lemma processBatch_writes src now batch db r :
  NoDup (map key_of batch) ->
  forall m, In m batch -> valid_dates m = true ->
    exists row,
      first_row (marketColl (fst (processBatch src now no_faults batch (db, r))))
        (key_of m) = Some row
      /\ written_as m now (first_row (marketColl db) (key_of m)) row.
Proof.
  intros Hnd m Hin Hv. rewrite processBatch_marketColl.
  unfold applied, bulkWrite.
  cbn [find_throws insertMany_rejects bulkWrite_throws no_faults].
  set (op := mkUpdateOne (Kalshi.marketId m) (Kalshi.source m) (marketDoc m now) true).
  assert (Hop : In op (filter (fun op => castable (update_set op)) (bulkOps batch now))).
  { apply filter_In. split; [|exact Hv].
    unfold bulkOps. apply in_map_iff. exists m. split; [reflexivity | exact Hin]. }
  pose proof (fold_updateOne_first_row
                (filter (fun op => castable (update_set op)) (bulkOps batch now))
                (Forall_filter_sub _ _ _ (bulkOps_keyed batch now))
                (Forall_filter_sub _ _ _ (bulkOps_upsert batch now))) as H.
  assert (Hnd' : NoDup (map (fun op => (filter_marketId op, filter_source op))
                          (filter (fun op => castable (update_set op))
                             (bulkOps batch now)))).
  { apply NoDup_map_filter. now rewrite bulkOps_keys. }
  specialize (H Hnd' (marketColl db) (mkBulkWriteResult 0 0) op Hop).
  eexists. split; [exact H|].
  apply upserted_written_as. intros e He.
  unfold first_row, op in He. cbn [filter_marketId filter_source] in He.
  change (Kalshi.marketId m, Kalshi.source m) with (key_of m) in He.
  destruct (rows (marketColl db) (key_of m)) as [|x l] eqn:R; [discriminate|].
  injection He as ->.
  assert (Hx : In e (rows (marketColl db) (key_of m))) by (rewrite R; now left).
  unfold rows in Hx. apply filter_In in Hx. destruct Hx as [_ Hx].
  apply has_key_row_key in Hx. exact Hx.
Qed.

Lemma refresh_writes_lift env now db :
  fault_free env ->
  let db' := snd (refreshAllMarkets env now db) in
  (forall k, among k (writable (processed env)) = false ->
             rows (marketColl db') k = rows (marketColl db) k)
  /\ (NoDup (map key_of (processed env)) ->
      forall m, In m (processed env) -> valid_dates m = true ->
        exists row,
          first_row (marketColl db') (key_of m) = Some row
          /\ written_as m now (first_row (marketColl db) (key_of m)) row).
Proof.
  intros [Hconn Hff].
  apply (refresh_lift now (fun f => f = no_faults)
           (fun l db db' =>
              (forall k, among k (writable l) = false ->
                         rows (marketColl db') k = rows (marketColl db) k)
              /\ (NoDup (map key_of l) ->
                  forall m, In m l -> valid_dates m = true ->
                    exists row,
                      first_row (marketColl db') (key_of m) = Some row
                      /\ written_as m now (first_row (marketColl db) (key_of m))
                           row))).
  - intro d. split; [reflexivity | intros _ m []].
  - intros l1 l2 d d1 d2 [F1 W1] [F2 W2]. split.
    + intros k Hk. rewrite writable_app, among_app in Hk.
      apply orb_false_iff in Hk.
      destruct Hk as [K1 K2]. now rewrite (F2 k K2), (F1 k K1).
    + intros Hnd m Hin Hv.
      pose proof (keys_disjoint l1 l2 Hnd) as Hdisj.
      rewrite map_app in Hnd. apply NoDup_app_parts in Hnd.
      destruct Hnd as [N1 [N2 _]].
      assert (Ham : forall l, In m l -> among (key_of m) l = true).
      { intros l Hl. apply among_true. now exists m. }
      apply in_app_or in Hin. destruct Hin as [Hin | Hin].
      * destruct (W1 N1 m Hin Hv) as [row [Hr Hf]]. exists row. split; [|exact Hf].
        unfold first_row in *. rewrite F2; [exact Hr|].
        apply among_writable. apply not_true_is_false. intro C.
        apply (Hdisj (key_of m)); [now apply Ham | exact C].
      * destruct (W2 N2 m Hin Hv) as [row [Hr Hf]]. exists row. split; [exact Hr|].
        unfold first_row in *. rewrite F1 in Hf; [exact Hf|].
        apply among_writable. apply not_true_is_false. intro C.
        apply (Hdisj (key_of m)); [exact C | now apply Ham].
  - intros src f batch d r -> Hsrc. split.
    + intros k Hk. now apply processBatch_rows_unwritten.
    + intros Hnd m Hin Hv. now apply processBatch_writes.
  - exact Hconn.
  - intros s i. apply Hff.
Qed.

(** X22: in a refresh whose store operations succeed and whose
    processed markets have pairwise distinct keys, every processed
    market whose dates are valid is written to the Market collection:
    afterwards the first document with the market's key carries the
    market's identifier, source, name, event name and market URL, the
    market's price when it is finite, and the instant at which the
    refresh started; each optional field (event URL, description, dates,
    category) holds the market's value when the market carries one and
    otherwise what the document held before the refresh (nothing for a
    new document); the prior prices, price changes and exclusion fields
    are those of the document before the refresh (absent, and not
    excluded, for a new document).  The documents of the keys of no
    processed market with valid dates are exactly as before. *)
Theorem refresh_writes_every_processed_market :
  forall (env : Env) (now : Date) (db : Store),
    fault_free env ->
    NoDup (map key_of (processed env)) ->
    let db' := snd (refreshAllMarkets env now db) in
    (forall m, In m (processed env) -> valid_dates m = true ->
       exists row,
         first_row (marketColl db') (key_of m) = Some row
         /\ written_as m now (first_row (marketColl db) (key_of m)) row)
    /\ (forall k, among k (writable (processed env)) = false ->
          rows (marketColl db') k = rows (marketColl db) k).
Proof.
  intros env now db Hff Hnd. cbv zeta.
  destruct (refresh_writes_lift env now db Hff) as [Hframe Hwrites].
  split; [now apply Hwrites | exact Hframe].
Qed.

Lemma refresh_writes_every_processed_market_witness :
  let db' := snd (refreshAllMarkets Samples.env_two Samples.now0 Samples.store40) in
  (forall m, In m (processed Samples.env_two) -> valid_dates m = true ->
     exists row,
       first_row (marketColl db') (key_of m) = Some row
       /\ written_as m Samples.now0
            (first_row (marketColl Samples.store40) (key_of m)) row)
  /\ (forall k, among k (writable (processed Samples.env_two)) = false ->
        rows (marketColl db') k = rows (marketColl Samples.store40) k).
Proof.
  apply (refresh_writes_every_processed_market Samples.env_two Samples.now0
           Samples.store40).
  - split; [reflexivity | intros s i; reflexivity].
  - vm_compute. repeat constructor; simpl; intuition discriminate.
Defined.

End RefreshMore.

(** ** Failing store operations *)

Module FaultFacts.
Import Market DataRefresh RefreshSpec RefreshMoreSpec FaultSpec RefreshFrame
  RefreshFacts.

(** *** Rejected snapshot inserts *)

Lemma processBatch_snapshot_faults src now f batch db1 db2 r :
  marketColl db1 = marketColl db2 ->
  let f' := mkFaults (find_throws f) None (bulkWrite_throws f) in
  marketColl (fst (processBatch src now f batch (db1, r)))
  = marketColl (fst (processBatch src now f' batch (db2, r)))
  /\ snd (processBatch src now f batch (db1, r))
     = snd (processBatch src now f' batch (db2, r)).
Proof.
  intro H. cbv zeta. unfold processBatch.
  cbn [find_throws insertMany_rejects bulkWrite_throws]. rewrite <- H.
  destruct (find_throws f); [now split|].
  destruct (bulkOps batch now) as [|op ops]; [now split|].
  destruct (bulkWrite_throws f); [now split|].
  destruct (bulkWrite (op :: ops) (marketColl db1)). now split.
Qed.

Lemma processBatches_snapshot_faults src now faults bs :
  forall i db1 db2 r,
    marketColl db1 = marketColl db2 ->
    let faults' := fun i => mkFaults (find_throws (faults i)) None
                              (bulkWrite_throws (faults i)) in
    marketColl (fst (processBatches src now faults i bs (db1, r)))
    = marketColl (fst (processBatches src now faults' i bs (db2, r)))
    /\ snd (processBatches src now faults i bs (db1, r))
       = snd (processBatches src now faults' i bs (db2, r)).
Proof.
  induction bs as [|batch bs IH]; intros i db1 db2 r H; cbv zeta;
    cbn [processBatches]; [now split|].
  pose proof (processBatch_snapshot_faults src now (faults i) batch db1 db2 r H)
    as [H1 H2].
  cbv zeta in H1, H2.
  destruct (processBatch src now (faults i) batch (db1, r)) as [d1 r1].
  destruct (processBatch src now _ batch (db2, r)) as [d2 r2].
  cbn [fst snd] in H1, H2. subst r2. now apply IH.
Qed.

Lemma processMarkets_snapshot_faults markets src now faults db1 db2 :
  marketColl db1 = marketColl db2 ->
  let faults' := fun i => mkFaults (find_throws (faults i)) None
                            (bulkWrite_throws (faults i)) in
  marketColl (fst (processMarkets markets src now faults db1))
  = marketColl (fst (processMarkets markets src now faults' db2))
  /\ snd (processMarkets markets src now faults db1)
     = snd (processMarkets markets src now faults' db2).
Proof.
  intro H. cbv zeta. unfold processMarkets.
  destruct markets; [now split|].
  now apply processBatches_snapshot_faults.
Qed.

(** X23: a rejected snapshot insert is swallowed.  Whether the
    [insertMany] calls of a refresh succeed or not changes neither the
    outcome and summary of the refresh (in particular no error is
    counted for it) nor the Market collection it leaves: the upserts of
    the batch are carried out all the same. *)
Theorem rejected_snapshot_inserts_are_not_counted :
  forall (env : Env) (now : Date) (db : Store),
    let env' := with_faults env (snapshots_succeed env) in
    fst (refreshAllMarkets env now db) = fst (refreshAllMarkets env' now db)
    /\ marketColl (snd (refreshAllMarkets env now db))
       = marketColl (snd (refreshAllMarkets env' now db)).
Proof.
  intros env now db. cbv zeta.
  destruct (RefreshMore.dbConnect_cases env) as [Hc | Hc].
  - rewrite (RefreshSummaryFacts.refreshAllMarkets_run env now db Hc).
    rewrite (RefreshSummaryFacts.refreshAllMarkets_run
               (with_faults env (snapshots_succeed env)) now db Hc).
    cbv zeta. unfold kalshiMarkets, polymarketMarkets, manifoldMarkets.
    cbn [with_faults kalshiFetched polymarketFetched manifoldFetched
           manifoldGroupApi faults fst snd].
    fold (kalshiMarkets env) (polymarketMarkets env) (manifoldMarkets env).
    unfold snapshots_succeed.
    pose proof (processMarkets_snapshot_faults (kalshiMarkets env) kalshi now
                  (faults env kalshi) db db eq_refl) as [A1 B1].
    cbv zeta in A1, B1.
    destruct (processMarkets (kalshiMarkets env) kalshi now (faults env kalshi) db)
      as [d1 r1].
    destruct (processMarkets (kalshiMarkets env) kalshi now _ db) as [d1' r1'].
    cbn [fst snd] in *. subst r1'.
    pose proof (processMarkets_snapshot_faults (polymarketMarkets env) polymarket now
                  (faults env polymarket) d1 d1' A1) as [A2 B2].
    cbv zeta in A2, B2.
    destruct (processMarkets (polymarketMarkets env) polymarket now
                (faults env polymarket) d1) as [d2 r2].
    destruct (processMarkets (polymarketMarkets env) polymarket now _ d1')
      as [d2' r2'].
    cbn [fst snd] in *. subst r2'.
    pose proof (processMarkets_snapshot_faults (manifoldMarkets env) manifold now
                  (faults env manifold) d2 d2' A2) as [A3 B3].
    cbv zeta in A3, B3.
    destruct (processMarkets (manifoldMarkets env) manifold now
                (faults env manifold) d2) as [d3 r3].
    destruct (processMarkets (manifoldMarkets env) manifold now _ d2')
      as [d3' r3'].
    cbn [fst snd] in *. subst r3'. now split.
  - rewrite (RefreshMore.refresh_no_connection env now db Hc).
    rewrite (RefreshMore.refresh_no_connection
               (with_faults env (snapshots_succeed env)) now db Hc).
    now split.
Qed.

(** *** Batches that throw *)

Lemma add_errors_0 r : add_errors 0 r = r.
Proof. destruct r. unfold add_errors. cbn. f_equal. lia. Qed.

Lemma add_errors_add n k r :
  add_errors k (add_errors n r) = add_errors (n + k) r.
Proof. destruct r. unfold add_errors. cbn. f_equal. lia. Qed.

Lemma processBatch_throws src now f batch db r :
  batch_throws f = true ->
  snd (processBatch src now f batch (db, r)) = add_errors (List.length batch) r
  /\ (find_throws f = true -> fst (processBatch src now f batch (db, r)) = db).
Proof.
  unfold batch_throws, processBatch. intro H.
  destruct (find_throws f); [now split|]. cbn [orb] in H.
  split; [|discriminate].
  destruct (bulkWrite_throws f) as [written|]; [|discriminate].
  destruct (bulkOps batch now) as [|op ops] eqn:E; [|reflexivity].
  assert (Hb : batch = []).
  { destruct batch; [reflexivity | discriminate]. }
  subst batch. cbn [snd List.length]. now rewrite add_errors_0.
Qed.

Lemma processBatches_throw src now faults bs :
  (forall i, batch_throws (faults i) = true) ->
  forall i db r,
    snd (processBatches src now faults i bs (db, r))
    = add_errors (List.length (List.concat bs)) r
    /\ ((forall i, find_throws (faults i) = true) ->
        fst (processBatches src now faults i bs (db, r)) = db).
Proof.
  intro Hf. induction bs as [|batch bs IH]; intros i db r;
    cbn [processBatches List.concat].
  - cbn [List.length fst snd]. now rewrite add_errors_0.
  - pose proof (processBatch_throws src now (faults i) batch db r (Hf i)) as [H1 H2].
    destruct (processBatch src now (faults i) batch (db, r)) as [d1 r1].
    cbn [fst snd] in H1, H2. subst r1.
    destruct (IH (S i) d1 (add_errors (List.length batch) r)) as [I1 I2].
    split.
    + now rewrite I1, length_app, add_errors_add.
    + intro Hfind. rewrite (I2 Hfind). apply H2, Hfind.
Qed.

Lemma processMarkets_throw markets src now faults db :
  (forall i, batch_throws (faults i) = true) ->
  snd (processMarkets markets src now faults db)
  = mkRefreshResult src 0 0 (List.length markets)
  /\ ((forall i, find_throws (faults i) = true) ->
      fst (processMarkets markets src now faults db) = db).
Proof.
  intro Hf. unfold processMarkets. destruct markets as [|m ms] eqn:E; [now split|].
  rewrite <- E. clear E.
  destruct (processBatches_throw src now faults (batches BATCH_SIZE markets) Hf 0 db
              (mkRefreshResult src 0 0 0)) as [H1 H2].
  split; [|exact H2]. rewrite H1, concat_batches. reflexivity.
Qed.

(** A bulk write that throws may have written: with the upsert of the
    first market of each batch carried out before the failure, the new
    Polymarket market is in the store after the refresh, and is
    reported as an error, not as added. *)
Lemma failed_bulk_write_may_have_written :
  let run := refreshAllMarkets Samples.env_two_bulkWrite_fails Samples.now0
               Samples.store40 in
  rows (marketColl Samples.store40) ("0xabc", polymarket) = []
  /\ List.length (rows (marketColl (snd run)) ("0xabc", polymarket)) = 1%nat
  /\ option_map (fun s => (marketsAdded (s_polymarket s), errors (s_polymarket s)))
       (resolved (fst run))
     = Some (0, 1)%nat.
Proof. repeat split; vm_compute; reflexivity. Qed.

(** X24: when the [find] or the [bulkWrite] of every batch throws, the
    refresh still resolves: nothing is reported as updated or added, and
    every market the sources yielded is counted as an error, source by
    source, whatever the bulk writes wrote before they threw.  When it
    is the [find] of every batch that throws, the store is left exactly
    as it was. *)
Theorem failing_batches_count_every_market_as_error :
  forall (env : Env) (now : Date) (db : Store),
    dbConnect env = Resolved tt ->
    (forall s i, batch_throws (faults env s i) = true) ->
    exists summary,
      fst (refreshAllMarkets env now db) = Resolved summary
      /\ (forall src,
            result_of summary src
            = mkRefreshResult src 0 0 (List.length (yielded env src)))
      /\ totalMarketsUpdated summary = 0%nat
      /\ totalMarketsAdded summary = 0%nat
      /\ totalErrors summary = List.length (processed env)
      /\ ((forall s i, find_throws (faults env s i) = true) ->
          snd (refreshAllMarkets env now db) = db).
Proof.
  intros env now db Hc Hf.
  rewrite (RefreshSummaryFacts.refreshAllMarkets_run env now db Hc). cbv zeta.
  destruct (processMarkets_throw (kalshiMarkets env) kalshi now (faults env kalshi)
              db (Hf kalshi)) as [B1 A1].
  destruct (processMarkets (kalshiMarkets env) kalshi now (faults env kalshi) db)
    as [d1 r1].
  cbn [fst snd] in *.
  destruct (processMarkets_throw (polymarketMarkets env) polymarket now
              (faults env polymarket) d1 (Hf polymarket)) as [B2 A2].
  destruct (processMarkets (polymarketMarkets env) polymarket now _ d1) as [d2 r2].
  cbn [fst snd] in *.
  destruct (processMarkets_throw (manifoldMarkets env) manifold now
              (faults env manifold) d2 (Hf manifold)) as [B3 A3].
  destruct (processMarkets (manifoldMarkets env) manifold now _ d2) as [d3 r3].
  cbn [fst snd] in *. subst r1 r2 r3.
  eexists. split; [reflexivity|].
  unfold summary_of, processed.
  cbn [totalMarketsUpdated totalMarketsAdded totalErrors marketsUpdated marketsAdded
         errors].
  split; [intros [| |]; reflexivity|]. split; [reflexivity|]. split; [reflexivity|].
  split; [rewrite !length_app; lia|].
  intro Hfind. rewrite (A3 (Hfind manifold)), (A2 (Hfind polymarket)).
  apply A1, Hfind.
Qed.

(** Every bulk write throws, after the upsert of the first market of
    its batch. *)
Lemma failing_batches_count_every_market_as_error_witness :
  exists summary,
    fst (refreshAllMarkets Samples.env_two_bulkWrite_fails Samples.now0
           Samples.store40)
    = Resolved summary
    /\ (forall src,
          result_of summary src
          = mkRefreshResult src 0 0
              (List.length (yielded Samples.env_two_bulkWrite_fails src)))
    /\ totalMarketsUpdated summary = 0%nat
    /\ totalMarketsAdded summary = 0%nat
    /\ totalErrors summary = List.length (processed Samples.env_two_bulkWrite_fails)
    /\ ((forall s i,
           find_throws (faults Samples.env_two_bulkWrite_fails s i) = true) ->
        snd (refreshAllMarkets Samples.env_two_bulkWrite_fails Samples.now0
               Samples.store40)
        = Samples.store40).
Proof.
  apply (failing_batches_count_every_market_as_error
           Samples.env_two_bulkWrite_fails Samples.now0 Samples.store40).
  - reflexivity.
  - intros s i. reflexivity.
Defined.

End FaultFacts.

(** ** The exact counts of a refresh whose store operations succeed *)

Module RefreshCounts.
Import Market DataRefresh RefreshSpec RefreshMoreSpec FaultSpec RefreshFrame
  RefreshFacts.

Lemma updateOne_exact op coll r :
  keyed op -> upsert op = true ->
  Forall (fun e => lastUpdated e <> d_lastUpdated (update_set op))
    (rows coll (filter_marketId op, filter_source op)) ->
  snd (updateOne op (coll, r))
  = match rows coll (filter_marketId op, filter_source op) with
    | [] => mkBulkWriteResult (modifiedCount r) (upsertedCount r + 1)
    | _ :: _ => mkBulkWriteResult (modifiedCount r + 1) (upsertedCount r)
    end.
Proof.
  intros Hk Hu Hold. unfold updateOne.
  destruct (update_first _ _ _ coll) as [[coll' changed]|] eqn:E.
  - rewrite (RefreshSummaryFacts.update_first_changed _ _ _ _ _ _ Hold E).
    pose proof (update_first_some_rows _ _ _ _ _ _ E) as Hne.
    destruct (rows coll _); [contradiction | reflexivity].
  - rewrite Hu. apply RefreshMore.update_first_none_rows in E. now rewrite E.
Qed.

Lemma is_new_rows coll coll' m :
  rows coll' (key_of m) = rows coll (key_of m) -> is_new coll' m = is_new coll m.
Proof. unfold is_new. now intros ->. Qed.

Lemma filter_ext_length {A : Type} (p q : A -> bool) l :
  (forall x, In x l -> p x = q x) ->
  List.length (filter p l) = List.length (filter q l).
Proof. intro H. now rewrite (filter_ext_in p q l H). Qed.

Lemma bulkWrite_exact now :
  forall batch coll r,
    NoDup (map key_of batch) ->
    (forall m, In m batch ->
       Forall (fun e => lastUpdated e <> now) (rows coll (key_of m))) ->
    let st := fold_left (fun st op => updateOne op st) (bulkOps batch now) (coll, r) in
    upsertedCount (snd st)
    = (upsertedCount r + List.length (filter (is_new coll) batch))%nat
    /\ modifiedCount (snd st)
       = (modifiedCount r
          + List.length (filter (fun m => negb (is_new coll m)) batch))%nat.
Proof.
  induction batch as [|m batch IH]; intros coll r Hnd Hold; cbv zeta.
  - cbn [bulkOps map fold_left snd filter List.length]. lia.
  - cbn [map] in Hnd. inversion Hnd as [|? ? Hnotin Hnd']; subst.
    unfold bulkOps. cbn [map fold_left].
    set (op := {| filter_marketId := Kalshi.marketId m;
                  filter_source := Kalshi.source m;
                  update_set := marketDoc m now;
                  upsert := true |}).
    assert (Hk : keyed op) by (split; reflexivity).
    pose proof (updateOne_exact op coll r Hk eq_refl (Hold m (or_introl eq_refl)))
      as H1.
    assert (Hrows : forall m', In m' batch ->
              rows (fst (updateOne op (coll, r))) (key_of m') = rows coll (key_of m')).
    { intros m' Hin. apply updateOne_rows_other; [exact Hk|].
      intro C. apply Hnotin. change (filter_marketId op, filter_source op)
        with (key_of m) in C. rewrite <- C. now apply in_map. }
    destruct (updateOne op (coll, r)) as [coll1 r1]. cbn [fst snd] in *.
    fold (bulkOps batch now).
    assert (Hold1 : forall m', In m' batch ->
              Forall (fun e => lastUpdated e <> now) (rows coll1 (key_of m'))).
    { intros m' Hin. rewrite (Hrows m' Hin). apply Hold. now right. }
    specialize (IH coll1 r1 Hnd' Hold1). cbv zeta in IH.
    destruct IH as [IH1 IH2]. rewrite IH1, IH2.
    rewrite (filter_ext_length (is_new coll1) (is_new coll) batch)
      by (intros m' Hin; apply is_new_rows; now apply Hrows).
    rewrite (filter_ext_length (fun m' => negb (is_new coll1 m'))
               (fun m' => negb (is_new coll m')) batch)
      by (intros m' Hin; f_equal; apply is_new_rows; now apply Hrows).
    cbn [filter].
    assert (Hnew : is_new coll m
                   = match rows coll (filter_marketId op, filter_source op) with
                     | [] => true
                     | _ :: _ => false
                     end) by reflexivity.
    rewrite Hnew. subst r1.
    destruct (rows coll (filter_marketId op, filter_source op));
      cbn [negb List.length modifiedCount upsertedCount]; lia.
Qed.

Lemma NoDup_map_filter_keys batch :
  NoDup (map key_of batch) -> NoDup (map key_of (writable batch)).
Proof. apply RefreshMore.NoDup_map_filter. Qed.

(** The operations of a batch that can be cast are the operations of
    its writable markets. *)
Lemma castable_bulkOps batch now :
  filter (fun op => castable (update_set op)) (bulkOps batch now)
  = bulkOps (writable batch) now.
Proof.
  unfold bulkOps, writable. induction batch as [|m batch IH]; [reflexivity|].
  cbn [map filter update_set]. rewrite castable_marketDoc.
  destruct (valid_dates m); cbn [map]; now rewrite IH.
Qed.

Lemma snapshotted_rows coll coll' m :
  rows coll' (key_of m) = rows coll (key_of m) ->
  snapshotted coll' m = snapshotted coll m.
Proof. unfold snapshotted. intro H. now rewrite (is_new_rows _ _ _ H). Qed.

Lemma snaps_length now coll batch :
  List.length (flat_map (fun m => snaps now (stored coll (key_of m))) batch)
  = List.length (filter (snapshotted coll) batch).
Proof.
  induction batch as [|m batch IH]; cbn [flat_map filter]; [reflexivity|].
  rewrite length_app, IH. unfold snapshotted at 2, is_new.
  destruct (stored coll (key_of m)) as [e|] eqn:S.
  - assert (Hne : rows coll (key_of m) <> []).
    { intro C. apply stored_none in C. congruence. }
    pose proof (stored_key _ _ _ S) as [_ Hk].
    assert (Hid : marketId e = Kalshi.marketId m).
    { unfold row_key, key_of in Hk. now injection Hk. }
    cbn [snaps filter]. unfold HistoricalPrice.valid.
    change (HistoricalPrice.marketId (snapshot now e)) with (marketId e).
    rewrite Hid.
    destruct (rows coll (key_of m)); [contradiction|]. cbn [negb andb].
    now destruct (String.eqb (Kalshi.marketId m) "").
  - apply stored_none in S. rewrite S. reflexivity.
Qed.

Lemma counts_nil now st : counts now [] st st.
Proof.
  split; [reflexivity|]. intros _ _. cbn [writable filter List.length]. lia.
Qed.

Lemma counts_compose now l1 l2 st st1 st2 :
  counts now l1 st st1 -> counts now l2 st1 st2 -> counts now (l1 ++ l2) st st2.
Proof.
  intros [F1 C1] [F2 C2]. split.
  - intros k Hk. rewrite writable_app, among_app in Hk. apply orb_false_iff in Hk.
    destruct Hk as [K1 K2]. now rewrite (F2 k K2), (F1 k K1).
  - intros Hnd Hold.
    pose proof (keys_disjoint l1 l2 Hnd) as Hdisj.
    rewrite map_app in Hnd. apply NoDup_app_parts in Hnd.
    destruct Hnd as [N1 [N2 _]].
    assert (Hrows : forall m, In m l2 ->
              rows (marketColl (fst st1)) (key_of m)
              = rows (marketColl (fst st)) (key_of m)).
    { intros m Hin. apply F1. apply among_writable.
      apply not_true_is_false. intro C.
      apply (Hdisj (key_of m)); [exact C|]. apply among_true. now exists m. }
    assert (Hold1 : forall m, In m l1 ->
              Forall (fun e => lastUpdated e <> now)
                (rows (marketColl (fst st)) (key_of m))).
    { intros m Hin. apply Hold. apply in_or_app. now left. }
    assert (Hold2 : forall m, In m l2 ->
              Forall (fun e => lastUpdated e <> now)
                (rows (marketColl (fst st1)) (key_of m))).
    { intros m Hin. rewrite (Hrows m Hin). apply Hold. apply in_or_app. now right. }
    assert (Hw : forall m, In m (writable l2) -> In m l2).
    { intros m Hin. apply filter_In in Hin. apply Hin. }
    destruct (C1 N1 Hold1) as [A1 [U1 [E1 H1]]].
    destruct (C2 N2 Hold2) as [A2 [U2 [E2 H2]]].
    rewrite (filter_ext_length (is_new (marketColl (fst st1)))
               (is_new (marketColl (fst st))) (writable l2)) in A2
      by (intros m Hin; apply is_new_rows; now apply Hrows, Hw).
    rewrite (filter_ext_length (fun m => negb (is_new (marketColl (fst st1)) m))
               (fun m => negb (is_new (marketColl (fst st)) m)) (writable l2)) in U2
      by (intros m Hin; f_equal; apply is_new_rows; now apply Hrows, Hw).
    rewrite (filter_ext_length (snapshotted (marketColl (fst st1)))
               (snapshotted (marketColl (fst st))) l2) in H2
      by (intros m Hin; apply snapshotted_rows; now apply Hrows).
    rewrite writable_app, !filter_app, !length_app. repeat split; lia.
Qed.

Lemma processBatch_counts src now batch st :
  Forall (fun m => Kalshi.source m = src) batch ->
  counts now batch st (processBatch src now no_faults batch st).
Proof.
  intro Hsrc. destruct st as [db r]. split.
  - intros k Hk. now apply processBatch_rows_unwritten.
  - intros Hnd Hold. cbn [fst snd] in *.
    pose proof (processBatch_history_no_faults src now batch db r) as Hh.
    rewrite (historicalSnapshots_stored batch src (marketColl db) now Hsrc) in Hh.
    apply (f_equal (@List.length _)) in Hh.
    rewrite length_app, (snaps_length now (marketColl db) batch) in Hh.
    assert (Hw : forall m, In m (writable batch) -> In m batch).
    { intros m Hin. apply filter_In in Hin. apply Hin. }
    pose proof (bulkWrite_exact now (writable batch) (marketColl db)
                  (mkBulkWriteResult 0 0)
                  (NoDup_map_filter_keys batch Hnd)
                  (fun m Hin => Hold m (Hw m Hin))) as Hb.
    cbv zeta in Hb. rewrite <- castable_bulkOps in Hb.
    fold (bulkWrite (bulkOps batch now) (marketColl db)) in Hb.
    revert Hh. unfold processBatch.
    cbn [find_throws insertMany_rejects bulkWrite_throws no_faults].
    destruct (bulkOps batch now) as [|op ops] eqn:E.
    + assert (batch = []) as -> by (destruct batch; [reflexivity | discriminate]).
      cbn [fst snd writable filter List.length historyColl] in *. intro Hh. lia.
    + destruct (bulkWrite (op :: ops) (marketColl db)) as [coll br].
      cbn [fst snd marketsAdded marketsUpdated errors historyColl
             modifiedCount upsertedCount] in *.
      intro Hh. lia.
Qed.

Lemma processBatches_counts src now faults bs :
  fault_free_batches faults ->
  Forall (fun m => Kalshi.source m = src) (List.concat bs) ->
  forall i st,
    counts now (List.concat bs) st (processBatches src now faults i bs st).
Proof.
  intro Hff. induction bs as [|batch bs IH]; intros Hsrc i st;
    cbn [processBatches List.concat] in *.
  - apply counts_nil.
  - apply Forall_app in Hsrc. destruct Hsrc as [Hs1 Hs2].
    eapply counts_compose; [|now apply IH].
    rewrite Hff. destruct st as [db r]. now apply processBatch_counts.
Qed.

Lemma processMarkets_counts markets src now faults db :
  fault_free_batches faults ->
  Forall (fun m => Kalshi.source m = src) markets ->
  counts now markets (db, mkRefreshResult src 0 0 0)
    (processMarkets markets src now faults db).
Proof.
  intros Hff Hsrc. unfold processMarkets.
  destruct markets as [|m ms] eqn:E; [apply counts_nil|].
  rewrite <- E in *. clear E.
  rewrite <- (concat_batches markets) at 1.
  apply processBatches_counts; [exact Hff | now rewrite concat_batches].
Qed.

(** The counts of one source, started on a store whose documents of the
    source are those of [db]. *)
Lemma processMarkets_counts_from markets src now faults db db0 :
  fault_free_batches faults ->
  Forall (fun m => Kalshi.source m = src) markets ->
  NoDup (map key_of markets) ->
  older_than now db ->
  (forall k, snd k = src -> rows (marketColl db0) k = rows (marketColl db) k) ->
  let st := processMarkets markets src now faults db0 in
  marketsAdded (snd st)
  = List.length (filter (is_new (marketColl db)) (writable markets))
  /\ marketsUpdated (snd st)
     = List.length (filter (fun m => negb (is_new (marketColl db) m))
                      (writable markets))
  /\ errors (snd st) = 0%nat
  /\ List.length (historyColl (fst st))
     = (List.length (historyColl db0)
        + List.length (filter (snapshotted (marketColl db)) markets))%nat.
Proof.
  intros Hff Hsrc Hnd Hold Hsame. cbv zeta.
  destruct (processMarkets_counts markets src now faults db0 Hff Hsrc) as [_ C].
  cbn [fst snd marketsAdded marketsUpdated errors] in C.
  assert (Hrows : forall m, In m markets ->
            rows (marketColl db0) (key_of m) = rows (marketColl db) (key_of m)).
  { intros m Hin. apply Hsame. rewrite Forall_forall in Hsrc. now apply Hsrc. }
  assert (Hold0 : forall m, In m markets ->
            Forall (fun e => lastUpdated e <> now) (rows (marketColl db0) (key_of m))).
  { intros m Hin. rewrite (Hrows m Hin).
    now apply RefreshSummaryFacts.older_rows. }
  assert (Hw : forall m, In m (writable markets) -> In m markets).
  { intros m Hin. apply filter_In in Hin. apply Hin. }
  destruct (C Hnd Hold0) as [A [U [E H]]].
  rewrite (filter_ext_length (is_new (marketColl db0)) (is_new (marketColl db))
             (writable markets))
    in A by (intros m Hin; apply is_new_rows; now apply Hrows, Hw).
  rewrite (filter_ext_length (fun m => negb (is_new (marketColl db0) m))
             (fun m => negb (is_new (marketColl db) m)) (writable markets)) in U
    by (intros m Hin; f_equal; apply is_new_rows; now apply Hrows, Hw).
  rewrite (filter_ext_length (snapshotted (marketColl db0))
             (snapshotted (marketColl db)) markets) in H
    by (intros m Hin; apply snapshotted_rows; now apply Hrows).
  repeat split; lia.
Qed.

(** X25: the counts of a refresh whose store operations succeed, whose
    processed markets have pairwise distinct keys and whose store holds
    documents older than the refresh.  For each source, counting the
    yielded markets whose dates are valid (the others are not written),
    the number of added markets is the number of those that had no
    document, the number of updated markets is the number of those that
    had one, and no error is counted.  The history grows by one
    snapshot per processed market that had a document and whose
    identifier is not empty. *)
Theorem refresh_counts_new_and_known_markets :
  forall (env : Env) (now : Date) (db : Store),
    fault_free env ->
    NoDup (map key_of (processed env)) ->
    older_than now db ->
    exists summary,
      fst (refreshAllMarkets env now db) = Resolved summary
      /\ (forall src,
            marketsAdded (result_of summary src)
            = List.length (filter (is_new (marketColl db))
                             (writable (yielded env src)))
            /\ marketsUpdated (result_of summary src)
               = List.length
                   (filter (fun m => negb (is_new (marketColl db) m))
                      (writable (yielded env src)))
            /\ errors (result_of summary src) = 0%nat)
      /\ List.length (historyColl (snd (refreshAllMarkets env now db)))
         = (List.length (historyColl db)
            + List.length (filter (snapshotted (marketColl db)) (processed env)))%nat.
Proof.
  intros env now db [Hc Hff] Hnd Hold.
  rewrite (RefreshSummaryFacts.refreshAllMarkets_run env now db Hc). cbv zeta.
  unfold processed in Hnd. rewrite !map_app in Hnd.
  apply NoDup_app_parts in Hnd. destruct Hnd as [N1 [N23 _]].
  apply NoDup_app_parts in N23. destruct N23 as [N2 [N3 _]].
  pose proof (kalshiMarkets_source env) as S1.
  pose proof (polymarketMarkets_source env) as S2.
  pose proof (manifoldMarkets_source env) as S3.
  pose proof (processMarkets_counts_from (kalshiMarkets env) kalshi now
                (faults env kalshi) db db (Hff kalshi) S1 N1 Hold
                (fun _ _ => eq_refl)) as H1.
  cbv zeta in H1.
  assert (F1 : forall k, snd k = polymarket \/ snd k = manifold ->
             rows (marketColl (fst (processMarkets (kalshiMarkets env) kalshi now
                                      (faults env kalshi) db))) k
             = rows (marketColl db) k).
  { intros k Hk. apply processMarkets_rows_other.
    apply (RefreshSummaryFacts.among_other_source k kalshi); [|exact S1].
    destruct Hk as [-> | ->]; discriminate. }
  destruct (processMarkets (kalshiMarkets env) kalshi now (faults env kalshi) db)
    as [d1 r1].
  cbn [fst snd] in *.
  pose proof (processMarkets_counts_from (polymarketMarkets env) polymarket now
                (faults env polymarket) db d1 (Hff polymarket) S2 N2 Hold
                (fun k Hk => F1 k (or_introl Hk))) as H2.
  cbv zeta in H2.
  assert (F2 : forall k, snd k = manifold ->
             rows (marketColl (fst (processMarkets (polymarketMarkets env) polymarket
                                      now (faults env polymarket) d1))) k
             = rows (marketColl db) k).
  { intros k Hk. rewrite processMarkets_rows_other; [apply F1; now right|].
    apply (RefreshSummaryFacts.among_other_source k polymarket); [|exact S2].
    rewrite Hk. discriminate. }
  destruct (processMarkets (polymarketMarkets env) polymarket now _ d1) as [d2 r2].
  cbn [fst snd] in *.
  pose proof (processMarkets_counts_from (manifoldMarkets env) manifold now
                (faults env manifold) db d2 (Hff manifold) S3 N3 Hold F2) as H3.
  cbv zeta in H3.
  destruct (processMarkets (manifoldMarkets env) manifold now _ d2) as [d3 r3].
  cbn [fst snd] in *.
  destruct H1 as [A1 [U1 [E1 L1]]]. destruct H2 as [A2 [U2 [E2 L2]]].
  destruct H3 as [A3 [U3 [E3 L3]]].
  eexists. split; [reflexivity|]. unfold summary_of.
  cbn [totalMarketsUpdated s_kalshi s_polymarket s_manifold]. split.
  - intros [| |]; cbn [result_of yielded s_kalshi s_polymarket s_manifold];
      now repeat split.
  - unfold processed. rewrite !filter_app, !length_app. lia.
Qed.

Lemma refresh_counts_new_and_known_markets_witness :
  exists summary,
    fst (refreshAllMarkets Samples.env_two Samples.now0 Samples.store40)
    = Resolved summary
    /\ (forall src,
          marketsAdded (result_of summary src)
          = List.length (filter (is_new (marketColl Samples.store40))
                           (writable (yielded Samples.env_two src)))
          /\ marketsUpdated (result_of summary src)
             = List.length
                 (filter (fun m => negb (is_new (marketColl Samples.store40) m))
                    (writable (yielded Samples.env_two src)))
          /\ errors (result_of summary src) = 0%nat)
    /\ List.length (historyColl (snd (refreshAllMarkets Samples.env_two Samples.now0
                                        Samples.store40)))
       = (List.length (historyColl Samples.store40)
          + List.length (filter (snapshotted (marketColl Samples.store40))
                           (processed Samples.env_two)))%nat.
Proof.
  apply (refresh_counts_new_and_known_markets Samples.env_two Samples.now0
           Samples.store40).
  - split; [reflexivity | intros s i; reflexivity].
  - vm_compute. repeat constructor; simpl; intuition discriminate.
  - repeat constructor.
Defined.

End RefreshCounts.

(** ** From a refresh to the price-change engine *)

Module RefreshThenEngine.
Import DataRefresh RefreshSpec RefreshMoreSpec RefreshFacts PriceCalculatorFacts.





End RefreshThenEngine.

(** ** The ranking over a store that only refreshes have written *)

Module RefreshThenRanking.
Import Market DataRefresh RefreshSpec RefreshMoreSpec RefreshFrame MarketsRoute.

Lemma extends_fresh coll coll' :
  extends coll coll' -> Forall fresh coll -> Forall fresh coll'.
Proof.
  intros [updated [added [-> [Hu Ha]]]] Hf. apply Forall_app. split; [|exact Ha].
  induction Hu as [|m m' coll updated Hp Hu IH]; [constructor|].
  inversion Hf as [|? ? Hm Hf']; subst.
  constructor; [exact (preserved_fresh m m' Hm Hp) | now apply IH].
Qed.

Lemma refreshes_fresh runs :
  forall db, Forall fresh (marketColl db) ->
             Forall fresh (marketColl (refreshes runs db)).
Proof.
  unfold refreshes. induction runs as [|[env now] runs IH]; intros db H;
    cbn [fold_left fst snd]; [exact H|].
  apply IH. eapply extends_fresh; [|exact H].
  apply RefreshMore.refreshAllMarkets_extends.
Qed.

Lemma fresh_not_ranked period m : fresh m -> query period m = false.
Proof.
  unfold fresh, derived, query. intro H. injection H as _ _ _ H1 H2 H3 H4 _ _.
  destruct period; cbn [getPriceChangeField]; rewrite ?H1, ?H2, ?H3;
    cbn [ne_null]; now rewrite andb_false_r.
Qed.

Lemma fresh_not_excluded m : fresh m -> negb (isExcluded m) = true.
Proof.
  unfold fresh, derived. intro H. injection H as _ _ _ _ _ _ H _ _. now rewrite H.
Qed.

Lemma filter_none {A : Type} (p : A -> bool) l :
  Forall (fun x => p x = false) l -> filter p l = [].
Proof.
  induction 1 as [|x l Hx Hl IH]; cbn [filter]; [reflexivity|]. now rewrite Hx.
Qed.

Lemma filter_all {A : Type} (p : A -> bool) l :
  Forall (fun x => p x = true) l -> filter p l = l.
Proof.
  induction 1 as [|x l Hx Hl IH]; cbn [filter]; [reflexivity|].
  rewrite Hx. now f_equal.
Qed.

(** X27: a refresh never computes price changes: it does not call the
    price-change engine and sets none of the derived fields.  Hence,
    starting from an empty Market collection, after any sequence of
    refreshes (whatever the sources return and whichever operations
    fail) every document has no prior price, no price change and is not
    excluded, and the ranking endpoint answers every period in fallback
    mode, with a choice of the 20 most recently updated documents: 20
    documents of the collection (all of them when there are fewer), the
    more recently updated first, none updated before a document that is
    left out. *)
Theorem refreshes_alone_leave_the_ranking_in_fallback_mode :
  forall (runs : list (Env * Date))
         (history : list HistoricalPrice.IHistoricalPrice)
         (periodParam : option string),
    let coll := marketColl (refreshes runs (mkStore [] history)) in
    Forall fresh coll
    /\ fallbackMode (GET periodParam coll) = true
    /\ RankingSpec.top_of RankingSpec.more_recent 20 coll
         (markets (GET periodParam coll)).
Proof.
  intros runs history periodParam. cbv zeta.
  pose proof (refreshes_fresh runs (mkStore [] history) (Forall_nil _)) as Hf.
  set (coll := marketColl (refreshes runs (mkStore [] history))) in *.
  split; [exact Hf|].
  assert (Hq : filter (query (parsePeriod periodParam)) coll = []).
  { apply filter_none. eapply Forall_impl; [|exact Hf].
    intros m. apply fresh_not_ranked. }
  assert (He : filter (fun m => negb (isExcluded m)) coll = coll).
  { apply filter_all. eapply Forall_impl; [|exact Hf].
    intros m. apply fresh_not_excluded. }
  unfold GET, find. rewrite Hq, He. cbv zeta iota beta.
  cbn [fallbackMode markets]. split; [reflexivity|]. rewrite firstn_firstn.
  apply RankingFacts.top_of_sorted;
    [apply RankingFacts.recent_first_total | apply RankingFacts.recent_first_trans |].
  intros a b H. now apply Z.leb_le.
Qed.

End RefreshThenRanking.

(** ** The refresh endpoint and the scheduled function *)

Module RefreshRouteFacts.
Import DataRefresh RefreshSpec RefreshMoreSpec RefreshRoute.

(** X28: the refresh endpoint and the scheduled function answer 500
    exactly when the store connection fails, and then leave the store
    as it was.  Otherwise both answer 200, whatever the fetches and the
    store operations of the batches do, and leave the same store; the
    body of the endpoint carries the totals of the summary the scheduled
    function reports, the error count being the sum of the errors of
    the three sources; the Market collection has grown by at least the
    reported number of added markets. *)
Theorem refresh_endpoints_fail_only_without_store :
  forall (env : Env) (now : Date) (db : Store),
    match dbConnect env with
    | Rejected =>
        POST env now db
        = (mkResponse 500 (Failure "Failed to refresh market data"), db)
        /\ handler env now db = (mkScheduled 500 false None, db)
    | Resolved _ =>
        exists summary db',
          handler env now db = (mkScheduled 200 true (Some summary), db')
          /\ POST env now db
             = (mkResponse 200
                  (Counts (totalMarketsUpdated summary) (totalMarketsAdded summary)
                     (errors (s_kalshi summary) + errors (s_polymarket summary)
                      + errors (s_manifold summary))
                     now (s_kalshi summary) (s_polymarket summary)
                     (s_manifold summary)),
                db')
          /\ (List.length (marketColl db) + totalMarketsAdded summary
              <= List.length (marketColl db'))%nat
    end.
Proof.
  intros env now db. unfold POST, handler.
  destruct (RefreshMore.dbConnect_cases env) as [Hc | Hc]; rewrite Hc.
  - pose proof (RefreshMore.refreshAllMarkets_growth env now db Hc) as H.
    rewrite (RefreshSummaryFacts.refreshAllMarkets_run env now db Hc).
    cbv zeta in *. destruct H as [H _]. eexists. eexists. split; [reflexivity|].
    split; [reflexivity | exact H].
  - rewrite (RefreshMore.refresh_no_connection env now db Hc). now split.
Qed.

End RefreshRouteFacts.

(** ** The ranking endpoint: excluded markets and unknown periods *)

Module RankingMore.
Import Market MarketsRoute.

Lemma parsePeriod_default s :
  s <> "1w"%string -> s <> "1m"%string -> parsePeriod (Some s) = P1d.
Proof.
  intros Hw Hm. unfold parsePeriod.
  repeat match goal with
         | |- match ?x with _ => _ end = _ => destruct x
         | |- (if ?x then _ else _) = _ => destruct x
         end;
    try reflexivity; exfalso; (now apply Hw) || (now apply Hm).
Qed.

(** X29: a market marked as excluded never influences the answer of the
    ranking endpoint: the answer is the one the endpoint gives on the
    collection without the excluded documents, in ranking mode as in
    fallback mode.  A period parameter other than "1w" and "1m",
    whatever it is, is served as the one-day period, like an absent
    one. *)
Theorem ranking_ignores_excluded_markets_and_unknown_periods :
  forall (periodParam : option string) (coll : list IMarket),
    GET periodParam coll
    = GET periodParam (filter (fun m => negb (isExcluded m)) coll)
    /\ (forall s, s <> "1w"%string -> s <> "1m"%string ->
          GET (Some s) coll = GET None coll
          /\ period (GET (Some s) coll) = P1d).
Proof.
  intros periodParam coll. split.
  - unfold GET, find.
    rewrite (PriceCalculatorMore.filter_filter_implied
               (query (parsePeriod periodParam))
               (fun m => negb (isExcluded m)) coll).
    + rewrite (PriceCalculatorMore.filter_filter_implied
                 (fun m => negb (isExcluded m)) (fun m => negb (isExcluded m)) coll);
        [reflexivity | auto].
    + intros m Hq. unfold query in Hq.
      apply andb_true_iff in Hq. destruct Hq as [Hq _].
      apply andb_true_iff in Hq. apply Hq.
  - intros s Hw Hm. unfold GET. rewrite (parsePeriod_default s Hw Hm).
    cbn [parsePeriod]. split; [reflexivity|].
    destruct (find (query P1d) coll); reflexivity.
Qed.

End RankingMore.

(** ** From the adapters' filter to the ranking *)

Module FilterThenRanking.
Import Market DataRefresh RefreshSpec RefreshMoreSpec AdapterSpec StoreSpec
  MarketsRoute.

Lemma processed_pass env :
  Forall (fun m => excluded m = false) (processed env).
Proof.
  unfold processed. rewrite !Forall_app. split; [|split].
  - unfold kalshiMarkets, Kalshi.fetchKalshiMarkets.
    destruct (kalshiFetched env) as [f|]; cbn [catch]; [|constructor].
    apply AdapterFacts.filter_map_Forall. intros a nm _ H.
    now apply AdapterFacts.kalshi_normalize_passes in H.
  - apply Forall_forall. intros nm H.
    apply AdapterFacts.polymarketMarkets_In in H.
    destruct H as [event [market [_ [_ H]]]].
    now apply AdapterFacts.polymarket_normalize_passes in H.
  - unfold manifoldMarkets, Manifold.fetchManifoldMarkets.
    destruct (manifoldFetched env) as [f|]; cbn [catch]; [|constructor].
    apply AdapterFacts.filter_map_Forall. intros a nm _ H.
    now apply AdapterFacts.manifold_normalize_passes in H.
Qed.

Lemma stored_excluded_apply_set m now row :
  described m = true ->
  stored_excluded (apply_set (marketDoc m now) row) = excluded m.
Proof.
  unfold described, stored_excluded, excluded, apply_set, marketDoc.
  cbn [marketName description category d_marketName d_description d_category].
  destruct (Kalshi.description m), (Kalshi.n_category m); try discriminate.
  reflexivity.
Qed.

Lemma update_first_pass id src m now :
  excluded m = false -> described m = true ->
  forall coll coll' changed,
    Forall (fun row => stored_excluded row = false) coll ->
    update_first id src (marketDoc m now) coll = Some (coll', changed) ->
    Forall (fun row => stored_excluded row = false) coll'.
Proof.
  intros Hm Hd. induction coll as [|row coll IH]; intros coll' changed Hc H;
    cbn [update_first] in H; [discriminate|].
  inversion Hc as [|? ? Hrow Hrest]; subst.
  destruct (has_key id src row).
  - injection H as <- _. constructor; [|exact Hrest].
    now rewrite stored_excluded_apply_set.
  - destruct (update_first id src (marketDoc m now) coll) as [[c1 c2]|];
      [|discriminate].
    injection H as <- _. constructor; [exact Hrow | now apply (IH c1 c2)].
Qed.

Lemma fold_updateOne_pass ops :
  Forall writes_passing ops ->
  forall coll r,
    Forall (fun row => stored_excluded row = false) coll ->
    Forall (fun row => stored_excluded row = false)
      (fst (fold_left (fun st op => updateOne op st) ops (coll, r))).
Proof.
  induction 1 as [|op ops [m [now [Hop [Hm Hd]]]] Hops IH]; intros coll r Hc;
    [exact Hc|].
  cbn [fold_left]. unfold updateOne at 2. rewrite Hop.
  destruct (update_first _ _ _ coll) as [[coll' changed]|] eqn:E.
  - apply IH. exact (update_first_pass _ _ m now Hm Hd _ _ _ Hc E).
  - destruct (upsert op); [|now apply IH].
    apply IH. apply Forall_app. split; [exact Hc|].
    constructor; [|constructor]. unfold inserted.
    now rewrite stored_excluded_apply_set.
Qed.

Lemma bulkOps_writes_passing batch now :
  Forall (fun m => excluded m = false) batch ->
  Forall (fun m => described m = true) batch ->
  Forall writes_passing (bulkOps batch now).
Proof.
  intros Hb Hd. unfold bulkOps. apply Forall_forall. intros op Hin.
  apply in_map_iff in Hin. destruct Hin as [m [<- Hin]].
  rewrite Forall_forall in Hb, Hd. exists m, now.
  split; [reflexivity|]. split; [now apply Hb | now apply Hd].
Qed.

Lemma processBatch_pass src now f batch db r :
  Forall (fun m => excluded m = false) batch ->
  Forall (fun m => described m = true) batch ->
  Forall (fun row => stored_excluded row = false) (marketColl db) ->
  Forall (fun row => stored_excluded row = false)
    (marketColl (fst (processBatch src now f batch (db, r)))).
Proof.
  intros Hb Hd Hc. rewrite RefreshFrame.processBatch_marketColl.
  unfold bulkWrite. apply fold_updateOne_pass; [|exact Hc].
  apply RefreshFrame.Forall_filter_sub, RefreshFrame.Forall_applied.
  now apply bulkOps_writes_passing.
Qed.

Lemma refresh_pass env now db :
  Forall (fun m => described m = true) (processed env) ->
  Forall (fun row => stored_excluded row = false) (marketColl db) ->
  Forall (fun row => stored_excluded row = false)
    (marketColl (snd (refreshAllMarkets env now db))).
Proof.
  intros Hd Hc. destruct (RefreshMore.dbConnect_cases env) as [H | H];
    [|now rewrite (RefreshMore.refresh_no_connection env now db H)].
  apply (RefreshMore.refresh_lift now (fun _ => True)
           (fun l db db' =>
              Forall (fun m => excluded m = false) l ->
              Forall (fun m => described m = true) l ->
              Forall (fun row => stored_excluded row = false) (marketColl db) ->
              Forall (fun row => stored_excluded row = false) (marketColl db'))).
  - intros d _ _ Hdb. exact Hdb.
  - intros l1 l2 d d1 d2 H1 H2 Hl Hdl Hdb. apply Forall_app in Hl, Hdl.
    destruct Hl as [Hl1 Hl2]. destruct Hdl as [Hd1 Hd2].
    apply H2; [exact Hl2 | exact Hd2|]. now apply H1.
  - intros src f batch d r _ _ Hb Hdb Hdc. now apply processBatch_pass.
  - exact H.
  - exact (fun _ _ => I).
  - apply processed_pass.
  - exact Hd.
  - exact Hc.
Qed.

Lemma refreshes_pass runs :
  all_described runs ->
  forall db,
    Forall (fun row => stored_excluded row = false) (marketColl db) ->
    Forall (fun row => stored_excluded row = false) (marketColl (refreshes runs db)).
Proof.
  unfold refreshes, all_described.
  induction 1 as [|[env now] runs Hrun Hruns IH]; intros db H;
    cbn [fold_left fst snd] in *; [exact H|].
  apply IH. now apply refresh_pass.
Qed.

Lemma In_firstn_In {A : Type} (x : A) n l : In x (firstn n l) -> In x l.
Proof.
  intro H. rewrite <- (firstn_skipn n l). apply in_or_app. now left.
Qed.

Lemma GET_markets_In periodParam coll m :
  In m (markets (GET periodParam coll)) -> In m coll.
Proof.
  unfold GET, find.
  destruct (filter (query (parsePeriod periodParam)) coll) as [|x l] eqn:E;
    cbv zeta iota beta; cbn [markets]; intro H.
  - apply In_firstn_In, In_firstn_In in H. apply stable_sort_In in H.
    now apply filter_In in H.
  - apply In_firstn_In in H. apply stable_sort_In in H. rewrite <- E in H.
    now apply filter_In in H.
Qed.

(** Without a description and a category, a write leaves those of the
    document in place.  A market named "AI odds", described by "NBA
    finals" in the category "Sports", passes the filter (its name
    mentions an allowed topic) and is stored; when a later refresh
    yields it as "Odds" without description and category, which passes
    the filter as well, the stored document is named "Odds" and still
    described by "NBA finals" in "Sports": the filter excludes it. *)
Lemma stale_description_outlives_the_filter :
  let db := refreshes [(MoreSamples.env_ai, Samples.now0);
                       (MoreSamples.env_odds, Samples.now0 + Samples.hour)]
              Samples.empty_store in
  map excluded (processed MoreSamples.env_ai) = [false]
  /\ map excluded (processed MoreSamples.env_odds) = [false]
  /\ map (fun row => (marketName row, description row, category row))
       (marketColl db)
     = [("Odds", Some "NBA finals", Some "Sports")]
  /\ map stored_excluded (marketColl db) = [true].
Proof. repeat split; vm_compute; reflexivity. Qed.

(** X30: the content filter of the adapters reaches the ranking when
    the markets carry a description and a category.  On a store filled
    by refreshes only, starting from an empty Market collection,
    whatever the sources return and whichever operations fail, if every
    processed market carries a description and a category then every
    stored document passes the content filter when the filter is
    applied to the document's own name, description and category; and
    so does every market in the answer of the ranking endpoint, for
    every period. *)
Theorem ranking_shows_only_markets_that_pass_the_filter :
  forall (runs : list (Env * Date))
         (history : list HistoricalPrice.IHistoricalPrice)
         (periodParam : option string),
    all_described runs ->
    let coll := marketColl (refreshes runs (mkStore [] history)) in
    Forall (fun row => stored_excluded row = false) coll
    /\ Forall (fun row => stored_excluded row = false)
         (markets (GET periodParam coll)).
Proof.
  intros runs history periodParam Hd. cbv zeta.
  pose proof (refreshes_pass runs Hd (mkStore [] history) (Forall_nil _)) as H.
  split; [exact H|]. apply Forall_forall. intros m Hm.
  apply GET_markets_In in Hm. rewrite Forall_forall in H. now apply H.
Qed.

(** One refresh that yields the described market "AI odds". *)
Lemma ranking_shows_only_markets_that_pass_the_filter_witness :
  let coll :=
    marketColl (refreshes [(MoreSamples.env_ai, Samples.now0)] Samples.empty_store) in
  Forall (fun row => stored_excluded row = false) coll
  /\ Forall (fun row => stored_excluded row = false) (markets (GET (Some "1w") coll)).
Proof.
  apply (ranking_shows_only_markets_that_pass_the_filter
           [(MoreSamples.env_ai, Samples.now0)] [] (Some "1w")).
  constructor; [|constructor]. cbn [fst].
  apply Forall_forall. intros m Hm. vm_compute in Hm.
  destruct Hm as [<- | []]. reflexivity.
Defined.

End FilterThenRanking.
